(** * Kharge: a daily expense ledger with Jalali dates (kharge.py)

    A shallow embedding of [kharge.py] and of the parts of its libraries
    (Python built-ins, [jdatetime], [datetime], [re], [pandas]) that the
    script calls, followed by theorems about the script's behaviour.

    Modelling conventions.
    - Python integers are [Z]; a Python float is idealised as an exact
      rational ([Q]) or NaN.  Amounts are finite: infinities, the rounding
      of float64 and the wrap-around of int64 sums are outside the model,
      and the statements about sums are made for amounts small enough for
      neither to occur.
    - A Python string is the [string] of the bytes of its UTF-8 encoding;
      a string is ASCII when every byte is below 128.
    - Python exceptions are values of [exn] carried by the [result] monad.
    - The development covers runs in which [import jdatetime] succeeded,
      so [ensure_jdatetime()] is a no-op, and in which writing
      [expenses.csv] succeeds.
    - [jdatetime], [pandas], [numpy] and [re] are libraries outside the
      repository.  The conversion arithmetic of [jdatetime] and the cell
      operations of [pandas] are written out.  Library functions that
      read or transform text ([jdatetime.date.fromisoformat],
      [pd.to_numeric] on a text, [str.strip], [re] with [IGNORECASE]) are
      parameters, each with the part of its behaviour the development
      relies on; so are the text Python prints for a float, the text
      [jdatetime] prints for [%Y], and numpy's argsort of the default
      kind.  A reference implementation of each text function, exact on
      ASCII text of the usual shape, serves the examples.
    - A DataFrame read from CSV is a [frame]: column names and rows that
      map column names to cells.  The session table is a list of
      [expense] rows whose text columns hold text or null and whose
      amount column holds numbers. *)

From Stdlib Require Import Ascii ZArith QArith Permutation Sorted.
From stdpp Require Import gmap strings list.

Open Scope Z_scope.

(** ** Exceptions and the error monad *)

Inductive exn : Type :=
| InvalidDateFormat            (* ValueError raised by jalali_to_gregorian *)
| MissingColumn (c : string)   (* ValueError raised by the import handler *)
| NanToInteger                 (* ValueError: cannot convert float NaN to integer *)
| KeyError (c : string)        (* row access to an absent label *)
| PatternError                 (* re.error: the filter text is no valid pattern *)
| ReadCsvError.                (* pd.read_csv cannot parse the file *)

Inductive result (A : Type) : Type :=
| Ok (a : A)
| Raise (e : exn).
Arguments Ok {A} a.
Arguments Raise {A} e.

#[global] Instance result_ret : MRet result := fun A a => Ok a.

#[global] Instance result_bind : MBind result := fun A B f x =>
  match x with
  | Ok a => f a
  | Raise e => Raise e
  end.

Definition is_ok {A : Type} (x : result A) : bool :=
  match x with Ok _ => true | Raise _ => false end.

(** ** Python numbers *)

Inductive num : Type :=
| Int (z : Z)
| Float (q : Q)
| NaN.

(** [bool(x)]: a number is falsy exactly when it equals zero; NaN is truthy. *)
Definition py_bool (n : num) : bool :=
  match n with
  | Int z => negb (z =? 0)
  | Float q => negb (Qeq_bool q 0)
  | NaN => true
  end.

(** [x or 0] *)
Definition py_or_0 (n : num) : num := if py_bool n then n else Int 0.

(** [int(x)]: truncation toward zero; [int(nan)] raises ValueError. *)
Definition py_int (n : num) : result Z :=
  match n with
  | Int z => Ok z
  | Float q => Ok (Z.quot (Qnum q) (Z.pos (Qden q)))
  | NaN => Raise NanToInteger
  end.

(** [x <= 0]; every comparison with NaN is false. *)
Definition py_le_0 (n : num) : bool :=
  match n with
  | Int z => z <=? 0
  | Float q => Qle_bool q 0
  | NaN => false
  end.

(** The rational value of a number, NaN counted as 0 (pandas [skipna]). *)
Definition num_value (n : num) : Q :=
  match n with
  | Int z => inject_Z z
  | Float q => q
  | NaN => 0%Q
  end.

Definition is_nan (n : num) : bool :=
  match n with NaN => true | _ => false end.

(** ** Python strings *)

Definition is_digit (c : ascii) : bool :=
  let n := N_of_ascii c in ((48 <=? n) && (n <=? 57))%N.

Definition digit_val (c : ascii) : Z := Z.of_N (N_of_ascii c) - 48.

Definition digit_char (d : Z) : ascii := ascii_of_N (Z.to_N (48 + d mod 10)).

Fixpoint int_of_digits (acc : Z) (s : string) : option Z :=
  match s with
  | EmptyString => Some acc
  | String c s' =>
      if is_digit c then int_of_digits (10 * acc + digit_val c) s' else None
  end.

(** A non-empty run of decimal digits. *)
Definition parse_uint (s : string) : option Z :=
  match s with
  | EmptyString => None
  | _ => int_of_digits 0 s
  end.

(** A run of decimal digits, possibly empty. *)
Fixpoint all_digits (s : string) : bool :=
  match s with
  | EmptyString => true
  | String c s' => is_digit c && all_digits s'
  end.

(** ["%02d" % z] and ["%04d" % z] for a field that fits its width. *)
Definition fmt2 (z : Z) : string :=
  String (digit_char (z / 10)) (String (digit_char z) EmptyString).

Definition fmt4 (z : Z) : string :=
  String (digit_char (z / 1000)) (String (digit_char (z / 100))
    (String (digit_char (z / 10)) (String (digit_char z) EmptyString))).

(** [str.isspace] on 8-bit characters: TAB, LF, VT, FF, CR, FS..US, space. *)
Definition is_space (c : ascii) : bool :=
  let n := N_of_ascii c in
  (((9 <=? n) && (n <=? 13)) || ((28 <=? n) && (n <=? 32)))%N.

Fixpoint lstrip (s : string) : string :=
  match s with
  | String c s' => if is_space c then lstrip s' else s
  | EmptyString => EmptyString
  end.

Fixpoint rstrip (s : string) : string :=
  match s with
  | EmptyString => EmptyString
  | String c s' =>
      match rstrip s' with
      | EmptyString => if is_space c then EmptyString else String c EmptyString
      | t => String c t
      end
  end.

(** A string of blanks only. *)
Fixpoint all_space (s : string) : bool :=
  match s with
  | EmptyString => true
  | String c s' => is_space c && all_space s'
  end.

(** [s.strip()] for ASCII text. *)
Definition ascii_strip (s : string) : string := rstrip (lstrip s).

(** Text made of ASCII characters only. *)
Fixpoint is_ascii (s : string) : bool :=
  match s with
  | EmptyString => true
  | String c s' => (N_of_ascii c <? 128)%N && is_ascii s'
  end.

(** [str.strip]: what the development relies on is its effect on ASCII
    text. *)
Class str_methods : Type := {
  strip : string -> string;
  strip_ascii : forall s, is_ascii s = true -> strip s = ascii_strip s
}.

(** Case folding of one character: A..Z to a..z. *)
Definition lower_char (c : ascii) : ascii :=
  let n := N_of_ascii c in
  if ((65 <=? n) && (n <=? 90))%N then ascii_of_N (n + 32) else c.

Fixpoint lower (s : string) : string :=
  match s with
  | EmptyString => EmptyString
  | String c s' => String (lower_char c) (lower s')
  end.

(** [field] contains [needle] as a substring, ASCII letter case ignored. *)
Definition icontains (needle field : string) : Prop :=
  exists pre post, lower field = pre +:+ lower needle +:+ post.

(** Truthiness of a string: [if s:] holds for non-empty strings. *)
Definition nonempty (s : string) : bool :=
  match s with EmptyString => false | _ => true end.

(** ** datetime.date: Gregorian dates *)

Module datetime.

Record date : Type := mk_date { year : Z; month : Z; day : Z }.

(** [d.isoformat()] is ["%04d-%02d-%02d" % (year, month, day)]; the
    year of a [datetime.date] lies in 1..9999, so it fits four digits. *)
Definition isoformat (d : date) : string :=
  fmt4 (year d) +:+ "-" +:+ fmt2 (month d) +:+ "-" +:+ fmt2 (day d).

End datetime.

(** ** jdatetime: Jalali dates and the conversion arithmetic of jalali.py

    The date class accepts the years 1..9377; the two conversions count
    days from 1 Farvardin 979 (21 March 1600) with the 33-year Jalali
    cycle and the 400-year Gregorian cycle. *)

Module jdatetime.

Definition MINYEAR : Z := 1.
Definition MAXYEAR : Z := 9377.

Definition G_DAYS_IN_MONTH : list Z :=
  [31; 28; 31; 30; 31; 30; 31; 31; 30; 31; 30; 31].
Definition J_DAYS_IN_MONTH : list Z :=
  [31; 31; 31; 31; 31; 31; 30; 30; 30; 30; 30; 29].

Record date : Type := mk_date { year : Z; month : Z; day : Z }.

(** [date.isleap]: the 33-year cycle. *)
Definition isleap (y : Z) : bool :=
  existsb (Z.eqb (y mod 33)) [1; 5; 9; 13; 17; 22; 26; 30].

(** [date(year, month, day)]: [None] stands for the ValueError of the
    range checks. *)
Definition new_date (y m d : Z) : option date :=
  if (y <? MINYEAR) || (MAXYEAR <? y) then None
  else if (m <? 1) || (12 <? m) then None
  else if d <? 1 then None
  else if (m =? 12) && (d =? 30) && isleap y then Some (mk_date y m d)
  else if (m =? 12) && (d =? 30) then None
  else if nth (Z.to_nat (m - 1)) J_DAYS_IN_MONTH 0 <? d then None
  else Some (mk_date y m d).

(** [for i in range(n): acc += months[i]] *)
Definition add_months (months : list Z) (n acc : Z) : Z :=
  foldl Z.add acc (take (Z.to_nat n) months).

(** The closing [while] loop of [JalaliToGregorian]: walk the Gregorian
    months, February lengthened in a leap year; returns the month index
    and the remaining day number. *)
Fixpoint g_month_walk (leap : bool) (months : list Z) (i g_day_no : Z)
  : Z * Z :=
  match months with
  | [] => (i, g_day_no)
  | len :: rest =>
      let len' := len + (if (i =? 1) && leap then 1 else 0) in
      if len' <=? g_day_no
      then g_month_walk leap rest (i + 1) (g_day_no - len')
      else (i, g_day_no)
  end.

Definition JalaliToGregorian (jyear jmonth jday : Z) : Z * Z * Z :=
  let jy := jyear - 979 in
  let jm := jmonth - 1 in
  let jd := jday - 1 in
  let j_day_no := 365 * jy + (jy / 33) * 8 + (jy mod 33 + 3) / 4 in
  let j_day_no := add_months J_DAYS_IN_MONTH jm j_day_no in
  let j_day_no := j_day_no + jd in
  let g_day_no := j_day_no + 79 in
  let gy := 1600 + 400 * (g_day_no / 146097) in
  let g_day_no := g_day_no mod 146097 in
  let '(leap, gy, g_day_no) :=
    if 36525 <=? g_day_no then
      let g_day_no := g_day_no - 1 in
      let gy := gy + 100 * (g_day_no / 36524) in
      let g_day_no := g_day_no mod 36524 in
      if 365 <=? g_day_no then (true, gy, g_day_no + 1)
      else (false, gy, g_day_no)
    else (true, gy, g_day_no) in
  let gy := gy + 4 * (g_day_no / 1461) in
  let g_day_no := g_day_no mod 1461 in
  let '(leap, gy, g_day_no) :=
    if 366 <=? g_day_no then
      let g_day_no := g_day_no - 1 in
      (false, gy + g_day_no / 365, g_day_no mod 365)
    else (leap, gy, g_day_no) in
  let '(i, g_day_no) := g_month_walk leap G_DAYS_IN_MONTH 0 g_day_no in
  (gy, i + 1, g_day_no + 1).

(** The [for i in range(11)] loop of [GregorianToJalali]: returns the
    value of [i] after the loop and the remaining day number. *)
Fixpoint j_month_walk (months : list Z) (i j_day_no : Z) : Z * Z :=
  match months with
  | [] => (i - 1, j_day_no)
  | len :: rest =>
      if j_day_no <? len then (i - 1, j_day_no)
      else j_month_walk rest (i + 1) (j_day_no - len)
  end.

Definition GregorianToJalali (gyear gmonth gday : Z) : Z * Z * Z :=
  let gy := gyear - 1600 in
  let gm := gmonth - 1 in
  let gd := gday - 1 in
  let g_day_no :=
    365 * gy + (gy + 3) / 4 - (gy + 99) / 100 + (gy + 399) / 400 in
  let g_day_no := add_months G_DAYS_IN_MONTH gm g_day_no in
  let g_day_no :=
    if (1 <? gm) &&
       (((gy mod 4 =? 0) && negb (gy mod 100 =? 0)) || (gy mod 400 =? 0))
    then g_day_no + 1 else g_day_no in
  let g_day_no := g_day_no + gd in
  let j_day_no := g_day_no - 79 in
  let j_np := j_day_no / 12053 in
  let j_day_no := j_day_no mod 12053 in
  let jy := 979 + 33 * j_np + 4 * (j_day_no / 1461) in
  let j_day_no := j_day_no mod 1461 in
  let '(jy, j_day_no) :=
    if 366 <=? j_day_no
    then (jy + (j_day_no - 1) / 365, (j_day_no - 1) mod 365)
    else (jy, j_day_no) in
  let '(i, j_day_no) := j_month_walk (take 11 J_DAYS_IN_MONTH) 0 j_day_no in
  (jy, i + 2, j_day_no + 1).

(** [jdate.togregorian()] *)
Definition togregorian (j : date) : datetime.date :=
  let '(y, m, d) := JalaliToGregorian (year j) (month j) (day j) in
  datetime.mk_date y m d.

(** [jdatetime.date.fromgregorian(date=g)] *)
Definition fromgregorian (g : datetime.date) : option date :=
  let '(y, m, d) :=
    GregorianToJalali (datetime.year g) (datetime.month g) (datetime.day g) in
  new_date y m d.

(** The texts of the shape [YYYY-MM-DD]: exactly ten characters,
    [dddd-dd-dd] in ASCII digits, then the constructor's checks. *)
Definition fromisoformat_extended (s : string) : option date :=
  if (String.length s =? 10)%nat then
    match parse_uint (String.substring 0 4 s), String.get 4 s,
          parse_uint (String.substring 5 2 s), String.get 7 s,
          parse_uint (String.substring 8 2 s) with
    | Some y, Some sep1, Some m, Some sep2, Some d =>
        if Ascii.eqb sep1 "-" && Ascii.eqb sep2 "-" then new_date y m d
        else None
    | _, _, _, _, _ => None
    end
  else None.

(** [jdate.strftime("%Y-%m-%d")]; [year_text] is the text the library
    prints for [%Y]. *)
Definition strftime_Ymd (year_text : Z -> string) (j : date) : string :=
  year_text (year j) +:+ "-" +:+ fmt2 (month j) +:+ "-" +:+ fmt2 (day j).

(** [jdatetime.date.fromisoformat(s)], [None] standing for its
    ValueError.  The library decides which texts it reads; what the
    development relies on is that it hands out dates its constructor
    accepts and reads no date from the empty text. *)
Class reader : Type := {
  fromisoformat : string -> option date;
  fromisoformat_date : forall s j,
    fromisoformat s = Some j -> new_date (year j) (month j) (day j) = Some j;
  fromisoformat_empty : fromisoformat EmptyString = None
}.

End jdatetime.

(** ** Cells of a DataFrame and scalar conversions *)

Inductive cell : Type :=
| CNone                 (* None *)
| CNum (n : num)        (* an int or a float; [CNum NaN] is the missing marker *)
| CStr (s : string).

(** [pd.isna] *)
Definition isna (c : cell) : bool :=
  match c with
  | CNone | CNum NaN => true
  | _ => false
  end.

(** Decimal text of an integer, [str(z)]. *)
Fixpoint digits_of (fuel : nat) (z : Z) (acc : string) : string :=
  match fuel with
  | O => acc
  | S fuel' =>
      let acc' := String (digit_char z) acc in
      if z <? 10 then acc' else digits_of fuel' (z / 10) acc'
  end.

Definition str_of_Z (z : Z) : string :=
  let mag := Z.abs z in
  let body := digits_of (S (Z.to_nat (Z.log2 mag))) mag EmptyString in
  if z <? 0 then String "-" body else body.

(** [str(x)] on a cell; [float_repr] is Python's text for a finite float. *)
Definition py_str (float_repr : Q -> string) (c : cell) : string :=
  match c with
  | CNone => "None"
  | CNum (Int z) => str_of_Z z
  | CNum (Float q) => float_repr q
  | CNum NaN => "nan"
  | CStr s => s
  end.

(** Split at the first ['.']. *)
Fixpoint split_point (s : string) : string * option string :=
  match s with
  | EmptyString => (EmptyString, None)
  | String c s' =>
      if Ascii.eqb c "." then (EmptyString, Some s')
      else let '(a, b) := split_point s' in (String c a, b)
  end.

(** Numeric text in plain decimal notation: an optional sign, digits and
    an optional fraction. *)
Definition parse_number (s : string) : option num :=
  let '(neg, body) :=
    match s with
    | String "-" r => (true, r)
    | String "+" r => (false, r)
    | _ => (false, s)
    end in
  let sign := if neg : bool then (-1) else 1 in
  match split_point body with
  | (ip, None) => (fun n => Int (sign * n)) <$> parse_uint ip
  | (ip, Some fp) =>
      if nonempty ip || nonempty fp then
        a ← int_of_digits 0 ip;
        b ← int_of_digits 0 fp;
        let scale := 10 ^ Z.of_nat (String.length fp) in
        Some (Float (Qmake (sign * (a * scale + b)) (Z.to_pos scale)))
      else None
  end.

(** [pd.to_numeric(s, errors="coerce")] on a text, NaN when pandas reads
    no number from it.  pandas decides which texts are numbers; what the
    development relies on is that the decimal text of an integer below
    2^53 in size reads as that integer. *)
Class numeric_reader : Type := {
  numeric_of_text : string -> num;
  numeric_of_decimal : forall z, - 2 ^ 53 < z < 2 ^ 53 ->
    is_nan (numeric_of_text (str_of_Z z)) = false /\
    (num_value (numeric_of_text (str_of_Z z)) == inject_Z z)%Q
}.

(** ** re: patterns searched with [re.IGNORECASE]

    The module holds a reference engine for the patterns made of literal
    characters and ['.'], and the class of engines the script is verified
    against. *)

Module re.

Inductive atom : Type :=
| Lit (c : ascii)
| AnyChar.

(** Characters with a special meaning in a pattern. *)
Definition is_meta (c : ascii) : bool :=
  existsb (Ascii.eqb c)
    ["."; "^"; "$"; "*"; "+"; "?"; "{"; "}"; "["; "]"; "\"; "|"; "("; ")"]%char.

(** The patterns of the fragment; [None] for a pattern outside it. *)
Fixpoint compile (pat : string) : option (list atom) :=
  match pat with
  | EmptyString => Some []
  | String c pat' =>
      if Ascii.eqb c "." then cons AnyChar <$> compile pat'
      else if is_meta c then None
      else cons (Lit c) <$> compile pat'
  end.

Definition atom_matches (a : atom) (c : ascii) : bool :=
  match a with
  | Lit l => Ascii.eqb (lower_char l) (lower_char c)
  | AnyChar => negb (Ascii.eqb c "010")
  end.

(** A match of the whole pattern starting at the head of [s]. *)
Fixpoint match_here (p : list atom) (s : string) : bool :=
  match p, s with
  | [], _ => true
  | _ :: _, EmptyString => false
  | a :: p', String c s' => atom_matches a c && match_here p' s'
  end.

(** [regex.search(s) is not None] *)
Fixpoint search (p : list atom) (s : string) : bool :=
  match_here p s ||
  match s with
  | EmptyString => false
  | String _ s' => search p s'
  end.

(** A filter text without regular-expression metacharacters. *)
Fixpoint plain (s : string) : bool :=
  match s with
  | EmptyString => true
  | String c s' => negb (is_meta c) && plain s'
  end.

(** [re.compile(pat, re.IGNORECASE)], [None] standing for [re.error], and
    [regex.search(s) is not None] for the compiled pattern.  What the
    development relies on: a non-empty ASCII text without metacharacters
    is a valid pattern, and on ASCII text it finds exactly the substrings
    equal to it up to the case of the letters. *)
Class engine : Type := {
  compile_ignorecase : string -> option (string -> bool);
  compile_plain_ascii : forall pat,
    pat <> EmptyString -> plain pat = true -> is_ascii pat = true ->
    exists found,
      compile_ignorecase pat = Some found /\
      forall s, is_ascii s = true -> (found s = true <-> icontains pat s)
}.

End re.

(** ** pandas: frames read from CSV *)

Module pd.

Record frame : Type := mk_frame {
  columns : list string;
  rows : list (gmap string cell)
}.

(** [c in df.columns] *)
Definition has_column (df : frame) (c : string) : bool :=
  bool_decide (c ∈ columns df).

(** [r[c]] on a row; a frame is rectangular, so the model reads an
    absent entry as null. *)
Definition at_ (r : gmap string cell) (c : string) : cell :=
  default CNone (r !! c).

(** [df[c] = f(row)]: replaces column [c], or appends it as the last
    column when it is new. *)
Definition set_column (df : frame) (c : string)
    (f : gmap string cell -> cell) : frame :=
  {| columns := if has_column df c then columns df else columns df ++ [c];
     rows := (fun r => <[c := f r]> r) <$> rows df |}.

(** [df[cols]]: the listed columns in the listed order; KeyError when a
    listed column is absent. *)
Definition select (df : frame) (cols : list string) : result frame :=
  match List.find (fun c => negb (has_column df c)) cols with
  | Some c => Raise (KeyError c)
  | None =>
      Ok {| columns := cols;
            rows := (fun r => list_to_map ((fun c => (c, at_ r c)) <$> cols))
                      <$> rows df |}
  end.

(** [pd.DataFrame(columns=cols)] *)
Definition empty (cols : list string) : frame :=
  {| columns := cols; rows := [] |}.

End pd.

(** ** numpy: the argsort of the default kind

    [np.argsort(kind="quicksort")] as numpy's npysort/quicksort.cpp has it
    for an array compared with [less]: partitions around the median of
    three while a range has more than [SMALL_QUICKSORT] + 1 elements,
    insertion sort below that.  The index array that numpy permutes is
    the list of the elements themselves. *)

Module numpy.

Section Quicksort.

Context {A : Type} (less : A -> A -> bool) (d : A).

Definition get (v : list A) (i : nat) : A := nth i v d.

Definition swap (v : list A) (i j : nat) : list A :=
  <[i := get v j]> (<[j := get v i]> v).

Definition swap_if (b : bool) (v : list A) (i j : nat) : list A :=
  if b then swap v i j else v.

(** [do ++pi; while (less(v[pi], vp));] *)
Fixpoint scan_up (fuel : nat) (v : list A) (vp : A) (pi : nat) : nat :=
  match fuel with
  | O => pi
  | S fuel' =>
      if less (get v (S pi)) vp then scan_up fuel' v vp (S pi) else S pi
  end.

(** [do --pj; while (less(vp, v[pj]));] *)
Fixpoint scan_down (fuel : nat) (v : list A) (vp : A) (pj : nat) : nat :=
  match fuel with
  | O => pj
  | S fuel' =>
      if less vp (get v (pred pj)) then scan_down fuel' v vp (pred pj)
      else pred pj
  end.

(** The [for (;;)] loop of the partition. *)
Fixpoint exchange (fuel : nat) (v : list A) (vp : A) (pi pj : nat)
  : list A * nat :=
  match fuel with
  | O => (v, pi)
  | S fuel' =>
      let pi := scan_up (length v) v vp pi in
      let pj := scan_down (length v) v vp pj in
      if (pj <=? pi)%nat then (v, pi)
      else exchange fuel' (swap v pi pj) vp pi pj
  end.

(** One partition of [v[pl..pr]]: median of three, the exchange loop, the
    pivot put in place; returns the array and the place of the pivot. *)
Definition partition (v : list A) (pl pr : nat) : list A * nat :=
  let pm := (pl + (pr - pl) / 2)%nat in
  let v := swap_if (less (get v pm) (get v pl)) v pm pl in
  let v := swap_if (less (get v pr) (get v pm)) v pr pm in
  let v := swap_if (less (get v pm) (get v pl)) v pm pl in
  let vp := get v pm in
  let v := swap v pm (pr - 1) in
  let '(v, pi) := exchange (length v) v vp pl (pr - 1) in
  (swap v pi (pr - 1), pi).

(** The inner [while] of the insertion sort: shift the larger elements up
    and return the place for [vi]. *)
Fixpoint shift (fuel : nat) (v : list A) (vi : A) (pl pj : nat) : list A * nat :=
  match fuel with
  | O => (v, pj)
  | S fuel' =>
      if (pl <? pj)%nat && less vi (get v (pred pj))
      then shift fuel' (<[pj := get v (pred pj)]> v) vi pl (pred pj)
      else (v, pj)
  end.

(** Insertion sort of [v[pl..pr]]: [count] elements from [pi] on. *)
Fixpoint insertion (count : nat) (v : list A) (pl pi : nat) : list A :=
  match count with
  | O => v
  | S count' =>
      let vi := get v pi in
      let '(v, pj) := shift (length v) v vi pl pi in
      insertion count' (<[pj := vi]> v) pl (S pi)
  end.

Definition SMALL_QUICKSORT : nat := 16.

(** The sort of [v[pl..pr]] with the depth budget [cdepth]; [None] when
    the budget is used up, where numpy turns to heapsort. *)
Fixpoint sort_range (fuel : nat) (v : list A) (pl pr : nat) (cdepth : Z)
  : option (list A) :=
  match fuel with
  | O => None
  | S fuel' =>
      if (SMALL_QUICKSORT <? pr - pl)%nat then
        let '(v, pi) := partition v pl pr in
        let cdepth := cdepth - 1 in
        if cdepth <? 0 then None
        else if (pi - pl <? pr - pi)%nat then
          v ← sort_range fuel' v pl (pi - 1) cdepth;
          sort_range fuel' v (pi + 1) pr cdepth
        else
          v ← sort_range fuel' v (pi + 1) pr cdepth;
          sort_range fuel' v pl (pi - 1) cdepth
      else Some (insertion (pr - pl) v pl (S pl))
  end.

(** [npy_get_msb(num) * 2] *)
Definition depth_limit (num : nat) : Z := 2 * Z.log2 (Z.of_nat num).

Definition quicksort (v : list A) : option (list A) :=
  match v with
  | [] => Some []
  | _ => sort_range (length v) v 0 (length v - 1) (depth_limit (length v))
  end.

End Quicksort.

End numpy.

Section Script.

Context {jdatetime_reader : jdatetime.reader} {pandas_numeric : numeric_reader}
        {str_of_python : str_methods} {re_engine : re.engine}.

(** ** kharge.py: the date helpers *)

(** [jalali_to_gregorian(jalali_str)]: any exception of the library calls
    is re-raised as the ValueError "invalid date format". *)
Definition jalali_to_gregorian (jalali_str : string) : result datetime.date :=
  match jdatetime.fromisoformat jalali_str with
  | Some jdate => Ok (jdatetime.togregorian jdate)
  | None => Raise InvalidDateFormat
  end.

(** [gregorian_to_jalali(gdate)]; a ValueError of [fromgregorian] is not
    caught by the function. *)
Definition gregorian_to_jalali (year_text : Z -> string) (gdate : datetime.date)
  : option string :=
  jdatetime.strftime_Ymd year_text <$> jdatetime.fromgregorian gdate.

(** [pd.to_numeric(x, errors="coerce")] on one value. *)
Definition to_numeric (c : cell) : num :=
  match c with
  | CNone => NaN
  | CNum n => n
  | CStr s => numeric_of_text s
  end.

(** [.fillna(0)] on one numeric value. *)
Definition fillna_0 (n : num) : num :=
  match n with NaN => Int 0 | _ => n end.

(** ** kharge.py: the ledger store *)

Definition expected : list string :=
  ["id"; "date_jalali"; "date_gregorian"; "amount"; "description"; "card"].

(** One iteration of [for col in expected: if col not in df.columns:
    df[col] = None], and the loop. *)
Definition ensure_column (df : pd.frame) (col : string) : pd.frame :=
  if pd.has_column df col then df
  else pd.set_column df col (fun _ => CNone).

Definition ensure_columns (df : pd.frame) : pd.frame :=
  foldl ensure_column df expected.

(** [read_data()]; the argument is [None] when [expenses.csv] does not
    exist and otherwise the outcome of [pd.read_csv] on it: a frame, or
    the exception it raises on a file it cannot parse (an empty file,
    say), which [read_data] does not catch. *)
Definition read_data (file : option (result pd.frame)) : result pd.frame :=
  match file with
  | Some read_csv =>
      df ← read_csv;
      let df := ensure_columns df in
      let df :=
        pd.set_column df "amount"
          (fun r => CNum (fillna_0 (to_numeric (pd.at_ r "amount")))) in
      pd.select df expected
  | None => Ok (pd.empty expected)
  end.

(** ** kharge.py: the session table *)

(** One row of [st.session_state.df].  Text columns hold text or null. *)
Record expense : Type := mk_expense {
  id : option string;
  date_jalali : option string;
  date_gregorian : option string;
  amount : num;
  description : option string;
  card : option string
}.

Definition text_of_cell (c : cell) : option (option string) :=
  match c with
  | CStr s => Some (Some s)
  | CNone | CNum NaN => Some None
  | CNum _ => None
  end.

(** The typed view of a row of the normalized frame; [None] when a text
    column holds a number or the amount column holds text. *)
Definition expense_of_row (r : gmap string cell) : option expense :=
  i ← text_of_cell (pd.at_ r "id");
  dj ← text_of_cell (pd.at_ r "date_jalali");
  dg ← text_of_cell (pd.at_ r "date_gregorian");
  a ← match pd.at_ r "amount" with
       | CNum n => Some n
       | CNone => Some NaN
       | CStr _ => None
       end;
  de ← text_of_cell (pd.at_ r "description");
  ca ← text_of_cell (pd.at_ r "card");
  Some (mk_expense i dj dg a de ca).

Definition table_of_frame (df : pd.frame) : option (list expense) :=
  mapM expense_of_row (pd.rows df).

(** The state the script keeps between reruns: [st.session_state.df] and
    the table last serialised into [expenses.csv] by [write_data] ([None]
    while nothing has been written). *)
Record world : Type := mk_world {
  session_df : list expense;
  DATA_FILE : option (list expense)
}.

(** [write_data(df)] *)
Definition write_data (t : list expense) (w : world) : world :=
  {| session_df := session_df w; DATA_FILE := Some t |}.

(** What a handler shows to the user. *)
Inductive notice : Type :=
| warning_missing_date        (* st.warning + st.stop(): the date is empty *)
| warning_nonpositive_amount  (* st.warning + st.stop(): amount <= 0 *)
| error (e : exn)             (* st.error in the [except] branch *)
| success.                    (* st.success *)

(** ** kharge.py: the add-expense form *)

Record form : Type := mk_form {
  in_date_jalali : string;
  in_amount : num;
  in_description : string;
  in_card : string
}.

(** The body of [try:] after [if submitted:]; [uuid] is the text of the
    [uuid.uuid4()] drawn by this run.  [inl] is a run halted by
    [st.stop()], which the [except Exception] clause does not catch. *)
Definition new_row (uuid : string) (f : form)
  : notice + result expense :=
  if negb (nonempty (in_date_jalali f)) then inl warning_missing_date
  else if py_le_0 (in_amount f) then inl warning_nonpositive_amount
  else inr (
    gdate ← jalali_to_gregorian (in_date_jalali f);
    a ← py_int (in_amount f);
    mret {| id := Some uuid;
            date_jalali := Some (in_date_jalali f);
            date_gregorian := Some (datetime.isoformat gdate);
            amount := Int a;
            description := Some (strip (in_description f));
            card := Some (strip (in_card f)) |}).

(** The submit handler of [add_expense_form]. *)
Definition add_expense (uuid : string) (f : form) (w : world)
  : notice * world :=
  match new_row uuid f with
  | inl stopped => (stopped, w)
  | inr (Raise e) => (error e, w)
  | inr (Ok row) =>
      let df := session_df w ++ [row] in
      (success, write_data df {| session_df := df; DATA_FILE := DATA_FILE w |})
  end.

(** ** kharge.py: CSV import *)

Definition needed : list string := ["date_jalali"; "amount"].

(** [imp[c] = imp.get(c, "")]: the column itself when present, a column
    of empty strings otherwise. *)
Definition default_column (imp : pd.frame) (c : string) : pd.frame :=
  if pd.has_column imp c then pd.set_column imp c (fun r => pd.at_ r c)
  else pd.set_column imp c (fun _ => CStr "").

(** [r[c]] inside the loop: KeyError when the label is absent. *)
Definition getitem (r : gmap string cell) (c : string) : result cell :=
  match r !! c with
  | Some v => Ok v
  | None => Raise (KeyError c)
  end.

(** [r.get(c, "")] *)
Definition get_or_empty (r : gmap string cell) (c : string) : cell :=
  default (CStr "") (r !! c).

(** One iteration of [for _, r in imp.iterrows()]. *)
Definition build_from_import_row (float_repr : Q -> string) (uuid : string)
    (r : gmap string cell) : result expense :=
  dj ← getitem r "date_jalali";
  g ← jalali_to_gregorian (py_str float_repr dj);
  am ← getitem r "amount";
  a ← py_int (py_or_0 (to_numeric am));
  mret {| id := Some uuid;
          date_jalali := Some (py_str float_repr dj);
          date_gregorian := Some (datetime.isoformat g);
          amount := Int a;
          description := Some (py_str float_repr (get_or_empty r "description"));
          card := Some (py_str float_repr (get_or_empty r "card")) |}.

(** The loop that fills [records]; [uuid4 n] is the n-th identifier drawn. *)
Fixpoint build_records (float_repr : Q -> string) (uuid4 : nat -> string)
    (n : nat) (rs : list (gmap string cell)) : result (list expense) :=
  match rs with
  | [] => Ok []
  | r :: rs' =>
      rec ← build_from_import_row float_repr (uuid4 n) r;
      recs ← build_records float_repr uuid4 (S n) rs';
      mret (rec :: recs)
  end.

(** The column check [for c in needed: if c not in imp.columns: raise]. *)
Definition check_needed (imp : pd.frame) : result unit :=
  match List.find (fun c => negb (pd.has_column imp c)) needed with
  | Some c => Raise (MissingColumn c)
  | None => Ok tt
  end.

(** The body of [try:] in the upload handler, up to [records]. *)
Definition import_records (float_repr : Q -> string) (uuid4 : nat -> string)
    (imp : pd.frame) : result (list expense) :=
  _ ← check_needed imp;
  let imp := default_column imp "description" in
  let imp := default_column imp "card" in
  build_records float_repr uuid4 0 (pd.rows imp).

(** The upload handler; [imp] is the frame [pd.read_csv(uploaded)]
    returns and [df] the module-level variable bound to the session table
    when the run started. *)
Definition import_csv (float_repr : Q -> string) (uuid4 : nat -> string)
    (imp : pd.frame) (df : list expense) (w : world) : notice * world :=
  match import_records float_repr uuid4 imp with
  | Ok records =>
      let merged := df ++ records in
      (success,
       write_data merged {| session_df := merged; DATA_FILE := DATA_FILE w |})
  | Raise e => (error e, w)
  end.

(** The reset button. *)
Definition reset (w : world) : world :=
  write_data [] {| session_df := []; DATA_FILE := DATA_FILE w |}.

(** ** kharge.py: filters, sort and summaries *)

Record filters : Type := mk_filters {
  start_j : string;
  end_j : string;
  card_filter : string;
  search : string
}.

(** [filtered["date_gregorian"] >= bound], row by row; a null date
    compares false. *)
Definition date_ge (bound : string) (r : expense) : bool :=
  match date_gregorian r with
  | Some d => String.leb bound d
  | None => false
  end.

(** [filtered["date_gregorian"] <= bound] *)
Definition date_le (bound : string) (r : expense) : bool :=
  match date_gregorian r with
  | Some d => String.leb d bound
  | None => false
  end.

(** The statements under [if start_j:] and under [if end_j:]. *)
Definition apply_start (f : filters) (filtered : list expense)
  : result (list expense) :=
  if nonempty (start_j f) then
    start_g ← jalali_to_gregorian (start_j f);
    mret (List.filter (date_ge (datetime.isoformat start_g)) filtered)
  else mret filtered.

Definition apply_end (f : filters) (filtered : list expense)
  : result (list expense) :=
  if nonempty (end_j f) then
    end_g ← jalali_to_gregorian (end_j f);
    mret (List.filter (date_le (datetime.isoformat end_g)) filtered)
  else mret filtered.

(** The [try: ... except Exception: st.warning(...)] block around both
    bounds.  Returns the value of [filtered] after the block and the
    exception reported by [st.warning], if any. *)
Definition date_filtering (f : filters) (filtered : list expense)
  : list expense * option exn :=
  match apply_start f filtered with
  | Raise e => (filtered, Some e)
  | Ok filtered1 =>
      match apply_end f filtered1 with
      | Raise e => (filtered1, Some e)
      | Ok filtered2 => (filtered2, None)
      end
  end.

(** [col.fillna("").str.contains(pat, case=False, na=False)] on one row,
    [found] being the search of the compiled pattern. *)
Definition str_contains (found : string -> bool) (field : option string) : bool :=
  found (default EmptyString field).

(** [if pat: filtered = filtered[...str.contains(pat, ...)]]; the pattern
    is compiled once per call, and [re.error] is not caught. *)
Definition contains_filter (pat : string) (col : expense -> option string)
    (filtered : list expense) : result (list expense) :=
  if nonempty pat then
    match re.compile_ignorecase pat with
    | Some found => Ok (List.filter (fun r => str_contains found (col r)) filtered)
    | None => Raise PatternError
    end
  else Ok filtered.

(** [filtered.sort_values("date_gregorian", ascending=False)].  pandas
    sets the rows with a null key aside, reverses the others, sorts them
    ascending with numpy's argsort of the default kind, reverses the
    outcome and puts the null-key rows last.  [argsort] stands for that
    numpy sort applied to the keyed rows. *)
Definition keyed (t : list expense) : list (string * expense) :=
  omap (fun r => (fun d => (d, r)) <$> date_gregorian r) t.

Definition null_dated (t : list expense) : list expense :=
  List.filter (fun r => negb (bool_decide (is_Some (date_gregorian r)))) t.

Definition sort_values_desc
    (argsort : list (string * expense) -> list (string * expense))
    (t : list expense) : list expense :=
  (rev (argsort (rev (keyed t)))).*2 ++ null_dated t.

(** The three filters, from [filtered = df.copy()] to the search filter. *)
Definition filter_rows (f : filters) (df : list expense)
  : result (list expense * option exn) :=
  let '(filtered, warned) := date_filtering f df in
  filtered ← contains_filter (card_filter f) card filtered;
  filtered ← contains_filter (search f) description filtered;
  Ok (filtered, warned).

(** [if not filtered.empty: filtered = filtered.sort_values(...)] *)
Definition sort_rows
    (argsort : list (string * expense) -> list (string * expense))
    (filtered : list expense) : list expense :=
  match filtered with
  | [] => filtered
  | _ => sort_values_desc argsort filtered
  end.

(** Everything between [filtered = df.copy()] and the KPIs: the table
    shown and the exception reported by [st.warning], if any. *)
Definition query
    (argsort : list (string * expense) -> list (string * expense))
    (f : filters) (df : list expense)
  : result (list expense * option exn) :=
  '(filtered, warned) ← filter_rows f df;
  Ok (sort_rows argsort filtered, warned).

(** [filtered["amount"].sum()] *)
Definition sum_amount (t : list expense) : Q :=
  foldr (fun r acc => (num_value (amount r) + acc)%Q) 0%Q t.

(** [total_spent] *)
Definition total_spent (filtered : list expense) : result Z :=
  py_int (Float (match filtered with [] => 0%Q | _ => sum_amount filtered end)).

Definition sentinel : string := "— مشخص نشده —".

(** The group key [filtered["card"].replace('', sentinel)] of a row. *)
Definition group_key (r : expense) : option string :=
  (fun c => if String.eqb c EmptyString then sentinel else c) <$> card r.

(** Add [v] to the group of [k] in a list of groups sorted by key. *)
Fixpoint group_add (k : string) (v : Q) (groups : list (string * Q))
  : list (string * Q) :=
  match groups with
  | [] => [(k, v)]
  | (k', v') :: rest =>
      if String.eqb k k' then (k', (v' + v)%Q) :: rest
      else if String.ltb k k' then (k, v) :: groups
      else (k', v') :: group_add k v rest
  end.

(** [filtered.groupby(key)["amount"].sum()]: [groupby] drops the rows whose
    key is null and lists the groups in key order. *)
Definition groupby_sum (t : list expense) : list (string * Q) :=
  foldl (fun groups r =>
           match group_key r with
           | Some k => group_add k (num_value (amount r)) groups
           | None => groups
           end) [] t.

(** [card_summary], computed under [if not filtered.empty:]. *)
Definition card_summary (filtered : list expense) : option (list (string * Q)) :=
  match filtered with
  | [] => None
  | _ => Some (groupby_sum filtered)
  end.

(** The sum of the per-card totals. *)
Definition sum_groups (groups : list (string * Q)) : Q :=
  foldr (fun g acc => (g.2 + acc)%Q) 0%Q groups.

(** ** Sorts that stand for numpy's argsort in the examples *)

(** Insertion into an ascending list, after the keys that are equal. *)
Fixpoint insert_after (x : string * expense) (l : list (string * expense))
  : list (string * expense) :=
  match l with
  | [] => [x]
  | y :: l' => if String.ltb x.1 y.1 then x :: l else y :: insert_after x l'
  end.

(** A stable ascending sort. *)
Definition stable_sort (l : list (string * expense)) : list (string * expense) :=
  foldl (fun acc x => insert_after x acc) [] l.

(** numpy's sort on the keyed rows, compared by key.  Where numpy leaves
    quicksort for heapsort, which is not written out here, the rows are
    left as they are. *)
Definition numpy_argsort (l : list (string * expense)) : list (string * expense) :=
  match l with
  | [] => []
  | x :: _ => default l (numpy.quicksort (fun a b => String.ltb a.1 b.1) x l)
  end.

(** ** Notions used in the statements, and example data *)

Definition empty_world : world := {| session_df := []; DATA_FILE := None |}.

(** The rows the import loop iterates over, in terms of the rows read. *)
Definition with_defaults (imp : pd.frame) (r : gmap string cell)
  : gmap string cell :=
  let r1 :=
    <["description" :=
        if pd.has_column imp "description" then pd.at_ r "description"
        else CStr ""]> r in
  <["card" :=
      if pd.has_column (default_column imp "description") "card"
      then pd.at_ r1 "card" else CStr ""]> r1.

(** A [float_repr] for tables without float cells, and a numbering of the
    drawn identifiers, for the examples below. *)
Definition no_float_repr : Q -> string := fun _ => EmptyString.
Definition numbered_uuid : nat -> string := fun n => str_of_Z (Z.of_nat n).

(** Two rows of a table that has no [amount] column. *)
Definition imp_missing_amount : pd.frame :=
  pd.mk_frame ["date_jalali"; "description"]
    [ {[ "date_jalali" := CStr "1403-05-25"; "description" := CStr "fruit" ]};
      {[ "date_jalali" := CStr "1403-05-26"; "description" := CStr "bread" ]} ].

(** The cell [read_data] delivers in column [c] for a row [r] of the file. *)
Definition loaded_cell (df : pd.frame) (r : gmap string cell) (c : string) : cell :=
  let from_file := if pd.has_column df c then pd.at_ r c else CNone in
  if bool_decide (c = "amount"%string)
  then CNum (fillna_0 (to_numeric from_file))
  else from_file.

(** What load makes of an amount cell of the file: a number stays as it
    is, a missing value becomes 0, a text becomes the number pandas reads
    from it, 0 when it reads none. *)
Definition loaded_amount (from_file : cell) (n : num) : Prop :=
  is_nan n = false /\
  match from_file with
  | CNum m => if is_nan m then (num_value n == 0)%Q else n = m
  | CNone => (num_value n == 0)%Q
  | CStr s =>
      n = fillna_0 (numeric_of_text s) /\
      (numeric_of_text s = NaN -> (num_value n == 0)%Q) /\
      (forall z, - 2 ^ 53 < z < 2 ^ 53 -> s = str_of_Z z ->
         (num_value n == inject_Z z)%Q)
  end.

(** [a] is [q] with its fraction cut off (rounding toward zero). *)
Definition truncates_to (q : Q) (a : Z) : Prop :=
  ((0 <= q)%Q -> (inject_Z a <= q)%Q /\ (q < inject_Z a + 1)%Q) /\
  ((q <= 0)%Q -> (inject_Z a - 1 < q)%Q /\ (q <= inject_Z a)%Q).

(** The amount invariant: a non-negative integer. *)
Definition nonneg_int_amount (r : expense) : Prop :=
  exists z, amount r = Int z /\ 0 <= z.

(** A one-row import whose amount is the text "abc". *)
Definition row_abc : gmap string cell :=
  {[ "date_jalali" := CStr "1403-05-25"; "amount" := CStr "abc" ]}.

Definition imp_abc : pd.frame := pd.mk_frame ["date_jalali"; "amount"] [row_abc].

(** A one-row import whose amount is the integer -5. *)
Definition imp_negative : pd.frame :=
  pd.mk_frame ["date_jalali"; "amount"]
    [ {[ "date_jalali" := CStr "1403-05-25"; "amount" := CNum (Int (-5)) ]} ].

(** A file whose amounts are -5 and 12.5. *)
Definition file_odd_amounts : pd.frame :=
  pd.mk_frame expected
    [ {[ "amount" := CNum (Int (-5)) ]}; {[ "amount" := CStr "12.5" ]} ].

(** From the spec: each bound is converted on its own; a bound that
    converts is applied, a bound that fails is ignored and flagged. *)
Definition bound_filter (test : string -> expense -> bool) (bound : string)
    (t : list expense) : list expense * bool :=
  if nonempty bound then
    match jalali_to_gregorian bound with
    | Ok g => (List.filter (test (datetime.isoformat g)) t, false)
    | Raise _ => (t, true)
    end
  else (t, false).

Definition date_filtering_spec (f : filters) (t : list expense)
  : list expense * bool :=
  let '(t1, failed1) := bound_filter date_ge (start_j f) t in
  let '(t2, failed2) := bound_filter date_le (end_j f) t1 in
  (t2, failed1 || failed2).

Definition bound_fails (bound : string) : Prop :=
  bound <> EmptyString /\ jdatetime.fromisoformat bound = None.

Definition bound_usable (bound : string) : Prop :=
  bound = EmptyString \/ exists j, jdatetime.fromisoformat bound = Some j.

(** A record dated after the end bound 1403-05-25 (2024-08-15). *)
Definition late_row : expense :=
  mk_expense (Some "b") (Some "1403-05-26") (Some "2024-08-16") (Int 20)
    (Some "bread") (Some "cash").

Definition bad_start_filters : filters :=
  mk_filters "1403-13-40" "1403-05-25" "" "".

Fixpoint literals (s : string) : list re.atom :=
  match s with
  | EmptyString => []
  | String c s' => re.Lit c :: literals s'
  end.



(** What the script can rely on from numpy's argsort of the default kind:
    the outcome is a rearrangement of the input with ascending keys. *)
Definition key_le (a b : string * expense) : Prop := String.leb a.1 b.1 = true.

Definition sorts_ascending
    (argsort : list (string * expense) -> list (string * expense)) : Prop :=
  forall l, Permutation (argsort l) l /\ Sorted key_le (argsort l).

(** Most recent first, null dates last. *)
Definition date_desc (a b : expense) : Prop :=
  match date_gregorian a, date_gregorian b with
  | Some x, Some y => String.leb y x = true
  | None, Some _ => False
  | _, None => True
  end.

(** From the spec: records with equal [date_gregorian] keep their
    original relative order. *)
Definition same_date (d : option string) (r : expense) : bool :=
  bool_decide (date_gregorian r = d).

Definition stable_wrt (original sorted : list expense) : Prop :=
  forall d, List.filter (same_date d) sorted = List.filter (same_date d) original.

Definition no_filters : filters := mk_filters "" "" "" "".

(** Twenty records of the same day, numbered in the order of entry. *)
Definition same_day_row (n : nat) : expense :=
  mk_expense (Some (numbered_uuid n)) (Some "1403-05-25") (Some "2024-08-15")
    (Int 10) (Some "fruit") (Some "cash").

Definition same_day_rows : list expense := same_day_row <$> seq 0 20.

(** Two records of the same day. *)
Definition row_a : expense :=
  mk_expense (Some "a") (Some "1403-05-25") (Some "2024-08-15") (Int 10)
    (Some "fruit") (Some "cash").
Definition row_b : expense :=
  mk_expense (Some "b") (Some "1403-05-25") (Some "2024-08-15") (Int 20)
    (Some "bread") (Some "cash").

Definition row_undated : expense :=
  mk_expense (Some "c") None None (Int 5) None None.

Definition mellat_filters : filters := mk_filters "" "" "MELL" "".

Definition row_mellat : expense :=
  mk_expense (Some "m") (Some "1403-05-25") (Some "2024-08-15") (Int 30)
    None (Some "Bank Mellat").

(** The total recorded for key [k] in a list of groups. *)
Definition group_total (k : string) (groups : list (string * Q)) : Q :=
  foldr (fun g acc => if String.eqb g.1 k then (g.2 + acc)%Q else acc) 0%Q groups.

Definition has_card (r : expense) : bool :=
  match card r with Some _ => true | None => false end.

Definition in_group (k : string) (r : expense) : bool :=
  match group_key r with Some k' => String.eqb k' k | None => false end.

(** A record loaded with an empty card cell: the card is null. *)
Definition row_null_card : expense :=
  mk_expense (Some "a") (Some "1403-05-25") (Some "2024-08-15") (Int 100)
    (Some "fruit") None.

Definition row_empty_card : expense :=
  mk_expense (Some "b") (Some "1403-05-25") (Some "2024-08-15") (Int 7)
    (Some "bread") (Some "").

(** The pieces of [JalaliToGregorian] and [GregorianToJalali]: day numbers
    of a date, and the date of a day number. *)
Definition g_days_before_year (gy : Z) : Z :=
  365 * gy + (gy + 3) / 4 - (gy + 99) / 100 + (gy + 399) / 400.

Definition g_leap (gy : Z) : bool :=
  ((gy mod 4 =? 0) && negb (gy mod 100 =? 0)) || (gy mod 400 =? 0).

(** Year and day of the year of day [r] of a 400-year cycle starting at
    year [gy]. *)
Definition g_year_day (gy r : Z) : bool * Z * Z :=
  let '(leap, gy, g_day_no) :=
    if 36525 <=? r then
      let g_day_no := r - 1 in
      let gy := gy + 100 * (g_day_no / 36524) in
      let g_day_no := g_day_no mod 36524 in
      if 365 <=? g_day_no then (true, gy, g_day_no + 1)
      else (false, gy, g_day_no)
    else (true, gy, r) in
  let gy := gy + 4 * (g_day_no / 1461) in
  let g_day_no := g_day_no mod 1461 in
  if 366 <=? g_day_no then
    let g_day_no := g_day_no - 1 in
    (false, gy + g_day_no / 365, g_day_no mod 365)
  else (leap, gy, g_day_no).

Definition j_days_before_year (jy : Z) : Z :=
  365 * jy + (jy / 33) * 8 + (jy mod 33 + 3) / 4.

(** Year and day of the year of Jalali day number [n]. *)
Definition j_year_day (n : Z) : Z * Z :=
  let j_np := n / 12053 in
  let j_day_no := n mod 12053 in
  let jy := 979 + 33 * j_np + 4 * (j_day_no / 1461) in
  let j_day_no := j_day_no mod 1461 in
  if 366 <=? j_day_no
  then (jy + (j_day_no - 1) / 365, (j_day_no - 1) mod 365)
  else (jy, j_day_no).

Fixpoint check_from (t : Z -> bool) (fuel : nat) (z : Z) : bool :=
  match fuel with
  | O => true
  | S k => t z && check_from t k (z + 1)
  end.

(** The month walk inverts the sum of the month lengths. *)
Definition g_walk_ok (leap : bool) (k : Z) : bool :=
  let '(i, rem) := jdatetime.g_month_walk leap jdatetime.G_DAYS_IN_MONTH 0 k in
  (0 <=? i) && (i <=? 11) && (0 <=? rem) &&
  (jdatetime.add_months jdatetime.G_DAYS_IN_MONTH i 0
   + (if (1 <? i) && leap then 1 else 0) + rem =? k).

Definition j_leap (jy : Z) : bool :=
  (jy mod 33 mod 4 =? 0) && negb (jy mod 33 =? 32).

(** The dates [jdatetime.date] accepts. *)
Definition j_day_ok (leap : bool) (m d : Z) : bool :=
  (1 <=? m) && (m <=? 12) && (1 <=? d) &&
  ((d <=? nth (Z.to_nat (m - 1)) jdatetime.J_DAYS_IN_MONTH 0)
   || ((m =? 12) && (d =? 30) && leap)).

(** For the date with index [p] in a grid of 12 months of 31 days: the
    day of the year is in range and the month walk recovers month and
    day. *)
Definition j_walk_ok (leap : bool) (p : Z) : bool :=
  let m := p / 31 + 1 in
  let d := p mod 31 + 1 in
  if j_day_ok leap m d then
    let k := jdatetime.add_months jdatetime.J_DAYS_IN_MONTH (m - 1) 0 + (d - 1) in
    let '(i, rem) :=
      jdatetime.j_month_walk (take 11 jdatetime.J_DAYS_IN_MONTH) 0 k in
    (0 <=? k) && (k <? 365 + (if leap then 1 else 0))
    && (i + 2 =? m) && (rem + 1 =? d)
  else true.

(** ** Further notions: what the import loop accepts and builds *)

(** A row the import loop can turn into a record: its date text converts
    and its amount reads as a number. *)
Definition importable (float_repr : Q -> string) (r : gmap string cell) : Prop :=
  is_Some (jdatetime.fromisoformat (py_str float_repr (pd.at_ r "date_jalali")))
  /\ to_numeric (pd.at_ r "amount") <> NaN.

(** The cell the import loop reads in the optional column [c] of a row. *)
Definition optional_cell (imp : pd.frame) (r : gmap string cell) (c : string)
  : cell :=
  if pd.has_column imp c then pd.at_ r c else CStr "".

(** ** kharge.py: the summary metrics *)

(** [filtered["date_gregorian"].nunique()]: null dates are not counted. *)
Definition day_count (filtered : list expense) : nat :=
  match filtered with
  | [] => 0%nat
  | _ => length (remove_dups (omap date_gregorian filtered))
  end.

(** [filtered["amount"].mean()]: the mean of the amounts that are not NaN,
    NaN when there is none. *)
Definition mean_amount (filtered : list expense) : num :=
  match List.filter (fun r => negb (is_nan (amount r))) filtered with
  | [] => NaN
  | vals => Float (sum_amount vals / inject_Z (Z.of_nat (length vals)))
  end.

(** [avg] *)
Definition avg (filtered : list expense) : result Z :=
  match filtered with
  | [] => Ok 0
  | _ => py_int (mean_amount filtered)
  end.

(** ** kharge.py: one run of the script

    Streamlit runs the script from top to bottom on every interaction.
    [df] is bound to the session table at the top of the run; the form
    handler, the filters, the metrics, the upload handler and the reset
    button follow in this order. *)

Record inputs : Type := mk_inputs {
  submitted : option form;      (* the fields of the form, when it was submitted *)
  add_uuid : string;            (* the identifier the form handler draws *)
  filter_inputs : filters;      (* the four filter boxes *)
  uploaded : option pd.frame;   (* the frame read from the file in the uploader *)
  import_uuid4 : nat -> string; (* the identifiers the upload handler draws *)
  reset_clicked : bool
}.

Inductive message : Type :=
| from_form (n : notice)
| date_filter_warning (e : exn)
| from_import (n : notice)
| reset_success.

(** How a run ends: at the last line, at [st.stop()], or at an exception
    no handler catches. *)
Inductive run_end : Type :=
| completed
| stopped
| aborted (e : exn).

Record run : Type := mk_run {
  final : world;
  messages : list message;
  shown : option (list expense);   (* the table handed to [st.dataframe] *)
  ending : run_end
}.

Definition halts (n : notice) : bool :=
  match n with
  | warning_missing_date | warning_nonpositive_amount => true
  | _ => false
  end.

(** The warning of the date filter, when it gave one. *)
Definition warning_of (warned : option exn) : list message :=
  match warned with Some e => [date_filter_warning e] | None => [] end.

(** One run. *)
Definition script_run (float_repr : Q -> string)
    (argsort : list (string * expense) -> list (string * expense))
    (inp : inputs) (w : world) : run :=
  let df := session_df w in
  let '(form_messages, w1, halted) :=
    match submitted inp with
    | None => ([], w, false)
    | Some f =>
        let '(n, w1) := add_expense (add_uuid inp) f w in
        ([from_form n], w1, halts n)
    end in
  if halted : bool then
    {| final := w1; messages := form_messages; shown := None;
       ending := stopped |}
  else
    let messages2 :=
      form_messages ++ warning_of (snd (date_filtering (filter_inputs inp) df)) in
    match query argsort (filter_inputs inp) df with
    | Raise e =>
        {| final := w1; messages := messages2; shown := None;
           ending := aborted e |}
    | Ok (filtered, _) =>
        match avg filtered with
        | Raise e =>
            {| final := w1; messages := messages2; shown := None;
               ending := aborted e |}
        | Ok _ =>
            let '(messages3, w2) :=
              match uploaded inp with
              | None => (messages2, w1)
              | Some imp =>
                  let '(n, w2) :=
                    import_csv float_repr (import_uuid4 inp) imp df w1 in
                  (messages2 ++ [from_import n], w2)
              end in
            let '(messages4, w3) :=
              if reset_clicked inp then (messages3 ++ [reset_success], reset w2)
              else (messages3, w2) in
            {| final := w3; messages := messages4; shown := Some filtered;
               ending := completed |}
        end
    end.

(** A session: the runs one after the other. *)
Fixpoint session (float_repr : Q -> string)
    (argsort : list (string * expense) -> list (string * expense))
    (inps : list inputs) (w : world) : world :=
  match inps with
  | [] => w
  | inp :: rest =>
      session float_repr argsort rest (final (script_run float_repr argsort inp w))
  end.

(** The file holds the session table. *)
Definition in_sync (w : world) : Prop := DATA_FILE w = Some (session_df w).

Definition idle : inputs :=
  mk_inputs None "" no_filters None numbered_uuid false.

(** The session table after the form handler and after the upload handler
    of a run. *)
Definition after_form (inp : inputs) (w : world) : world :=
  match submitted inp with
  | None => w
  | Some f => snd (add_expense (add_uuid inp) f w)
  end.

Definition after_upload (float_repr : Q -> string) (inp : inputs) (w : world)
  : world :=
  match uploaded inp with
  | None => after_form inp w
  | Some imp =>
      snd (import_csv float_repr (import_uuid4 inp) imp (session_df w)
             (after_form inp w))
  end.

(** [t] is [s] without its leading and trailing blanks. *)
Definition stripped_of (s t : string) : Prop :=
  (exists pre post,
      s = pre +:+ t +:+ post /\ all_space pre = true /\ all_space post = true) /\
  match t with String c _ => is_space c = false | EmptyString => True end /\
  (forall u c, t = u +:+ String c EmptyString -> is_space c = false).

Definition upload_only (imp : pd.frame) (uuid4 : nat -> string) : inputs :=
  mk_inputs None "" no_filters (Some imp) uuid4 false.

(** A file with one complete row and an extra column. *)
Definition file_extra_column : pd.frame :=
  pd.mk_frame ["amount"; "card"; "note"]
    [ {[ "amount" := CStr "abc"; "card" := CStr "cash"; "note" := CStr "x" ]} ].

(** Labels in strictly ascending order. *)
Definition label_lt (a b : string * Q) : Prop := String.ltb a.1 b.1 = true.

(** The sum of a list of integers. *)
Definition z_sum (zs : list Z) : Z := foldr Z.add 0 zs.

(** Integers whose sizes add up to less than 2^53: pandas computes their
    sums and their mean exactly, in int64 as in float64. *)
Definition small (zs : list Z) : Prop := z_sum (Z.abs <$> zs) < 2 ^ 53.

Definition small_integers (t : list expense) : Prop :=
  exists zs, amount <$> t = Int <$> zs /\ small zs.

(** Inputs of example runs. *)
Definition add_fruit : inputs :=
  mk_inputs (Some (mk_form "1403-05-26" (Int 20) "bread" "cash")) "b"
    no_filters None numbered_uuid false.

Definition add_while_uploading : inputs :=
  mk_inputs (Some (mk_form "1403-05-26" (Int 20) "bread" "cash")) "b"
    no_filters (Some imp_negative) numbered_uuid false.

(** ** Order of dates

    Comparison of (year, month, day) triples, the way Python compares
    tuples. *)
Definition lex_compare (a b : Z * Z * Z) : comparison :=
  let '(y1, m1, d1) := a in
  let '(y2, m2, d2) := b in
  match y1 ?= y2 with
  | Eq => match m1 ?= m2 with Eq => d1 ?= d2 | c => c end
  | c => c
  end.

(** Which of two Gregorian, and of two Jalali, dates comes first. *)
Definition g_compare (a b : datetime.date) : comparison :=
  lex_compare (datetime.year a, datetime.month a, datetime.day a)
              (datetime.year b, datetime.month b, datetime.day b).

Definition j_compare (a b : jdatetime.date) : comparison :=
  lex_compare (jdatetime.year a, jdatetime.month a, jdatetime.day a)
              (jdatetime.year b, jdatetime.month b, jdatetime.day b).

(** The leap years of [datetime.date]. *)
Definition is_leap (y : Z) : bool :=
  (y mod 4 =? 0) && (negb (y mod 100 =? 0) || (y mod 400 =? 0)).

(** The dates [datetime.date] accepts. *)
Definition g_date_ok (g : datetime.date) : bool :=
  let y := datetime.year g in
  let m := datetime.month g in
  let d := datetime.day g in
  (1 <=? y) && (y <=? 9999) && (1 <=? m) && (m <=? 12) && (1 <=? d) &&
  (d <=? nth (Z.to_nat (m - 1)) jdatetime.G_DAYS_IN_MONTH 0
         + (if (m =? 2) && is_leap y then 1 else 0)).

(** The day numbers the two conversions compute: [j_day_no] of
    [JalaliToGregorian], counted from 1 Farvardin 979, and [g_day_no] of
    [GregorianToJalali], counted from 1 January 1600. *)
Definition j_day_number (j : jdatetime.date) : Z :=
  j_days_before_year (jdatetime.year j - 979)
  + jdatetime.add_months jdatetime.J_DAYS_IN_MONTH (jdatetime.month j - 1) 0
  + (jdatetime.day j - 1).

Definition g_day_number (g : datetime.date) : Z :=
  let gy := datetime.year g - 1600 in
  let gm := datetime.month g - 1 in
  g_days_before_year gy
  + jdatetime.add_months jdatetime.G_DAYS_IN_MONTH gm 0
  + (if (1 <? gm) && g_leap gy then 1 else 0)
  + (datetime.day g - 1).

(** The month walk stops inside a month. *)
Definition g_walk_in_month (leap : bool) (k : Z) : bool :=
  let '(i, rem) := jdatetime.g_month_walk leap jdatetime.G_DAYS_IN_MONTH 0 k in
  (0 <=? i) && (i <=? 11) && (0 <=? rem) &&
  (rem <? nth (Z.to_nat i) jdatetime.G_DAYS_IN_MONTH 0
          + (if (i =? 1) && leap then 1 else 0)).

(** A date the constructor [jdatetime.date] accepts. *)
Definition j_valid (j : jdatetime.date) : Prop :=
  jdatetime.new_date (jdatetime.year j) (jdatetime.month j) (jdatetime.day j)
  = Some j.

(** [a] is not later than [b]. *)
Definition j_leb (a b : jdatetime.date) : bool :=
  match j_compare a b with Gt => false | _ => true end.

(** The Jalali date a row was entered with, when its text reads as one. *)
Definition jalali_date (r : expense) : option jdatetime.date :=
  date_jalali r ≫= jdatetime.fromisoformat.

(** The Gregorian text of a row is the conversion of its Jalali text;
    a row whose Jalali text does not read as a date has no Gregorian text. *)
Definition well_dated (r : expense) : Prop :=
  date_gregorian r
  = (fun j => datetime.isoformat (jdatetime.togregorian j)) <$> jalali_date r.

(** The Jalali date of a row lies between [js] and [je], both included. *)
Definition within (js je : jdatetime.date) (r : expense) : bool :=
  match jalali_date r with
  | Some j => j_leb js j && j_leb j je
  | None => false
  end.

(** * Theorems *)

(** ** Numbers and text *)


Lemma nonempty_true (s : string) : nonempty s = true <-> s <> EmptyString.
Proof. destruct s; simpl; split; congruence. Qed.

Lemma Zquot_pos_nonneg (a : Z) (p : positive) : 0 <= a -> 0 <= Z.quot a (Z.pos p).
Proof. intros Ha. apply Z.quot_pos; lia. Qed.

(** A number that is neither [<= 0] nor NaN truncates to a non-negative
    integer. *)
Lemma py_int_of_positive (n : num) :
  py_le_0 n = false -> n <> NaN -> exists a, py_int n = Ok a /\ 0 <= a.
Proof.
  destruct n as [z | q |]; simpl; intros Hle Hnan.
  - exists z. split; [reflexivity | lia].
  - eexists. split; [reflexivity |].
    apply Zquot_pos_nonneg.
    destruct (Z_lt_le_dec (Qnum q) 0) as [Hneg | Hpos]; [| exact Hpos].
    exfalso. assert (Hq : Qle_bool q 0 = true).
    { apply Qle_bool_iff. unfold Qle. simpl. lia. }
    congruence.
  - congruence.
Qed.

(** [ascii_strip] removes leading blanks ... *)
Lemma lstrip_head (s : string) :
  match lstrip s with
  | String c _ => is_space c = false
  | EmptyString => True
  end.
Proof.
  induction s as [| c s IH]; simpl; [exact I |].
  destruct (is_space c) eqn:Hc; [exact IH | exact Hc].
Qed.

Lemma append_cons (c : ascii) (a b : string) :
  String c a +:+ b = String c (a +:+ b).
Proof. reflexivity. Qed.

Lemma append_nil (b : string) : EmptyString +:+ b = b.
Proof. reflexivity. Qed.

Lemma lstrip_decompose (s : string) :
  exists pre, s = pre +:+ lstrip s /\ all_space pre = true.
Proof.
  induction s as [| c s (pre & Hs & Hpre)]; simpl.
  - exists EmptyString. split; reflexivity.
  - destruct (is_space c) eqn:Hc.
    + exists (String c pre). rewrite append_cons. simpl. rewrite Hc, Hpre.
      split; [f_equal; exact Hs | reflexivity].
    + exists EmptyString. split; reflexivity.
Qed.

Lemma rstrip_decompose (s : string) :
  exists post, s = rstrip s +:+ post /\ all_space post = true.
Proof.
  induction s as [| c s (post & Hs & Hpost)]; simpl.
  - exists EmptyString. split; reflexivity.
  - destruct (rstrip s) as [| c' t] eqn:Hr.
    + rewrite append_nil in Hs. destruct (is_space c) eqn:Hc.
      * exists (String c post). rewrite append_nil. simpl. rewrite Hc, Hpost.
        split; [f_equal; exact Hs | reflexivity].
      * exists post. rewrite append_cons, append_nil.
        split; [f_equal; exact Hs | exact Hpost].
    + exists post. split; [| exact Hpost].
      rewrite append_cons. f_equal. exact Hs.
Qed.

(** ... and trailing blanks, and nothing else. *)
Lemma rstrip_last (s : string) (t : string) (c : ascii) :
  rstrip s = t +:+ String c EmptyString -> is_space c = false.
Proof.
  revert t. induction s as [| a s IH]; intros t; simpl.
  - destruct t; discriminate.
  - destruct (rstrip s) as [| c' u] eqn:Hr.
    + destruct (is_space a) eqn:Ha.
      * destruct t; discriminate.
      * destruct t as [| x t]; [rewrite append_nil | rewrite append_cons];
          intros H; inversion H; subst; [exact Ha |].
        destruct t; discriminate.
    + destruct t as [| x t]; [rewrite append_nil | rewrite append_cons];
        intros H; inversion H as [[Hx Ht]].
      apply (IH t). exact Ht.
Qed.

Lemma rstrip_keeps_head (s : string) :
  match s with
  | String c _ => is_space c = false ->
      match rstrip s with String c' _ => c' = c | EmptyString => False end
  | EmptyString => True
  end.
Proof.
  destruct s as [| c s]; [exact I |]. simpl. intros Hc.
  destruct (rstrip s); [rewrite Hc |]; reflexivity.
Qed.

Lemma strip_spec (s : string) :
  (exists pre post,
      s = pre +:+ ascii_strip s +:+ post /\
      all_space pre = true /\
      all_space post = true) /\
  match ascii_strip s with String c _ => is_space c = false | EmptyString => True end /\
  (forall t c, ascii_strip s = t +:+ String c EmptyString -> is_space c = false).
Proof.
  unfold ascii_strip. split; [| split].
  - destruct (lstrip_decompose s) as (pre & Hs & Hpre).
    destruct (rstrip_decompose (lstrip s)) as (post & Hl & Hpost).
    exists pre, post. split; [| split]; [| exact Hpre | exact Hpost].
    rewrite <- Hl. exact Hs.
  - pose proof (lstrip_head s) as Hh. pose proof (rstrip_keeps_head (lstrip s)) as Hk.
    destruct (lstrip s) as [| c u]; [exact I |].
    specialize (Hk Hh). destruct (rstrip (String c u)); [contradiction |].
    subst. exact Hh.
  - intros t c. apply rstrip_last.
Qed.

(** ** CSV import *)

Lemma has_column_set_column (df : pd.frame) (c c' : string)
    (f : gmap string cell -> cell) :
  pd.has_column (pd.set_column df c f) c'
  = pd.has_column df c' || bool_decide (c' = c).
Proof.
  unfold pd.set_column, pd.has_column. simpl.
  destruct (bool_decide (c ∈ pd.columns df)) eqn:Hc.
  - apply bool_decide_eq_true in Hc.
    destruct (bool_decide (c' = c)) eqn:Hcc.
    + apply bool_decide_eq_true in Hcc. subst c'.
      rewrite orb_true_r. apply bool_decide_eq_true. exact Hc.
    + rewrite orb_false_r. reflexivity.
  - apply eq_true_iff_eq. rewrite orb_true_iff, !bool_decide_eq_true.
    rewrite elem_of_app, list_elem_of_singleton. reflexivity.
Qed.

Lemma rows_set_column (df : pd.frame) (c : string)
    (f : gmap string cell -> cell) :
  pd.rows (pd.set_column df c f) = (fun r => <[c := f r]> r) <$> pd.rows df.
Proof. reflexivity. Qed.

Lemma rows_default_columns (imp : pd.frame) :
  pd.rows (default_column (default_column imp "description") "card")
  = with_defaults imp <$> pd.rows imp.
Proof.
  unfold with_defaults.
  set (imp1 := default_column imp "description").
  assert (H1 : pd.rows imp1 =
    (fun r => <["description" :=
        if pd.has_column imp "description" then pd.at_ r "description"
        else CStr ""]> r) <$> pd.rows imp).
  { unfold imp1, default_column.
    destruct (pd.has_column imp "description"); apply rows_set_column. }
  unfold default_column at 1.
  destruct (pd.has_column imp1 "card"); rewrite rows_set_column, H1;
    rewrite <- list_fmap_compose; reflexivity.
Qed.

Lemma with_defaults_lookup (imp : pd.frame) (r : gmap string cell) (c : string) :
  c <> "description"%string -> c <> "card"%string ->
  with_defaults imp r !! c = r !! c.
Proof.
  intros Hd Hc. unfold with_defaults.
  rewrite lookup_insert_ne by congruence.
  rewrite lookup_insert_ne by congruence. reflexivity.
Qed.

(** A failing row makes the loop raise, whatever precedes or follows it. *)
Lemma build_records_raises (float_repr : Q -> string) (uuid4 : nat -> string)
    (rs : list (gmap string cell)) (n : nat) :
  Exists (fun r => forall u, is_ok (build_from_import_row float_repr u r) = false) rs ->
  exists e, build_records float_repr uuid4 n rs = Raise e.
Proof.
  intros Hex. revert n. induction Hex as [r rs Hr | r rs Hex IH]; intros n; simpl.
  - specialize (Hr (uuid4 n)).
    destruct (build_from_import_row float_repr (uuid4 n) r) as [rec | e];
      [discriminate | exists e; reflexivity].
  - destruct (build_from_import_row float_repr (uuid4 n) r) as [rec | e];
      [| exists e; reflexivity].
    destruct (IH (S n)) as (e & He). exists e. simpl. rewrite He. reflexivity.
Qed.

(** The loop yields one record per row when it does not raise. *)
Lemma build_records_length (float_repr : Q -> string) (uuid4 : nat -> string)
    (rs : list (gmap string cell)) (n : nat) (recs : list expense) :
  build_records float_repr uuid4 n rs = Ok recs -> length recs = length rs.
Proof.
  revert n recs. induction rs as [| r rs IH]; intros n recs; simpl.
  - intros [= <-]. reflexivity.
  - destruct (build_from_import_row float_repr (uuid4 n) r) as [rec | e];
      [| discriminate]. simpl.
    destruct (build_records float_repr uuid4 (S n) rs) as [recs' | e] eqn:Hrec;
      [| discriminate]. simpl.
    intros [= <-]. simpl. f_equal. eapply IH. exact Hrec.
Qed.

(** The handler either fails and leaves the world as it was, or succeeds,
    appends one record per imported row and writes the merged table. *)
Lemma import_csv_cases (float_repr : Q -> string) (uuid4 : nat -> string)
    (imp : pd.frame) (df : list expense) (w : world) :
  (exists e, import_records float_repr uuid4 imp = Raise e /\
             import_csv float_repr uuid4 imp df w = (error e, w)) \/
  (exists records,
      import_records float_repr uuid4 imp = Ok records /\
      length records = length (pd.rows imp) /\
      import_csv float_repr uuid4 imp df w
      = (success, {| session_df := df ++ records;
                     DATA_FILE := Some (df ++ records) |})).
Proof.
  unfold import_csv.
  destruct (import_records float_repr uuid4 imp) as [records | e] eqn:Himp.
  - right. exists records. split; [reflexivity | split; [| reflexivity]].
    unfold import_records in Himp.
    destruct (check_needed imp); [| discriminate]. simpl in Himp.
    apply build_records_length in Himp. rewrite Himp.
    rewrite rows_default_columns. apply length_fmap.
  - left. exists e. split; reflexivity.
Qed.

(** A row whose date text does not convert makes its iteration raise. *)
Lemma import_row_bad_date (float_repr : Q -> string) (imp : pd.frame)
    (r : gmap string cell) (u : string) :
  jdatetime.fromisoformat (py_str float_repr (pd.at_ r "date_jalali")) = None ->
  is_ok (build_from_import_row float_repr u (with_defaults imp r)) = false.
Proof.
  intros Hbad. unfold build_from_import_row, getitem.
  rewrite !with_defaults_lookup by discriminate.
  unfold pd.at_ in Hbad.
  destruct (r !! "date_jalali") as [dj |]; simpl; [| reflexivity].
  simpl in Hbad. unfold jalali_to_gregorian. rewrite Hbad. reflexivity.
Qed.

(** C1.  Import is all-or-nothing: when a required column ([date_jalali]
    or [amount]) is absent from the imported table, or the library reads
    no date from the date text of some row, the handler reports an error,
    the session table and the file are left exactly as they were, and a
    missing column is reported as such. *)
Theorem import_all_or_nothing (float_repr : Q -> string) (uuid4 : nat -> string)
    (imp : pd.frame) (df : list expense) (w : world) :
  (exists c, c ∈ needed /\ pd.has_column imp c = false) \/
  (exists r, r ∈ pd.rows imp /\
     jdatetime.fromisoformat (py_str float_repr (pd.at_ r "date_jalali")) = None) ->
  exists e,
    import_csv float_repr uuid4 imp df w = (error e, w) /\
    ((exists c, c ∈ needed /\ pd.has_column imp c = false) ->
       exists c, c ∈ needed /\ pd.has_column imp c = false /\ e = MissingColumn c).
Proof.
  intros Hbad. unfold import_csv, import_records, check_needed.
  destruct (List.find (fun c => negb (pd.has_column imp c)) needed) as [c |] eqn:Hfind.
  - exists (MissingColumn c). split; [reflexivity |]. intros _.
    apply find_some in Hfind as [Hin Hneg]. exists c.
    split; [apply list_elem_of_In; exact Hin |].
    split; [apply negb_true_iff; exact Hneg | reflexivity].
  - assert (Hall : forall c, c ∈ needed -> pd.has_column imp c = true).
    { intros c Hc. apply list_elem_of_In in Hc.
      pose proof (find_none _ _ Hfind c Hc) as Hn. simpl in Hn.
      apply negb_false_iff. exact Hn. }
    destruct Hbad as [(c & Hc & Hmiss) | (r & Hr & Hdate)].
    { rewrite (Hall c Hc) in Hmiss. discriminate. }
    simpl. rewrite rows_default_columns.
    destruct (build_records_raises float_repr uuid4
                (with_defaults imp <$> pd.rows imp) 0) as (e & He).
    { apply Exists_exists. exists (with_defaults imp r).
      split; [apply list_elem_of_fmap; eauto |].
      intros u. apply import_row_bad_date. exact Hdate. }
    exists e. rewrite He. split; [reflexivity |].
    intros (c & Hc & Hmiss). rewrite (Hall c Hc) in Hmiss. discriminate.
Qed.

(** ** Load normalization *)

Lemma at_insert (r : gmap string cell) (c c' : string) (v : cell) :
  pd.at_ (<[c := v]> r) c' = if bool_decide (c' = c) then v else pd.at_ r c'.
Proof.
  unfold pd.at_. case_bool_decide as Hc.
  - subst. rewrite lookup_insert_eq. reflexivity.
  - rewrite lookup_insert_ne by congruence. reflexivity.
Qed.

Lemma has_column_ensure_column (df : pd.frame) (col c : string) :
  pd.has_column (ensure_column df col) c
  = pd.has_column df c || bool_decide (c = col).
Proof.
  unfold ensure_column. destruct (pd.has_column df col) eqn:Hcol.
  - case_bool_decide as Hc; [subst; rewrite Hcol | rewrite orb_false_r]; reflexivity.
  - apply has_column_set_column.
Qed.

(** The loop adds exactly the missing expected columns, filled with None. *)
Lemma foldl_ensure_column (cols : list string) (df : pd.frame) :
  (forall c, pd.has_column (foldl ensure_column df cols) c
             = pd.has_column df c || bool_decide (c ∈ cols)) /\
  exists g, pd.rows (foldl ensure_column df cols) = g <$> pd.rows df /\
    forall r c, pd.at_ (g r) c =
      if bool_decide (c ∈ cols) && negb (pd.has_column df c) then CNone
      else pd.at_ r c.
Proof.
  revert df. induction cols as [| col cs IH]; intros df; cbn [foldl].
  - split.
    + intros c. rewrite bool_decide_eq_false_2 by apply not_elem_of_nil.
      rewrite orb_false_r. reflexivity.
    + exists (fun r => r). split; [symmetry; apply list_fmap_id |].
      intros r c. rewrite bool_decide_eq_false_2 by apply not_elem_of_nil.
      reflexivity.
  - destruct (IH (ensure_column df col)) as (Hcols & g & Hrows & Hg). split.
    + intros c. rewrite Hcols, has_column_ensure_column, <- orb_assoc. f_equal.
      apply eq_true_iff_eq. rewrite orb_true_iff, !bool_decide_eq_true.
      rewrite elem_of_cons. reflexivity.
    + set (h := fun r : gmap string cell =>
                  if pd.has_column df col then r else <[col := CNone]> r).
      exists (fun r => g (h r)). split.
      * rewrite Hrows. unfold ensure_column, h.
        destruct (pd.has_column df col).
        -- reflexivity.
        -- rewrite rows_set_column, <- list_fmap_compose. reflexivity.
      * intros r c. rewrite Hg, has_column_ensure_column.
        assert (Hh : pd.at_ (h r) c =
                     if bool_decide (c = col) && negb (pd.has_column df col)
                     then CNone else pd.at_ r c).
        { unfold h. destruct (pd.has_column df col) eqn:Hcol.
          - rewrite andb_false_r. reflexivity.
          - rewrite at_insert, andb_true_r. reflexivity. }
        rewrite Hh.
        destruct (decide (c = col)) as [-> | Hne].
        -- rewrite (bool_decide_eq_true_2 (col = col)) by reflexivity.
           rewrite (bool_decide_eq_true_2 (col ∈ col :: cs)) by apply list_elem_of_here.
           rewrite orb_true_r, andb_false_r. simpl. reflexivity.
        -- rewrite (bool_decide_eq_false_2 (c = col)) by exact Hne.
           rewrite orb_false_r. simpl.
           assert (Hin : bool_decide (c ∈ col :: cs) = bool_decide (c ∈ cs)).
           { apply bool_decide_ext. rewrite elem_of_cons. tauto. }
           rewrite Hin. reflexivity.
Qed.

Lemma lookup_list_to_map_fun (f : string -> cell) (l : list string) (c : string) :
  (list_to_map ((fun c => (c, f c)) <$> l) : gmap string cell) !! c
  = if bool_decide (c ∈ l) then Some (f c) else None.
Proof.
  induction l as [| x l IH].
  - rewrite fmap_nil, list_to_map_nil, lookup_empty.
    rewrite bool_decide_eq_false_2 by apply not_elem_of_nil. reflexivity.
  - rewrite fmap_cons, list_to_map_cons.
    destruct (decide (c = x)) as [-> | Hne].
    + rewrite lookup_insert_eq.
      rewrite bool_decide_eq_true_2 by apply list_elem_of_here. reflexivity.
    + rewrite lookup_insert_ne by congruence. rewrite IH.
      apply (f_equal (fun b : bool => if b then Some (f c) else None)).
      apply bool_decide_ext. rewrite elem_of_cons. tauto.
Qed.

Lemma amount_expected : "amount"%string ∈ expected.
Proof. unfold expected. do 3 apply list_elem_of_further. apply list_elem_of_here. Qed.

Lemma read_data_rows (df : pd.frame) :
  read_data (Some (Ok df))
  = Ok {| pd.columns := expected;
          pd.rows := (fun r => list_to_map ((fun c => (c, loaded_cell df r c)) <$> expected))
                       <$> pd.rows df |}.
Proof.
  unfold read_data, ensure_columns. unfold mbind, result_bind.
  destruct (foldl_ensure_column expected df) as (Hcols & g & Hrows & Hg).
  set (df1 := foldl ensure_column df expected) in *.
  set (f := fun r : gmap string cell =>
              CNum (fillna_0 (to_numeric (pd.at_ r "amount")))).
  unfold pd.select.
  assert (Hfind : List.find (fun c => negb (pd.has_column (pd.set_column df1 "amount" f) c))
                    expected = None).
  { destruct (List.find _ expected) as [c |] eqn:Hf; [| reflexivity].
    apply find_some in Hf as [Hin Hneg]. exfalso.
    rewrite has_column_set_column, Hcols in Hneg.
    rewrite (bool_decide_eq_true_2 (c ∈ expected)) in Hneg
      by (apply list_elem_of_In; exact Hin).
    rewrite orb_true_r in Hneg. discriminate. }
  rewrite Hfind. f_equal. f_equal.
  rewrite rows_set_column, Hrows, <- !list_fmap_compose.
  apply list_fmap_ext. intros _ r _. unfold compose. cbn beta. f_equal.
  apply list_fmap_ext. intros k c Hc. cbn beta. f_equal.
  apply list_elem_of_lookup_2 in Hc.
  rewrite at_insert. unfold loaded_cell, f.
  assert (Hat : forall c, c ∈ expected ->
            pd.at_ (g r) c = if pd.has_column df c then pd.at_ r c else CNone).
  { intros c' Hc'. rewrite Hg. rewrite (bool_decide_eq_true_2 _ Hc'). simpl.
    destruct (pd.has_column df c'); reflexivity. }
  case_bool_decide as Heq.
  - subst c. rewrite Hat by exact amount_expected. reflexivity.
  - apply Hat. exact Hc.
Qed.

(** [int] cuts the fraction off. *)
Lemma py_int_truncates (n : num) (a : Z) :
  py_int n = Ok a -> truncates_to (num_value n) a.
Proof.
  destruct n as [z | q |]; simpl; [| | discriminate]; intros [= <-].
  - unfold truncates_to, Qle, Qlt, inject_Z. simpl. split; intros _; split; lia.
  - destruct q as [num den]. unfold truncates_to, Qle, Qlt, inject_Z. simpl.
    pose proof (Z.quot_rem' num (Z.pos den)) as Hqr.
    set (a := Z.quot num (Z.pos den)) in *. set (r := Z.rem num (Z.pos den)) in *.
    split; intros Hs.
    + assert (0 <= r < Z.pos den) by (apply Z.rem_bound_pos; lia). split; nia.
    + assert (- Z.pos den < r <= 0).
      { destruct (Z.eq_dec num 0) as [-> | Hne];
          [unfold r; rewrite Z.rem_0_l; lia |].
        pose proof (Z.rem_bound_pos_neg num (Z.pos den)). unfold r. lia. }
      split; nia.
Qed.

Lemma loaded_amount_spec (c : cell) : loaded_amount c (fillna_0 (to_numeric c)).
Proof.
  unfold loaded_amount. split.
  { destruct (to_numeric c); reflexivity. }
  destruct c as [| m | s]; simpl.
  - reflexivity.
  - destruct m; simpl; reflexivity.
  - split; [reflexivity |]. split.
    + intros ->. reflexivity.
    + intros z Hz ->. destruct (numeric_of_decimal z Hz) as [Hnan Hval].
      destruct (numeric_of_text (str_of_Z z)); [exact Hval | exact Hval | discriminate].
Qed.

(** C10, amended.  Load normalization: when the file does not exist,
    [read_data] returns the empty table with the six fixed columns; when
    [pd.read_csv] cannot parse the file, its exception leaves [read_data]
    uncaught; otherwise [read_data] returns a table with exactly the six
    fixed columns in the fixed order and one row per row of the file, in
    which every column other than [amount] holds the file's value when
    the file has that column and None when it has not (columns of the
    file outside the fixed six are gone), and [amount] holds a number
    that is not NaN: a number of the file as it is, 0 for a missing
    value, and for a text the number pandas reads from it (the integer
    itself for the decimal text of an integer), 0 when it reads none. *)
Theorem read_data_normalizes (file : option (result pd.frame)) :
  match file with
  | None => read_data None = Ok {| pd.columns := expected; pd.rows := [] |}
  | Some (Raise e) => read_data (Some (Raise e)) = Raise e
  | Some (Ok df) =>
      exists out,
        read_data (Some (Ok df)) = Ok out /\
        pd.columns out = expected /\
        length (pd.rows out) = length (pd.rows df) /\
        forall (i : nat) (r : gmap string cell),
          pd.rows df !! i = Some r ->
          exists r',
            pd.rows out !! i = Some r' /\
            (forall c, is_Some (r' !! c) <-> c ∈ expected) /\
            (forall c, c ∈ expected -> c <> "amount"%string ->
               r' !! c = Some (if pd.has_column df c then pd.at_ r c else CNone)) /\
            exists n,
              r' !! "amount" = Some (CNum n) /\
              loaded_amount
                (if pd.has_column df "amount" then pd.at_ r "amount" else CNone) n
  end.
Proof.
  destruct file as [[df | e] |]; [| reflexivity | reflexivity].
  eexists. split; [apply read_data_rows |]. cbn [pd.columns pd.rows].
  split; [reflexivity |]. split; [apply length_fmap |].
  intros i r Hr. eexists. split.
  { rewrite list_lookup_fmap, Hr. reflexivity. }
  split; [| split].
  - intros c. rewrite lookup_list_to_map_fun. case_bool_decide as Hc.
    + split; [intros _; exact Hc | intros _; eexists; reflexivity].
    + split; [intros [x Hx]; discriminate | intros Hc'; contradiction].
  - intros c Hc Hne. rewrite lookup_list_to_map_fun.
    rewrite (bool_decide_eq_true_2 _ Hc). unfold loaded_cell.
    rewrite (bool_decide_eq_false_2 _ Hne). reflexivity.
  - eexists. split.
    + rewrite lookup_list_to_map_fun.
      rewrite bool_decide_eq_true_2 by exact amount_expected.
      unfold loaded_cell.
      rewrite (bool_decide_eq_true_2 ("amount"%string = "amount"%string)) by reflexivity.
      reflexivity.
    + apply loaded_amount_spec.
Qed.

(** ** Amounts *)

(** [x or 0] changes nothing that [int] can see. *)
Lemma py_int_or_0 (n : num) : py_int (py_or_0 n) = py_int n.
Proof.
  unfold py_or_0. destruct n as [z | q |]; simpl; try reflexivity.
  - destruct (z =? 0) eqn:Hz; simpl; [| reflexivity].
    apply Z.eqb_eq in Hz. subst. reflexivity.
  - destruct (Qeq_bool q 0) eqn:Hq; simpl; [| reflexivity].
    apply Qeq_bool_iff in Hq. unfold Qeq in Hq. simpl in Hq.
    assert (Hn : Qnum q = 0) by lia. rewrite Hn. reflexivity.
Qed.

(** The amount of an imported record is [int] of the numeric reading of
    the row's amount cell. *)
Lemma import_row_amount (float_repr : Q -> string) (u : string)
    (r : gmap string cell) (rec : expense) :
  build_from_import_row float_repr u r = Ok rec ->
  exists a, py_int (to_numeric (pd.at_ r "amount")) = Ok a /\ amount rec = Int a.
Proof.
  unfold build_from_import_row, getitem, pd.at_.
  destruct (r !! "date_jalali") as [dj |]; simpl; [| discriminate].
  destruct (jalali_to_gregorian (py_str float_repr dj)) as [g | e]; simpl;
    [| discriminate].
  destruct (r !! "amount") as [am |]; simpl; [| discriminate].
  rewrite py_int_or_0.
  destruct (py_int (to_numeric am)) as [a | e]; simpl; [| discriminate].
  intros [= <-]. exists a. split; reflexivity.
Qed.

Lemma build_records_Forall2 (float_repr : Q -> string) (uuid4 : nat -> string)
    (P : gmap string cell -> expense -> Prop) (rs : list (gmap string cell)) :
  (forall u r rec, build_from_import_row float_repr u r = Ok rec -> P r rec) ->
  forall n recs, build_records float_repr uuid4 n rs = Ok recs -> Forall2 P rs recs.
Proof.
  intros HP. induction rs as [| r rs IH]; intros n recs; simpl.
  - intros [= <-]. constructor.
  - destruct (build_from_import_row float_repr (uuid4 n) r) as [rec | e] eqn:Hrow;
      [| discriminate]. simpl.
    destruct (build_records float_repr uuid4 (S n) rs) as [recs' | e] eqn:Hrec;
      [| discriminate]. simpl.
    intros [= <-]. constructor; [eapply HP; exact Hrow | eapply IH; exact Hrec].
Qed.

(** C3 (the code does otherwise).  For an imported row whose [amount]
    value is not numeric, [pd.to_numeric(..., errors="coerce")] yields NaN,
    [NaN or 0] is NaN because NaN is truthy, and [int(NaN)] raises: record
    construction fails instead of using 0, and the import that contains
    the row is rejected with the world unchanged. *)
Theorem import_non_numeric_amount_fails (float_repr : Q -> string)
    (uuid4 : nat -> string) (imp : pd.frame) (df : list expense) (w : world)
    (r : gmap string cell) :
  r ∈ pd.rows imp ->
  to_numeric (pd.at_ r "amount") = NaN ->
  (forall u, is_ok (build_from_import_row float_repr u r) = false) /\
  exists e, import_csv float_repr uuid4 imp df w = (error e, w).
Proof.
  intros Hr Hnan.
  assert (Hrow : forall imp' u,
            is_ok (build_from_import_row float_repr u (with_defaults imp' r)) = false).
  { intros imp' u.
    destruct (build_from_import_row float_repr u (with_defaults imp' r))
      as [rec | e] eqn:Hb; [| reflexivity].
    apply import_row_amount in Hb as (a & Ha & _).
    unfold pd.at_ in Ha. rewrite with_defaults_lookup in Ha by discriminate.
    fold (pd.at_ r "amount") in Ha. rewrite Hnan in Ha. discriminate. }
  split.
  - intros u.
    destruct (build_from_import_row float_repr u r) as [rec | e] eqn:Hb;
      [| reflexivity].
    apply import_row_amount in Hb as (a & Ha & _). rewrite Hnan in Ha. discriminate.
  - destruct (import_csv_cases float_repr uuid4 imp df w)
      as [(e & _ & Hrun) | (records & Himp & _)]; [exists e; exact Hrun |].
    exfalso. unfold import_records in Himp.
    destruct (check_needed imp); [| discriminate]. simpl in Himp.
    rewrite rows_default_columns in Himp.
    destruct (build_records_raises float_repr uuid4
                (with_defaults imp <$> pd.rows imp) 0) as (e & He).
    { apply Exists_exists. exists (with_defaults imp r).
      split; [apply list_elem_of_fmap; eauto | apply Hrow]. }
    congruence.
Qed.

(** C4, amended.  What each operation does to amounts.
    - Manual add rejects an amount that is [<= 0].  It either leaves the
      world unchanged or appends exactly one record, whose amount is the
      typed amount with its fraction cut off, a non-negative integer; so
      it preserves the invariant.
    - Import either leaves the world unchanged or appends one record per
      row, each with an integer amount: the numeric reading of the row's
      amount with its fraction cut off, sign kept.
    - Load gives every row an amount that is not NaN: a number of the
      file stays as it is (negative and fractional ones too), a missing
      value becomes 0, a text becomes the number pandas reads from it, 0
      when it reads none.
    - Reset empties the table. *)
Theorem amount_by_operation :
  (forall uuid f w,
     (py_le_0 (in_amount f) = true ->
      snd (add_expense uuid f w) = w /\ fst (add_expense uuid f w) <> success) /\
     ((snd (add_expense uuid f w) = w /\ fst (add_expense uuid f w) <> success) \/
      (exists row a,
         add_expense uuid f w
         = (success, {| session_df := session_df w ++ [row];
                        DATA_FILE := Some (session_df w ++ [row]) |}) /\
         amount row = Int a /\ 0 <= a /\
         truncates_to (num_value (in_amount f)) a /\
         (Forall nonneg_int_amount (session_df w) ->
          Forall nonneg_int_amount (session_df w ++ [row]))))) /\
  (forall float_repr uuid4 imp df w,
     (exists e, import_csv float_repr uuid4 imp df w = (error e, w)) \/
     (exists records,
        import_csv float_repr uuid4 imp df w
        = (success, {| session_df := df ++ records;
                       DATA_FILE := Some (df ++ records) |}) /\
        Forall2 (fun r rec =>
                   exists a, py_int (to_numeric (pd.at_ r "amount")) = Ok a /\
                             amount rec = Int a /\
                             truncates_to (num_value (to_numeric (pd.at_ r "amount"))) a)
                (pd.rows imp) records)) /\
  (forall df, exists out,
     read_data (Some (Ok df)) = Ok out /\
     Forall2 (fun r r' =>
                exists n, r' !! "amount" = Some (CNum n) /\
                  loaded_amount
                    (if pd.has_column df "amount" then pd.at_ r "amount" else CNone) n)
             (pd.rows df) (pd.rows out)) /\
  (forall w, session_df (reset w) = [] /\ DATA_FILE (reset w) = Some []).
Proof.
  split; [| split; [| split]].
  - intros uuid f w. split.
    { intros Hle. unfold add_expense, new_row. rewrite Hle.
      destruct (negb (nonempty (in_date_jalali f))); simpl;
        (split; [reflexivity | discriminate]). }
    unfold add_expense.
    destruct (new_row uuid f) as [stopped | [row | e]] eqn:Hnew.
    + left. split; [reflexivity |]. simpl.
      unfold new_row in Hnew.
      destruct (negb (nonempty (in_date_jalali f))); [injection Hnew as <-; discriminate |].
      destruct (py_le_0 (in_amount f)); [injection Hnew as <-; discriminate | discriminate].
    + right.
      assert (Hrow : exists a, amount row = Int a /\ 0 <= a /\
                               truncates_to (num_value (in_amount f)) a).
      { unfold new_row in Hnew.
        destruct (negb (nonempty (in_date_jalali f))); [discriminate |].
        destruct (py_le_0 (in_amount f)) eqn:Hle; [discriminate |].
        injection Hnew as Hnew.
        destruct (jalali_to_gregorian (in_date_jalali f)) as [g | e]; simpl in Hnew;
          [| discriminate].
        destruct (py_int (in_amount f)) as [k | e'] eqn:Hint; simpl in Hnew;
          [| discriminate].
        injection Hnew as <-. exists k. split; [reflexivity |].
        split; [| apply py_int_truncates; exact Hint].
        destruct (py_int_of_positive (in_amount f) Hle) as (k' & Hk' & Hpos).
        { intros Hn. rewrite Hn in Hint. discriminate. }
        congruence. }
      destruct Hrow as (a & Ha & Hpos & Htr).
      exists row, a. split; [reflexivity |].
      split; [exact Ha |]. split; [exact Hpos |]. split; [exact Htr |].
      intros Hall. apply Forall_app. split; [exact Hall |].
      constructor; [exists a; split; assumption | constructor].
    + left. split; [reflexivity | discriminate].
  - intros float_repr uuid4 imp df w.
    destruct (import_csv_cases float_repr uuid4 imp df w)
      as [(e & _ & Hrun) | (records & Himp & _ & Hrun)].
    + left. exists e. exact Hrun.
    + right. exists records. split; [exact Hrun |].
      unfold import_records in Himp.
      destruct (check_needed imp); [| discriminate]. simpl in Himp.
      rewrite rows_default_columns in Himp.
      eapply (build_records_Forall2 float_repr uuid4
                (fun r' rec => exists a,
                     py_int (to_numeric (pd.at_ r' "amount")) = Ok a /\
                     amount rec = Int a)) in Himp.
      * apply Forall2_fmap_l in Himp.
        eapply Forall2_impl; [exact Himp |].
        intros r rec (k & Ha & Hrec).
        unfold pd.at_ in Ha. rewrite with_defaults_lookup in Ha by discriminate.
        exists k. split; [exact Ha |]. split; [exact Hrec |].
        apply py_int_truncates. exact Ha.
      * intros u r rec. apply import_row_amount.
  - intros df. eexists. split; [apply read_data_rows |]. cbn [pd.rows].
    apply Forall2_fmap_r, Forall_Forall2_diag, Forall_forall.
    intros r _. eexists. split.
    + rewrite lookup_list_to_map_fun.
      rewrite bool_decide_eq_true_2 by exact amount_expected.
      unfold loaded_cell.
      rewrite (bool_decide_eq_true_2 ("amount"%string = "amount"%string)) by reflexivity.
      reflexivity.
    + apply loaded_amount_spec.
  - intros w. split; reflexivity.
Qed.

(** ** Date-range filtering *)

Lemma bound_cases (bound : string) : bound_fails bound \/ bound_usable bound.
Proof.
  unfold bound_fails, bound_usable.
  destruct bound as [| c s]; [right; left; reflexivity |].
  destruct (jdatetime.fromisoformat (String c s)) as [j |] eqn:Hj.
  - right. right. exists j. reflexivity.
  - left. split; [discriminate | reflexivity].
Qed.

Lemma date_filtering_start_usable (f : filters) (df : list expense) :
  bound_usable (start_j f) ->
  fst (date_filtering f df) = fst (date_filtering_spec f df) /\
  (snd (date_filtering f df) = Some InvalidDateFormat <-> bound_fails (end_j f)) /\
  (snd (date_filtering f df) = None <-> bound_usable (end_j f)).
Proof.
  intros Hstart.
  unfold date_filtering, date_filtering_spec, apply_start, apply_end,
    bound_filter, jalali_to_gregorian.
  assert (Hs : exists t1,
    (if nonempty (start_j f)
     then match jdatetime.fromisoformat (start_j f) with
          | Some jdate => Ok (jdatetime.togregorian jdate)
          | None => Raise InvalidDateFormat
          end ≫= (fun start_g =>
            mret (List.filter (date_ge (datetime.isoformat start_g)) df))
     else mret df) = Ok t1 /\
    (if nonempty (start_j f)
     then match match jdatetime.fromisoformat (start_j f) with
                | Some jdate => Ok (jdatetime.togregorian jdate)
                | None => Raise InvalidDateFormat
                end with
          | Ok g => (List.filter (date_ge (datetime.isoformat g)) df, false)
          | Raise _ => (df, true)
          end
     else (df, false)) = (t1, false)).
  { destruct Hstart as [-> | (j & Hj)].
    - exists df. split; reflexivity.
    - rewrite Hj. destruct (nonempty (start_j f)); eexists; split; reflexivity. }
  destruct Hs as (t1 & -> & ->). unfold bound_fails, bound_usable.
  destruct (end_j f) as [| c s] eqn:He.
  - simpl. split; [reflexivity |]. split; split; try discriminate.
    + intros [H _]. congruence.
    + intros _. left. reflexivity.
    + intros _. reflexivity.
  - cbn [nonempty].
    destruct (jdatetime.fromisoformat (String c s)) as [j |] eqn:Hj; simpl.
    + split; [reflexivity |]. split; split; try discriminate.
      * intros [_ H]. discriminate.
      * intros _. right. exists j. reflexivity.
      * intros _. reflexivity.
    + split; [reflexivity |]. split; split; try discriminate.
      * intros _. split; [discriminate | reflexivity].
      * intros _. reflexivity.
      * intros [H | (j & H)]; discriminate.
Qed.

(** C7, amended.  Date filtering never fails hard: whatever the bounds,
    [query] goes on with the card and text filters and the sort.  When
    the start bound is empty or converts, each bound is treated on its
    own: a bound that converts is applied, an end bound that fails is
    ignored and a warning is signalled.  When the start bound fails to
    convert, a warning is signalled and neither date bound is applied,
    even if the end bound is valid. *)
Theorem date_filtering_soft_failure
    (argsort : list (string * expense) -> list (string * expense))
    (f : filters) (df : list expense) :
  (query argsort f df =
     filtered ← (contains_filter (card_filter f) card (fst (date_filtering f df))
                   ≫= contains_filter (search f) description);
     Ok (sort_rows argsort filtered, snd (date_filtering f df))) /\
  (bound_usable (start_j f) ->
     fst (date_filtering f df) = fst (date_filtering_spec f df) /\
     (snd (date_filtering f df) = Some InvalidDateFormat <-> bound_fails (end_j f)) /\
     (snd (date_filtering f df) = None <-> bound_usable (end_j f))) /\
  (bound_fails (start_j f) ->
     date_filtering f df = (df, Some InvalidDateFormat)).
Proof.
  split; [| split].
  - unfold query, filter_rows.
    destruct (date_filtering f df) as [filtered warned]. simpl.
    destruct (contains_filter (card_filter f) card filtered) as [t1 | e]; simpl;
      [| reflexivity].
    destruct (contains_filter (search f) description t1); reflexivity.
  - apply date_filtering_start_usable.
  - intros [Hne Hbad]. unfold date_filtering, apply_start, jalali_to_gregorian.
    apply nonempty_true in Hne. rewrite Hne, Hbad. reflexivity.
Qed.

(** ** Card and text filters *)

Lemma compile_plain (pat : string) :
  re.plain pat = true -> re.compile pat = Some (literals pat).
Proof.
  induction pat as [| c pat IH]; simpl; [reflexivity |].
  intros H. apply andb_true_iff in H as [Hc Hp].
  apply negb_true_iff in Hc.
  assert (Hdot : Ascii.eqb c "." = false).
  { destruct (Ascii.eqb c ".") eqn:Hd; [| reflexivity].
    apply Ascii.eqb_eq in Hd. subst c. discriminate. }
  rewrite Hdot, Hc, (IH Hp). reflexivity.
Qed.

Lemma match_here_literals (p s : string) :
  re.match_here (literals p) s = true <-> exists post, lower s = lower p +:+ post.
Proof.
  revert s. induction p as [| c p IH]; intros s; simpl.
  - split; [intros _; exists (lower s); reflexivity | reflexivity].
  - destruct s as [| d s]; simpl.
    + split; [discriminate | intros (post & H); discriminate].
    + rewrite andb_true_iff, IH, Ascii.eqb_eq. split.
      * intros (Hc & post & Hs). exists post.
        rewrite append_cons, Hc, Hs. reflexivity.
      * intros (post & H). rewrite append_cons in H. injection H as Hc Hs.
        split; [symmetry; exact Hc | exists post; exact Hs].
Qed.

Lemma search_literals (p s : string) :
  re.search (literals p) s = true <-> icontains p s.
Proof.
  unfold icontains. induction s as [| d s IH].
  - cbn [re.search]. rewrite orb_false_r, match_here_literals. split.
    + intros (post & H). exists EmptyString, post. exact H.
    + intros (pre & post & H). destruct pre as [| x pre]; [exists post; exact H |].
      rewrite append_cons in H. discriminate.
  - cbn [re.search]. rewrite orb_true_iff, match_here_literals, IH. split.
    + intros [(post & H) | (pre & post & H)].
      * exists EmptyString, post. exact H.
      * exists (String (lower_char d) pre), post. simpl. rewrite append_cons, H.
        reflexivity.
    + intros (pre & post & H). destruct pre as [| x pre].
      * left. exists post. exact H.
      * right. simpl in H. rewrite append_cons in H. injection H as _ H.
        exists pre, post. exact H.
Qed.


(** ** Sorting *)

Lemma keyed_cons (r : expense) (t : list expense) :
  keyed (r :: t) =
  match date_gregorian r with
  | Some d => (d, r) :: keyed t
  | None => keyed t
  end.
Proof. unfold keyed. simpl. destruct (date_gregorian r); reflexivity. Qed.

Lemma null_dated_cons (r : expense) (t : list expense) :
  null_dated (r :: t) =
  match date_gregorian r with
  | Some _ => null_dated t
  | None => r :: null_dated t
  end.
Proof. unfold null_dated. simpl. destruct (date_gregorian r); reflexivity. Qed.

Lemma keyed_null_dated_perm (t : list expense) :
  Permutation ((keyed t).*2 ++ null_dated t) t.
Proof.
  induction t as [| r t IH]; [reflexivity |].
  rewrite keyed_cons, null_dated_cons.
  destruct (date_gregorian r).
  - simpl. constructor. exact IH.
  - rewrite <- Permutation_middle. constructor. exact IH.
Qed.

Lemma keyed_date (t : list expense) :
  Forall (fun kr => date_gregorian kr.2 = Some kr.1) (keyed t).
Proof.
  induction t as [| r t IH]; [constructor |].
  rewrite keyed_cons. destruct (date_gregorian r) eqn:Hd; [| exact IH].
  constructor; [exact Hd | exact IH].
Qed.

Lemma null_dated_date (t : list expense) :
  Forall (fun r => date_gregorian r = None) (null_dated t).
Proof.
  induction t as [| r t IH]; [constructor |].
  rewrite null_dated_cons. destruct (date_gregorian r) eqn:Hd; [exact IH |].
  constructor; [exact Hd | exact IH].
Qed.

Lemma Sorted_snoc {A : Type} (R : A -> A -> Prop) (l : list A) (x : A) :
  Sorted R l -> (forall y, last l = Some y -> R y x) -> Sorted R (l ++ [x]).
Proof.
  induction l as [| a l IH]; intros Hs Hlast; simpl.
  - repeat constructor.
  - apply Sorted_inv in Hs as [Hs Hhd]. constructor.
    + apply IH; [exact Hs |]. intros y Hy. apply Hlast.
      destruct l; [discriminate | exact Hy].
    + destruct l as [| b l]; simpl.
      * constructor. apply Hlast. reflexivity.
      * constructor. apply HdRel_inv in Hhd. exact Hhd.
Qed.

Lemma Sorted_rev {A : Type} (R : A -> A -> Prop) (l : list A) :
  Sorted R l -> Sorted (flip R) (rev l).
Proof.
  induction l as [| a l IH]; intros Hs; simpl; [constructor |].
  apply Sorted_inv in Hs as [Hs Hhd]. apply Sorted_snoc; [apply IH; exact Hs |].
  intros y Hy. unfold flip.
  destruct l as [| b l]; [discriminate |].
  apply HdRel_inv in Hhd.
  rewrite last_Some in Hy. destruct Hy as (l' & Hl').
  assert (Hb : y = b).
  { apply (f_equal (@rev A)) in Hl'. rewrite rev_involutive, rev_app_distr in Hl'.
    simpl in Hl'. congruence. }
  subst y. exact Hhd.
Qed.

Lemma Sorted_fmap {A B : Type} (R : A -> A -> Prop) (R' : B -> B -> Prop)
    (f : A -> B) (l : list A) :
  (forall a b, a ∈ l -> b ∈ l -> R a b -> R' (f a) (f b)) ->
  Sorted R l -> Sorted R' (f <$> l).
Proof.
  induction l as [| a l IH]; intros HR Hs; simpl; [constructor |].
  apply Sorted_inv in Hs as [Hs Hhd]. constructor.
  - apply IH; [| exact Hs]. intros x y Hx Hy. apply HR; apply list_elem_of_further; assumption.
  - destruct l as [| b l]; simpl; constructor.
    apply HdRel_inv in Hhd. apply HR; [apply list_elem_of_here | | exact Hhd].
    apply list_elem_of_further, list_elem_of_here.
Qed.

Lemma Sorted_date_desc_nulls (l1 l2 : list expense) :
  Sorted date_desc l1 ->
  Forall (fun r => date_gregorian r = None) l2 ->
  Sorted date_desc (l1 ++ l2).
Proof.
  intros Hs Hnull. induction l1 as [| a l1 IH]; simpl.
  - induction Hnull as [| r l2 Hr Hnull IHn]; [constructor |].
    constructor; [exact IHn |].
    destruct Hnull as [| r' l2' Hr' _]; constructor.
    unfold date_desc. rewrite Hr'. destruct (date_gregorian r); exact I.
  - apply Sorted_inv in Hs as [Hs Hhd]. constructor; [apply IH; exact Hs |].
    destruct l1 as [| b l1]; simpl.
    + destruct Hnull as [| r' l2' Hr' _]; constructor.
      unfold date_desc. rewrite Hr'. destruct (date_gregorian a); exact I.
    + constructor. apply HdRel_inv in Hhd. exact Hhd.
Qed.

Lemma sort_values_desc_perm
    (argsort : list (string * expense) -> list (string * expense))
    (t : list expense) :
  (forall l, Permutation (argsort l) l) ->
  Permutation (sort_values_desc argsort t) t.
Proof.
  intros Hperm. unfold sort_values_desc.
  rewrite <- (keyed_null_dated_perm t) at 3.
  apply Permutation_app_tail. apply fmap_Permutation.
  rewrite <- Permutation_rev, Hperm, <- Permutation_rev. reflexivity.
Qed.

Lemma sort_values_desc_sorted
    (argsort : list (string * expense) -> list (string * expense))
    (t : list expense) :
  sorts_ascending argsort -> Sorted date_desc (sort_values_desc argsort t).
Proof.
  intros Hsort. unfold sort_values_desc.
  destruct (Hsort (rev (keyed t))) as [Hperm Hsorted].
  apply Sorted_date_desc_nulls; [| apply null_dated_date].
  apply (Sorted_fmap (flip key_le)); [| apply Sorted_rev; exact Hsorted].
  assert (Hdate : forall kr, kr ∈ rev (argsort (rev (keyed t))) ->
                    date_gregorian kr.2 = Some kr.1).
  { intros kr Hkr. rewrite <- Permutation_rev, Hperm, <- Permutation_rev in Hkr.
    pose proof (keyed_date t) as Hall. rewrite Forall_forall in Hall.
    apply Hall. exact Hkr. }
  intros a b Ha Hb Hab. unfold date_desc, flip, key_le in *.
  rewrite (Hdate a Ha), (Hdate b Hb). exact Hab.
Qed.

Lemma sort_rows_perm
    (argsort : list (string * expense) -> list (string * expense))
    (t : list expense) :
  (forall l, Permutation (argsort l) l) -> Permutation (sort_rows argsort t) t.
Proof.
  intros Hperm. unfold sort_rows. destruct t; [reflexivity |].
  apply sort_values_desc_perm. exact Hperm.
Qed.

(** Insertion sorts meet the contract. *)
Lemma leb_of_ltb (x y : string) : String.ltb x y = true -> String.leb x y = true.
Proof.
  unfold String.ltb, String.leb. destruct (String.compare x y); congruence.
Qed.

Lemma leb_of_not_ltb (x y : string) : String.ltb x y = false -> String.leb y x = true.
Proof.
  unfold String.ltb, String.leb. rewrite (String.compare_antisym y x).
  destruct (String.compare x y); simpl; congruence.
Qed.

Lemma insert_after_perm (x : string * expense) (l : list (string * expense)) :
  Permutation (insert_after x l) (x :: l).
Proof.
  induction l as [| y l IH]; simpl; [reflexivity |].
  destruct (String.ltb x.1 y.1); [reflexivity |].
  rewrite IH. apply perm_swap.
Qed.

Lemma insert_after_sorted (x : string * expense) (l : list (string * expense)) :
  Sorted key_le l -> Sorted key_le (insert_after x l).
Proof.
  induction l as [| y l IH]; intros Hs; simpl; [repeat constructor |].
  destruct (String.ltb x.1 y.1) eqn:Hxy.
  - constructor; [exact Hs |]. constructor. apply leb_of_ltb. exact Hxy.
  - apply Sorted_inv in Hs as [Hs Hhd]. constructor; [apply IH; exact Hs |].
    destruct l as [| z l]; simpl.
    + constructor. apply leb_of_not_ltb. exact Hxy.
    + destruct (String.ltb x.1 z.1); constructor.
      * apply leb_of_not_ltb. exact Hxy.
      * apply HdRel_inv in Hhd. exact Hhd.
Qed.

Lemma foldl_insert_sorts
    (ins : string * expense -> list (string * expense) -> list (string * expense)) :
  (forall x l, Permutation (ins x l) (x :: l)) ->
  (forall x l, Sorted key_le l -> Sorted key_le (ins x l)) ->
  forall l acc, Sorted key_le acc ->
    Permutation (foldl (fun acc x => ins x acc) acc l) (acc ++ l) /\
    Sorted key_le (foldl (fun acc x => ins x acc) acc l).
Proof.
  intros Hperm Hsorted. induction l as [| x l IH]; intros acc Hacc; simpl.
  - rewrite app_nil_r. split; [reflexivity | exact Hacc].
  - destruct (IH (ins x acc) (Hsorted x acc Hacc)) as [Hp Hs]. split; [| exact Hs].
    rewrite Hp, Hperm. simpl. apply Permutation_middle.
Qed.

Lemma stable_sort_sorts : sorts_ascending stable_sort.
Proof.
  intros l. unfold stable_sort.
  apply (foldl_insert_sorts insert_after insert_after_perm insert_after_sorted l []).
  constructor.
Qed.

(** C6, amended.  The sorting step turns every table into a rearrangement
    of it sorted by [date_gregorian] descending, most recent first, the
    rows with a null date last; so every query that completes shows the
    filtered rows in that order.  The order among records of equal date
    is the one the library's default sort produces; the script does not
    ask for a stable sort. *)
Theorem query_sorted_by_date
    (argsort : list (string * expense) -> list (string * expense))
    (f : filters) (df : list expense) :
  sorts_ascending argsort ->
  (forall filtered,
     Sorted date_desc (sort_rows argsort filtered) /\
     Permutation (sort_rows argsort filtered) filtered) /\
  (forall res warned,
     query argsort f df = Ok (res, warned) ->
     Sorted date_desc res /\
     exists filtered,
       filter_rows f df = Ok (filtered, warned) /\ Permutation res filtered).
Proof.
  intros Hsort.
  assert (Hrows : forall filtered,
            Sorted date_desc (sort_rows argsort filtered) /\
            Permutation (sort_rows argsort filtered) filtered).
  { intros filtered. split.
    - unfold sort_rows. destruct filtered; [constructor |].
      apply sort_values_desc_sorted. exact Hsort.
    - apply sort_rows_perm. intros l. apply Hsort. }
  split; [exact Hrows |].
  intros res warned Hq. unfold query in Hq.
  destruct (filter_rows f df) as [[filtered w] | e]; [| discriminate].
  simpl in Hq. injection Hq as <- <-.
  split; [apply Hrows |]. exists filtered. split; [reflexivity | apply Hrows].
Qed.


(** ** Per-card totals *)

Lemma sum_groups_group_add (k : string) (v : Q) (groups : list (string * Q)) :
  (sum_groups (group_add k v groups) == sum_groups groups + v)%Q.
Proof.
  induction groups as [| [k' v'] rest IH]; simpl.
  - ring.
  - destruct (String.eqb k k'); simpl; [ring |].
    destruct (String.ltb k k'); simpl; [ring |].
    rewrite IH. ring.
Qed.

Lemma group_total_group_add (q k : string) (v : Q) (groups : list (string * Q)) :
  (group_total q (group_add k v groups)
   == group_total q groups + (if String.eqb k q then v else 0))%Q.
Proof.
  induction groups as [| [k' v'] rest IH]; simpl.
  - destruct (String.eqb k q); ring.
  - destruct (String.eqb k k') eqn:Hkk; simpl.
    + apply String.eqb_eq in Hkk. subst k'.
      destruct (String.eqb k q); ring.
    + destruct (String.ltb k k'); simpl.
      * destruct (String.eqb k q), (String.eqb k' q); ring.
      * destruct (String.eqb k' q); rewrite IH; ring.
Qed.

Lemma sum_amount_cons (r : expense) (t : list expense) :
  sum_amount (r :: t) = (num_value (amount r) + sum_amount t)%Q.
Proof. reflexivity. Qed.

(** The per-card totals add up to the total of the rows whose card is not
    null, and the total of each label is the total of the rows with that
    label, the empty card counted under the sentinel. *)
Lemma groupby_sum_totals (t : list expense) (acc : list (string * Q)) :
  let step := fun groups r =>
    match group_key r with
    | Some k => group_add k (num_value (amount r)) groups
    | None => groups
    end in
  (sum_groups (foldl step acc t)
   == sum_groups acc + sum_amount (List.filter has_card t))%Q /\
  forall k,
    (group_total k (foldl step acc t)
     == group_total k acc + sum_amount (List.filter (in_group k) t))%Q.
Proof.
  intros step. revert acc. induction t as [| r t IH]; intros acc.
  - simpl. split; [| intros k]; ring.
  - cbn [foldl]. destruct (IH (step acc r)) as [Hsum Htot]. split.
    + rewrite Hsum. unfold step, group_key, has_card. cbn [List.filter].
      destruct (card r) as [c |]; simpl.
      * rewrite sum_groups_group_add. fold has_card. ring.
      * fold has_card. ring.
    + intros k. rewrite Htot. unfold step, in_group. cbn [List.filter].
      destruct (group_key r) as [k' |]; simpl.
      * rewrite group_total_group_add. fold (in_group k).
        destruct (String.eqb k' k); [rewrite sum_amount_cons |]; ring.
      * fold (in_group k). ring.
Qed.

Lemma card_summary_totals (filtered : list expense) :
  (sum_groups (groupby_sum filtered)
   == sum_amount (List.filter has_card filtered))%Q /\
  forall k,
    (group_total k (groupby_sum filtered)
     == sum_amount (List.filter (in_group k) filtered))%Q.
Proof.
  destruct (groupby_sum_totals filtered []) as [Hsum Htot]. split.
  - unfold groupby_sum. rewrite Hsum. simpl. ring.
  - intros k. unfold groupby_sum. rewrite Htot. simpl. ring.
Qed.

(** When no card is null, the per-card totals add up to the total. *)
Lemma card_summary_total_without_nulls (filtered : list expense) :
  Forall (fun r => has_card r = true) filtered ->
  (sum_groups (groupby_sum filtered) == sum_amount filtered)%Q.
Proof.
  intros Hall. destruct (card_summary_totals filtered) as [Hsum _].
  rewrite Hsum. clear Hsum.
  induction Hall as [| r t Hr Hall IH]; [reflexivity |].
  cbn [List.filter]. rewrite Hr, !sum_amount_cons, IH. reflexivity.
Qed.

(** C2 (the code does otherwise).  A record whose card is the empty
    string is counted under the sentinel label, but a record whose card
    is null is dropped by [groupby]: it is in no bucket, and the per-card
    totals (7) do not add up to the total of the filtered result (107). *)
Theorem card_summary_drops_null_card :
  card_summary [row_null_card; row_empty_card] = Some [(sentinel, 7%Q)] /\
  (sum_amount [row_null_card; row_empty_card] == 107)%Q /\
  ~ (sum_groups [(sentinel, 7%Q)]
     == sum_amount [row_null_card; row_empty_card])%Q.
Proof.
  split; [vm_compute; reflexivity |].
  split; [vm_compute; reflexivity |].
  vm_compute. discriminate.
Qed.

(** ** Calendar conversion *)

Lemma check_from_spec (t : Z -> bool) (fuel : nat) (z : Z) :
  check_from t fuel z = true ->
  forall x, z <= x < z + Z.of_nat fuel -> t x = true.
Proof.
  revert z. induction fuel as [| k IH]; intros z H x Hx; [lia |].
  cbn [check_from] in H. apply andb_true_iff in H as [Hz Hrest].
  destruct (Z.eq_dec x z) as [-> | Hne]; [exact Hz |].
  apply (IH (z + 1) Hrest). lia.
Qed.

Lemma add_months_acc (months : list Z) (n acc : Z) :
  jdatetime.add_months months n acc = acc + jdatetime.add_months months n 0.
Proof.
  unfold jdatetime.add_months. generalize (take (Z.to_nat n) months). intros l.
  revert acc. induction l as [| x l IH]; intros acc; simpl; [lia |].
  rewrite (IH (acc + x)), (IH (0 + x)). lia.
Qed.

Lemma JalaliToGregorian_unfold (y m d : Z) :
  jdatetime.JalaliToGregorian y m d =
  let n := j_days_before_year (y - 979)
           + jdatetime.add_months jdatetime.J_DAYS_IN_MONTH (m - 1) 0
           + (d - 1) + 79 in
  let '(leap, gy, k) := g_year_day (1600 + 400 * (n / 146097)) (n mod 146097) in
  let '(i, rem) := jdatetime.g_month_walk leap jdatetime.G_DAYS_IN_MONTH 0 k in
  (gy, i + 1, rem + 1).
Proof.
  unfold jdatetime.JalaliToGregorian, g_year_day, j_days_before_year. cbv zeta.
  rewrite add_months_acc.
  set (n := _ + 79).
  destruct (36525 <=? n mod 146097);
    [destruct (365 <=? (n mod 146097 - 1) mod 36524) |];
    match goal with |- context [366 <=? ?x] => destruct (366 <=? x) end;
    reflexivity.
Qed.

Lemma GregorianToJalali_unfold (gyear gmonth gday : Z) :
  jdatetime.GregorianToJalali gyear gmonth gday =
  let gm := gmonth - 1 in
  let n := g_days_before_year (gyear - 1600)
           + jdatetime.add_months jdatetime.G_DAYS_IN_MONTH gm 0
           + (if (1 <? gm) && g_leap (gyear - 1600) then 1 else 0)
           + (gday - 1) in
  let '(jy, k) := j_year_day (n - 79) in
  let '(i, rem) :=
    jdatetime.j_month_walk (take 11 jdatetime.J_DAYS_IN_MONTH) 0 k in
  (jy, i + 2, rem + 1).
Proof.
  unfold jdatetime.GregorianToJalali, j_year_day, g_days_before_year, g_leap.
  cbv zeta. rewrite add_months_acc.
  set (gm := gmonth - 1). set (gy := gyear - 1600).
  set (c := (1 <? gm) && _).
  assert (Hn : (if c
                then 365 * gy + (gy + 3) / 4 - (gy + 99) / 100 + (gy + 399) / 400
                     + jdatetime.add_months jdatetime.G_DAYS_IN_MONTH gm 0 + 1
                else 365 * gy + (gy + 3) / 4 - (gy + 99) / 100 + (gy + 399) / 400
                     + jdatetime.add_months jdatetime.G_DAYS_IN_MONTH gm 0)
               + (gday - 1) - 79
               = 365 * gy + (gy + 3) / 4 - (gy + 99) / 100 + (gy + 399) / 400
                 + jdatetime.add_months jdatetime.G_DAYS_IN_MONTH gm 0
                 + (if c then 1 else 0) + (gday - 1) - 79).
  { destruct c; lia. }
  rewrite Hn. set (n := _ - 79).
  destruct (366 <=? (n mod 12053) mod 1461); reflexivity.
Qed.

(** The day number of a Gregorian year and day decomposes as the
    conversion computes it. *)
Lemma g_year_day_spec (q r : Z) :
  0 <= r < 146097 ->
  let '(leap, gy, k) := g_year_day (1600 + 400 * q) r in
  0 <= k /\ k < 365 + (if leap then 1 else 0) /\ leap = g_leap (gy - 1600) /\
  g_days_before_year (gy - 1600) + k = 146097 * q + r.
Proof.
  intros Hr. unfold g_year_day.
  destruct (36525 <=? r) eqn:H1; [destruct (365 <=? (r - 1) mod 36524) eqn:H2 |];
    cbv zeta;
    match goal with |- context [366 <=? ?x] => destruct (366 <=? x) eqn:H3 end;
    unfold g_leap, g_days_before_year;
    repeat match goal with
      | H : (_ <=? _) = true |- _ => apply Z.leb_le in H
      | H : (_ <=? _) = false |- _ => apply Z.leb_gt in H
      end;
    repeat split; try (Z.div_mod_to_equations; lia);
    repeat match goal with
      | |- context [?a =? ?b] => destruct (Z.eqb_spec a b)
      end; simpl; try reflexivity;
    exfalso; Z.div_mod_to_equations; lia.
Qed.

Lemma g_month_walk_spec (leap : bool) (k : Z) :
  0 <= k < 365 + (if leap then 1 else 0) -> g_walk_ok leap k = true.
Proof.
  intros Hk.
  assert (H : check_from (g_walk_ok leap) (if leap then 366 else 365) 0 = true).
  { destruct leap; vm_compute; reflexivity. }
  apply (check_from_spec _ _ _ H). destruct leap; simpl; lia.
Qed.

(** Converting a day number to a Gregorian date and back gives the day
    number. *)
Lemma g_days_of_date (n : Z) :
  let '(leap, gy, k) := g_year_day (1600 + 400 * (n / 146097)) (n mod 146097) in
  let '(i, rem) := jdatetime.g_month_walk leap jdatetime.G_DAYS_IN_MONTH 0 k in
  g_days_before_year (gy - 1600)
  + jdatetime.add_months jdatetime.G_DAYS_IN_MONTH i 0
  + (if (1 <? i) && g_leap (gy - 1600) then 1 else 0) + rem = n.
Proof.
  pose proof (g_year_day_spec (n / 146097) (n mod 146097)) as Hy.
  destruct (g_year_day _ _) as [[leap gy] k].
  destruct Hy as (Hk0 & Hk1 & Hleap & Hsum); [apply Z.mod_pos_bound; lia |].
  pose proof (g_month_walk_spec leap k (conj Hk0 Hk1)) as Hw.
  unfold g_walk_ok in Hw.
  destruct (jdatetime.g_month_walk _ _ _ _) as [i rem].
  rewrite !andb_true_iff in Hw. destruct Hw as (_ & Hw). apply Z.eqb_eq in Hw.
  rewrite <- Hleap.
  pose proof (Z.div_mod n 146097). lia.
Qed.

Lemma isleap_j_leap (jy : Z) : jdatetime.isleap (979 + jy) = j_leap jy.
Proof.
  assert (Hc : check_from
            (fun r => Bool.eqb (jdatetime.isleap (979 + r)) (j_leap r)) 33 0 = true)
    by (vm_compute; reflexivity).
  pose proof (check_from_spec _ _ _ Hc (jy mod 33)) as H.
  assert (Hr : 0 <= jy mod 33 < 33) by (apply Z.mod_pos_bound; lia).
  specialize (H ltac:(simpl; lia)). apply Bool.eqb_prop in H.
  unfold jdatetime.isleap, j_leap in *.
  rewrite Z.mod_mod in H by lia. rewrite <- H.
  rewrite Zplus_mod_idemp_r. reflexivity.
Qed.

Lemma j_year_day_spec (jy k : Z) :
  0 <= k < 365 + (if j_leap jy then 1 else 0) ->
  j_year_day (j_days_before_year jy + k) = (979 + jy, k).
Proof.
  unfold j_leap, j_year_day, j_days_before_year. cbv zeta. intros Hk.
  repeat match type of Hk with
    | context [?a =? ?b] => destruct (Z.eqb_spec a b)
    end; simpl in Hk;
  match goal with |- context [366 <=? ?x] => destruct (Z.leb_spec 366 x) end;
  f_equal; Z.div_mod_to_equations; lia.
Qed.

Lemma new_date_Some (y m d : Z) (j : jdatetime.date) :
  jdatetime.new_date y m d = Some j ->
  j = jdatetime.mk_date y m d /\ 1 <= y <= 9377 /\
  j_day_ok (jdatetime.isleap y) m d = true.
Proof.
  unfold jdatetime.new_date, j_day_ok, jdatetime.MINYEAR, jdatetime.MAXYEAR.
  set (len := nth (Z.to_nat (m - 1)) jdatetime.J_DAYS_IN_MONTH 0).
  destruct (Z.ltb_spec y 1); [discriminate |].
  destruct (Z.ltb_spec 9377 y); [discriminate |]. cbn [orb].
  destruct (Z.ltb_spec m 1); [discriminate |].
  destruct (Z.ltb_spec 12 m); [discriminate |]. cbn [orb].
  destruct (Z.ltb_spec d 1); [discriminate |].
  destruct (Z.leb_spec 1 m); [| lia]. destruct (Z.leb_spec m 12); [| lia].
  destruct (Z.leb_spec 1 d); [| lia]. cbn [andb].
  destruct ((m =? 12) && (d =? 30)) eqn:H30; cbn [andb].
  - destruct (jdatetime.isleap y); [| discriminate].
    intros [= <-]. rewrite orb_true_r. repeat split; lia.
  - destruct (Z.ltb_spec len d); [discriminate |].
    intros [= <-]. rewrite orb_false_r.
    repeat split; try lia; try (apply Z.leb_le; lia).
Qed.

Lemma new_date_ok (y m d : Z) :
  1 <= y <= 9377 -> j_day_ok (jdatetime.isleap y) m d = true ->
  jdatetime.new_date y m d = Some (jdatetime.mk_date y m d).
Proof.
  unfold jdatetime.new_date, j_day_ok, jdatetime.MINYEAR, jdatetime.MAXYEAR.
  set (len := nth (Z.to_nat (m - 1)) jdatetime.J_DAYS_IN_MONTH 0).
  intros Hy H. rewrite !andb_true_iff in H. destruct H as (((Hm & Hm') & Hd) & H).
  apply Z.leb_le in Hm, Hm', Hd.
  destruct (Z.ltb_spec y 1); [lia |]. destruct (Z.ltb_spec 9377 y); [lia |].
  cbn [orb].
  destruct (Z.ltb_spec m 1); [lia |]. destruct (Z.ltb_spec 12 m); [lia |].
  cbn [orb].
  destruct (Z.ltb_spec d 1); [lia |].
  destruct ((m =? 12) && (d =? 30)) eqn:H30; cbn [andb] in *.
  - destruct (jdatetime.isleap y); [reflexivity |].
    rewrite orb_false_r in H. apply Z.leb_le in H.
    apply andb_true_iff in H30 as [H12 H30].
    apply Z.eqb_eq in H12, H30. subst m d. vm_compute in H. contradiction.
  - rewrite orb_false_r in H. apply Z.leb_le in H.
    destruct (Z.ltb_spec len d); [lia | reflexivity].
Qed.

Lemma j_month_walk_spec (leap : bool) (m d : Z) :
  j_day_ok leap m d = true ->
  let k := jdatetime.add_months jdatetime.J_DAYS_IN_MONTH (m - 1) 0 + (d - 1) in
  0 <= k < 365 + (if leap then 1 else 0) /\
  exists i rem,
    jdatetime.j_month_walk (take 11 jdatetime.J_DAYS_IN_MONTH) 0 k = (i, rem) /\
    i + 2 = m /\ rem + 1 = d.
Proof.
  intros Hok. cbv zeta.
  assert (Hrange : 1 <= m <= 12 /\ 1 <= d <= 31).
  { unfold j_day_ok in Hok. rewrite !andb_true_iff in Hok.
    destruct Hok as (((Hm & Hm') & Hd) & H).
    apply Z.leb_le in Hm, Hm', Hd. split; [lia |]. split; [lia |].
    apply orb_true_iff in H as [H | H].
    - apply Z.leb_le in H.
      assert (Hn : nth (Z.to_nat (m - 1)) jdatetime.J_DAYS_IN_MONTH 0 <= 31).
      { assert (Hc : check_from
                  (fun x => nth (Z.to_nat x) jdatetime.J_DAYS_IN_MONTH 0 <=? 31)
                  12 0 = true) by (vm_compute; reflexivity).
        apply Z.leb_le. apply (check_from_spec _ _ _ Hc). simpl. lia. }
      lia.
    - rewrite !andb_true_iff in H. destruct H as ((_ & H) & _).
      apply Z.eqb_eq in H. lia. }
  assert (Hall : check_from (j_walk_ok leap) 372 0 = true).
  { destruct leap; vm_compute; reflexivity. }
  pose proof (check_from_spec _ _ _ Hall ((m - 1) * 31 + (d - 1))) as Hp.
  unfold j_walk_ok in Hp. cbv zeta in Hp.
  assert (Hm : ((m - 1) * 31 + (d - 1)) / 31 + 1 = m)
    by (Z.div_mod_to_equations; lia).
  assert (Hd : ((m - 1) * 31 + (d - 1)) mod 31 + 1 = d)
    by (Z.div_mod_to_equations; lia).
  rewrite Hm, Hd, Hok in Hp.
  destruct (jdatetime.j_month_walk _ _ _) as [i rem].
  specialize (Hp ltac:(simpl; lia)).
  rewrite !andb_true_iff in Hp. destruct Hp as (((Hk0 & Hk1) & Hi) & Hrem).
  apply Z.leb_le in Hk0. apply Z.ltb_lt in Hk1. apply Z.eqb_eq in Hi, Hrem.
  split; [lia |]. exists i, rem. repeat split; assumption.
Qed.

(** The date-level round trip: every date [jdatetime.date] accepts is
    recovered exactly from its Gregorian conversion. *)
Lemma fromgregorian_togregorian (y m d : Z) (j : jdatetime.date) :
  jdatetime.new_date y m d = Some j ->
  jdatetime.fromgregorian (jdatetime.togregorian j) = Some j.
Proof.
  intros Hnew. pose proof Hnew as Hj.
  apply new_date_Some in Hj as (-> & Hy & Hok).
  unfold jdatetime.togregorian, jdatetime.fromgregorian. cbn [jdatetime.year
    jdatetime.month jdatetime.day].
  rewrite JalaliToGregorian_unfold. cbv zeta.
  set (n := j_days_before_year (y - 979)
            + jdatetime.add_months jdatetime.J_DAYS_IN_MONTH (m - 1) 0
            + (d - 1) + 79).
  pose proof (g_days_of_date n) as Hn.
  destruct (g_year_day _ _) as [[leap gy] k].
  destruct (jdatetime.g_month_walk _ _ _ _) as [i rem].
  cbn [datetime.year datetime.month datetime.day].
  rewrite GregorianToJalali_unfold. cbv zeta.
  replace (i + 1 - 1) with i by lia. replace (rem + 1 - 1) with rem by lia.
  rewrite Hn. clear Hn.
  replace (jdatetime.isleap y) with (j_leap (y - 979)) in Hok
    by (rewrite <- isleap_j_leap; f_equal; lia).
  destruct (j_month_walk_spec _ m d Hok) as (Hk & i' & rem' & Hwalk & Hi & Hrem).
  replace (n - 79) with
    (j_days_before_year (y - 979)
     + (jdatetime.add_months jdatetime.J_DAYS_IN_MONTH (m - 1) 0 + (d - 1)))
    by (unfold n; lia).
  rewrite (j_year_day_spec _ _ Hk), Hwalk.
  replace (979 + (y - 979)) with y by lia. rewrite Hi, Hrem. exact Hnew.
Qed.

(** *** The text of a date *)

Lemma is_digit_range (c : ascii) :
  is_digit c = true -> 0 <= digit_val c <= 9.
Proof.
  unfold is_digit, digit_val. intros H. apply andb_true_iff in H as [H1 H2].
  apply N.leb_le in H1, H2. lia.
Qed.

Lemma digit_char_of (x : Z) (c : ascii) :
  is_digit c = true -> x mod 10 = digit_val c -> digit_char x = c.
Proof.
  intros Hc Hx. pose proof (is_digit_range c Hc) as Hr.
  unfold digit_char. rewrite Hx. unfold digit_val in *.
  replace (48 + (Z.of_N (N_of_ascii c) - 48)) with (Z.of_N (N_of_ascii c)) by lia.
  rewrite N2Z.id. apply ascii_N_embedding.
Qed.

Lemma int_of_digits_cons (acc : Z) (c : ascii) (s : string) (y : Z) :
  int_of_digits acc (String c s) = Some y ->
  is_digit c = true /\ int_of_digits (10 * acc + digit_val c) s = Some y.
Proof.
  simpl. destruct (is_digit c); [intros H; split; [reflexivity | exact H] |].
  discriminate.
Qed.

Lemma parse_uint_2 (a b : ascii) (y : Z) :
  parse_uint (String a (String b EmptyString)) = Some y ->
  fmt2 y = String a (String b EmptyString).
Proof.
  unfold parse_uint. intros H.
  apply int_of_digits_cons in H as [Ha H].
  apply int_of_digits_cons in H as [Hb H].
  simpl in H. injection H as <-.
  pose proof (is_digit_range a Ha). pose proof (is_digit_range b Hb).
  unfold fmt2. f_equal; [| f_equal].
  - apply digit_char_of; [exact Ha |]. Z.div_mod_to_equations; lia.
  - apply digit_char_of; [exact Hb |]. Z.div_mod_to_equations; lia.
Qed.

Lemma parse_uint_4 (a b c d : ascii) (y : Z) :
  parse_uint (String a (String b (String c (String d EmptyString)))) = Some y ->
  fmt4 y = String a (String b (String c (String d EmptyString))) /\
  (1000 <= y <-> a <> "0"%char).
Proof.
  unfold parse_uint. intros H.
  apply int_of_digits_cons in H as [Ha H].
  apply int_of_digits_cons in H as [Hb H].
  apply int_of_digits_cons in H as [Hc H].
  apply int_of_digits_cons in H as [Hd H].
  simpl in H. injection H as <-.
  pose proof (is_digit_range a Ha) as Ra. pose proof (is_digit_range b Hb) as Rb.
  pose proof (is_digit_range c Hc) as Rc. pose proof (is_digit_range d Hd) as Rd.
  split.
  - unfold fmt4. repeat f_equal; apply digit_char_of; try assumption;
      Z.div_mod_to_equations; lia.
  - assert (Hz : digit_val a = 0 <-> a = "0"%char).
    { split.
      - intros Hv. rewrite <- (digit_char_of 0 a Ha); [reflexivity |].
        rewrite Hv. reflexivity.
      - intros ->. reflexivity. }
    split.
    + intros Hy Ha0. apply Hz in Ha0. lia.
    + intros Ha0. destruct (Z.eq_dec (digit_val a) 0) as [Hv | Hv];
        [apply Hz in Hv; contradiction | lia].
Qed.

(** Formatting a parsed date with a four-digit year gives back the text. *)
Lemma strftime_fromisoformat (year_text : Z -> string) (s : string)
    (j : jdatetime.date) :
  jdatetime.fromisoformat_extended s = Some j ->
  year_text (jdatetime.year j) = fmt4 (jdatetime.year j) ->
  jdatetime.strftime_Ymd year_text j = s.
Proof.
  unfold jdatetime.fromisoformat_extended.
  destruct s as [|c0 [|c1 [|c2 [|c3 [|c4 [|c5 [|c6 [|c7 [|c8 [|c9 [|c10 s]]]]]]]]]]];
    try discriminate.
  cbn [String.length Nat.eqb String.substring String.get].
  destruct (parse_uint (String c0 (String c1 (String c2 (String c3 EmptyString)))))
    as [y |] eqn:Hy; [| discriminate].
  destruct (parse_uint (String c5 (String c6 EmptyString))) as [m |] eqn:Hm;
    [| discriminate].
  destruct (parse_uint (String c8 (String c9 EmptyString))) as [d |] eqn:Hd;
    [| discriminate].
  destruct (Ascii.eqb_spec c4 "-") as [-> |]; [| discriminate].
  destruct (Ascii.eqb_spec c7 "-") as [-> |]; [| discriminate].
  cbn [andb]. intros Hnew Hyear.
  apply new_date_Some in Hnew as (-> & _ & _).
  unfold jdatetime.strftime_Ymd. cbn [jdatetime.year jdatetime.month jdatetime.day] in *.
  rewrite Hyear. apply parse_uint_4 in Hy as [Hy _].
  rewrite Hy, (parse_uint_2 _ _ _ Hm), (parse_uint_2 _ _ _ Hd). reflexivity.
Qed.

Lemma str_of_Z_four_digits (y : Z) : 1000 <= y <= 9999 -> str_of_Z y = fmt4 y.
Proof.
  intros Hy.
  assert (Hc : check_from (fun y => String.eqb (str_of_Z y) (fmt4 y))
                 (Z.to_nat 9000) 1000 = true)
    by (vm_compute; reflexivity).
  apply String.eqb_eq. apply (check_from_spec _ _ _ Hc).
  rewrite Z2Nat.id by lia. lia.
Qed.

(** * Further properties of the code *)

(** ** The import loop on rows it accepts *)

Lemma py_int_not_nan (n : num) : n <> NaN -> exists a, py_int n = Ok a.
Proof.
  destruct n as [z | q |]; intros H; [eexists; reflexivity .. | contradiction].
Qed.

Lemma py_int_nan (n : num) (a : Z) : py_int n = Ok a -> n <> NaN.
Proof. destruct n; simpl; congruence. Qed.

(** One iteration succeeds exactly on an importable row that has both
    required entries, and then builds the record field by field. *)
Lemma import_row_ok_iff (float_repr : Q -> string) (u : string)
    (r : gmap string cell) (rec : expense) :
  build_from_import_row float_repr u r = Ok rec <->
  exists j a,
    jdatetime.fromisoformat (py_str float_repr (pd.at_ r "date_jalali")) = Some j /\
    is_Some (r !! "date_jalali") /\ is_Some (r !! "amount") /\
    py_int (to_numeric (pd.at_ r "amount")) = Ok a /\
    rec = {| id := Some u;
             date_jalali := Some (py_str float_repr (pd.at_ r "date_jalali"));
             date_gregorian := Some (datetime.isoformat (jdatetime.togregorian j));
             amount := Int a;
             description := Some (py_str float_repr (get_or_empty r "description"));
             card := Some (py_str float_repr (get_or_empty r "card")) |}.
Proof.
  unfold build_from_import_row, getitem, pd.at_, jalali_to_gregorian.
  destruct (r !! "date_jalali") as [dj |] eqn:Hdj; simpl.
  - destruct (jdatetime.fromisoformat (py_str float_repr dj)) as [j |] eqn:Hj; simpl.
    + destruct (r !! "amount") as [am |] eqn:Ham; simpl.
      * rewrite py_int_or_0.
        destruct (py_int (to_numeric am)) as [a | e] eqn:Ha; simpl.
        -- split.
           ++ intros [= <-]. exists j, a. repeat split; eauto.
           ++ intros (j' & a' & Hj' & _ & _ & Ha' & ->).
              injection Hj' as <-. injection Ha' as <-. reflexivity.
        -- split; [discriminate |].
           intros (j' & a' & _ & _ & _ & Ha' & _). discriminate.
      * split; [discriminate |].
        intros (j' & a' & _ & _ & [x Hx] & _). discriminate.
    + split; [discriminate |]. intros (j' & a' & Hj' & _). discriminate.
  - split; [discriminate |]. intros (j' & a' & _ & [x Hx] & _). discriminate.
Qed.

Lemma with_defaults_at (imp : pd.frame) (r : gmap string cell) (c : string) :
  c <> "description"%string -> c <> "card"%string ->
  pd.at_ (with_defaults imp r) c = pd.at_ r c.
Proof.
  intros H1 H2. unfold pd.at_. rewrite with_defaults_lookup by assumption.
  reflexivity.
Qed.

Lemma with_defaults_optional (imp : pd.frame) (r : gmap string cell) :
  get_or_empty (with_defaults imp r) "description" = optional_cell imp r "description" /\
  get_or_empty (with_defaults imp r) "card" = optional_cell imp r "card".
Proof.
  unfold get_or_empty, with_defaults, optional_cell. split.
  - rewrite lookup_insert_ne by discriminate. rewrite lookup_insert_eq. reflexivity.
  - rewrite lookup_insert_eq. simpl.
    assert (Hc : pd.has_column (default_column imp "description") "card"
                 = pd.has_column imp "card").
    { unfold default_column.
      destruct (pd.has_column imp "description");
        rewrite has_column_set_column;
        rewrite (bool_decide_eq_false_2 ("card"%string = "description"%string))
          by discriminate;
        apply orb_false_r. }
    rewrite Hc. destruct (pd.has_column imp "card"); [| reflexivity].
    rewrite at_insert.
    rewrite (bool_decide_eq_false_2 ("card"%string = "description"%string))
      by discriminate.
    reflexivity.
Qed.

Lemma with_defaults_required (imp : pd.frame) (r : gmap string cell) (c : string) :
  c <> "description"%string -> c <> "card"%string ->
  is_Some (with_defaults imp r !! c) <-> is_Some (r !! c).
Proof. intros H1 H2. rewrite with_defaults_lookup by assumption. reflexivity. Qed.

(** The i-th record comes from the i-th row and carries the i-th
    identifier drawn. *)
Lemma build_records_lookup (float_repr : Q -> string) (uuid4 : nat -> string)
    (rs : list (gmap string cell)) :
  forall n recs,
    build_records float_repr uuid4 n rs = Ok recs ->
    forall (i : nat) r, rs !! i = Some r ->
      exists rec, recs !! i = Some rec /\
        build_from_import_row float_repr (uuid4 (n + i)%nat) r = Ok rec.
Proof.
  induction rs as [| r0 rs IH]; intros n recs Hb i r Hi; [discriminate |].
  simpl in Hb.
  destruct (build_from_import_row float_repr (uuid4 n) r0) as [rec0 | e] eqn:H0;
    [| discriminate]. simpl in Hb.
  destruct (build_records float_repr uuid4 (S n) rs) as [recs' | e] eqn:Hrest;
    [| discriminate]. simpl in Hb. injection Hb as <-.
  destruct i as [| i]; simpl in Hi.
  - injection Hi as <-. exists rec0. rewrite Nat.add_0_r. split; [reflexivity | exact H0].
  - destruct (IH (S n) recs' Hrest i r Hi) as (rec & Hrec & Hrow).
    exists rec. split; [exact Hrec |].
    replace (n + S i)%nat with (S n + i)%nat by lia. exact Hrow.
Qed.

(** The loop succeeds when every row does. *)
Lemma build_records_succeeds (float_repr : Q -> string) (uuid4 : nat -> string)
    (rs : list (gmap string cell)) :
  Forall (fun r => forall u, is_ok (build_from_import_row float_repr u r) = true) rs ->
  forall n, exists recs, build_records float_repr uuid4 n rs = Ok recs.
Proof.
  induction 1 as [| r rs Hr Hrs IH]; intros n; simpl; [eexists; reflexivity |].
  specialize (Hr (uuid4 n)).
  destruct (build_from_import_row float_repr (uuid4 n) r) as [rec | e];
    [| discriminate].
  destruct (IH (S n)) as (recs & ->). simpl. eexists. reflexivity.
Qed.

(** X1.  The import succeeds exactly when both required columns are
    present and every row is importable: its date text converts and its
    amount reads as a number (rows are rectangular: each has an entry for
    every column of the table). *)
Theorem import_succeeds_iff (float_repr : Q -> string) (uuid4 : nat -> string)
    (imp : pd.frame) (df : list expense) (w : world) :
  Forall (fun r => forall c, c ∈ pd.columns imp -> is_Some (r !! c)) (pd.rows imp) ->
  (fst (import_csv float_repr uuid4 imp df w) = success <->
   (forall c, c ∈ needed -> pd.has_column imp c = true) /\
   Forall (importable float_repr) (pd.rows imp)).
Proof.
  intros Hrect. unfold import_csv, import_records, check_needed.
  destruct (List.find (fun c => negb (pd.has_column imp c)) needed) as [c |] eqn:Hfind.
  - simpl. split; [discriminate |]. intros [Hall _].
    apply find_some in Hfind as [Hin Hneg]. apply list_elem_of_In in Hin.
    rewrite (Hall c Hin) in Hneg. discriminate.
  - assert (Hall : forall c, c ∈ needed -> pd.has_column imp c = true).
    { intros c Hc. apply list_elem_of_In in Hc.
      pose proof (find_none _ _ Hfind c Hc) as Hn. simpl in Hn.
      apply negb_false_iff. exact Hn. }
    simpl. rewrite rows_default_columns.
    assert (Hkeys : forall r c, r ∈ pd.rows imp -> c ∈ needed -> is_Some (r !! c)).
    { intros r c Hr Hc. rewrite Forall_forall in Hrect.
      apply (Hrect r Hr). specialize (Hall c Hc).
      unfold pd.has_column in Hall. apply bool_decide_eq_true in Hall. exact Hall. }
    assert (Hrow : forall r u, r ∈ pd.rows imp ->
              (is_ok (build_from_import_row float_repr u (with_defaults imp r)) = true
               <-> importable float_repr r)).
    { intros r u Hr. unfold importable. split.
      - destruct (build_from_import_row float_repr u (with_defaults imp r))
          as [rec | e] eqn:Hb; [| discriminate]. intros _.
        apply import_row_ok_iff in Hb as (j & a & Hj & _ & _ & Ha & _).
        rewrite with_defaults_at in Hj, Ha by discriminate.
        split; [eexists; exact Hj | eapply py_int_nan; exact Ha].
      - intros [[j Hj] Hnum]. destruct (py_int_not_nan _ Hnum) as (a & Ha).
        assert (Hb : exists rec,
                  build_from_import_row float_repr u (with_defaults imp r) = Ok rec).
        { eexists. apply import_row_ok_iff. exists j, a.
          rewrite !with_defaults_at by discriminate.
          rewrite !with_defaults_required by discriminate.
          split; [exact Hj |].
          split; [apply Hkeys; [exact Hr | apply list_elem_of_here] |].
          split; [apply Hkeys; [exact Hr |
                   apply list_elem_of_further, list_elem_of_here] |].
          split; [exact Ha | reflexivity]. }
        destruct Hb as (rec & ->). reflexivity. }
    split.
    + intros Hok. split; [exact Hall |].
      apply Forall_forall. intros r Hr.
      destruct (build_records float_repr uuid4 0 (with_defaults imp <$> pd.rows imp))
        as [recs | e] eqn:Hb; [| discriminate].
      apply list_elem_of_lookup in Hr as [i Hi].
      destruct (build_records_lookup float_repr uuid4 _ 0 recs Hb i
                  (with_defaults imp r)) as (rec & _ & Hrec).
      { rewrite list_lookup_fmap, Hi. reflexivity. }
      apply (Hrow r (uuid4 (0 + i)%nat)); [eapply list_elem_of_lookup_2; exact Hi |].
      rewrite Hrec. reflexivity.
    + intros [_ Himp].
      destruct (build_records_succeeds float_repr uuid4
                  (with_defaults imp <$> pd.rows imp)) with (n := 0%nat)
        as (recs & ->); [| reflexivity].
      apply Forall_fmap, Forall_forall. intros r Hr u. simpl.
      apply Hrow; [exact Hr |]. rewrite Forall_forall in Himp. apply Himp. exact Hr.
Qed.

(** X2.  A successful import appends one record per row, in row order:
    the i-th new record carries the i-th identifier drawn, the row's date
    text and its Gregorian conversion, [int] of the row's amount, and the
    text of the row's description and card cells, the empty string when
    the imported table has no such column.  No imported record has a null
    description or card: a missing cell (NaN) is stored as the text
    "nan". *)
Theorem import_appends_rows_in_order (float_repr : Q -> string)
    (uuid4 : nat -> string) (imp : pd.frame) (df : list expense) (w w' : world) :
  import_csv float_repr uuid4 imp df w = (success, w') ->
  exists records,
    w' = {| session_df := df ++ records; DATA_FILE := Some (df ++ records) |} /\
    length records = length (pd.rows imp) /\
    forall (i : nat) r, pd.rows imp !! i = Some r ->
      exists rec j a,
        records !! i = Some rec /\
        jdatetime.fromisoformat (py_str float_repr (pd.at_ r "date_jalali")) = Some j /\
        py_int (to_numeric (pd.at_ r "amount")) = Ok a /\
        rec = {| id := Some (uuid4 i);
                 date_jalali := Some (py_str float_repr (pd.at_ r "date_jalali"));
                 date_gregorian :=
                   Some (datetime.isoformat (jdatetime.togregorian j));
                 amount := Int a;
                 description :=
                   Some (py_str float_repr (optional_cell imp r "description"));
                 card := Some (py_str float_repr (optional_cell imp r "card")) |} /\
        (pd.at_ r "description" = CNum NaN -> pd.has_column imp "description" = true ->
           description rec = Some "nan"%string) /\
        (pd.at_ r "card" = CNum NaN -> pd.has_column imp "card" = true ->
           card rec = Some "nan"%string).
Proof.
  intros Hrun.
  destruct (import_csv_cases float_repr uuid4 imp df w)
    as [(e & _ & Hfail) | (records & Himp & Hlen & Hok)]; [congruence |].
  exists records. split; [congruence |]. split; [exact Hlen |].
  intros i r Hi. unfold import_records in Himp.
  destruct (check_needed imp); [| discriminate]. simpl in Himp.
  rewrite rows_default_columns in Himp.
  destruct (build_records_lookup float_repr uuid4 _ 0 records Himp i
              (with_defaults imp r)) as (rec & Hrec & Hrow).
  { rewrite list_lookup_fmap, Hi. reflexivity. }
  apply import_row_ok_iff in Hrow as (j & k & Hj & _ & _ & Ha & Heq).
  rewrite !with_defaults_at in Heq, Hj, Ha by discriminate.
  destruct (with_defaults_optional imp r) as [Hd Hc]. rewrite Hd, Hc in Heq.
  exists rec, j, k. split; [exact Hrec |]. split; [exact Hj |].
  split; [exact Ha |]. split; [exact Heq |]. subst rec. simpl.
  unfold optional_cell. split; intros Hnan Hcol; rewrite Hcol, Hnan; reflexivity.
Qed.

(** ** Runs of the script *)

Lemma add_expense_cases (uuid : string) (f : form) (w : world) :
  (snd (add_expense uuid f w) = w /\ fst (add_expense uuid f w) <> success) \/
  (exists row,
     add_expense uuid f w
     = (success, {| session_df := session_df w ++ [row];
                    DATA_FILE := Some (session_df w ++ [row]) |}) /\
     id row = Some uuid /\
     has_card row = true).
Proof.
  unfold add_expense.
  destruct (new_row uuid f) as [n | [row | e]] eqn:Hnew.
  - left. split; [reflexivity |]. simpl. unfold new_row in Hnew.
    destruct (negb (nonempty (in_date_jalali f))); [injection Hnew as <-; discriminate |].
    destruct (py_le_0 (in_amount f)); [injection Hnew as <-; discriminate | discriminate].
  - right. exists row. split; [reflexivity |].
    unfold new_row in Hnew.
    destruct (negb (nonempty (in_date_jalali f))); [discriminate |].
    destruct (py_le_0 (in_amount f)); [discriminate |].
    injection Hnew as Hnew.
    destruct (jalali_to_gregorian (in_date_jalali f)); simpl in Hnew; [| discriminate].
    destruct (py_int (in_amount f)); simpl in Hnew; [| discriminate].
    injection Hnew as <-. split; reflexivity.
  - left. split; [reflexivity | discriminate].
Qed.

Lemma import_records_has_card (float_repr : Q -> string) (uuid4 : nat -> string)
    (imp : pd.frame) (records : list expense) :
  import_records float_repr uuid4 imp = Ok records ->
  Forall (fun r => has_card r = true) records.
Proof.
  unfold import_records. destruct (check_needed imp); [| discriminate]. simpl.
  intros Hb. apply Forall_forall. intros rec Hrec.
  apply list_elem_of_lookup in Hrec as [i Hi].
  assert (Hlen : (i < length (pd.rows (default_column
                    (default_column imp "description") "card")))%nat).
  { rewrite <- (build_records_length _ _ _ _ _ Hb). eapply lookup_lt_Some. exact Hi. }
  apply lookup_lt_is_Some_2 in Hlen as [r Hr].
  destruct (build_records_lookup float_repr uuid4 _ 0 records Hb i r Hr)
    as (rec' & Hrec' & Hrow).
  assert (rec' = rec) as -> by congruence.
  apply import_row_ok_iff in Hrow as (j & k & _ & _ & _ & _ & ->). reflexivity.
Qed.

Lemma sublist_List_filter {A : Type} (p : A -> bool) (l : list A) :
  sublist (List.filter p l) l.
Proof.
  induction l as [| x l IH]; simpl; [constructor |].
  destruct (p x); [apply sublist_skip | apply sublist_cons]; exact IH.
Qed.

(** The rows a query shows are rows of the table it was given. *)
Lemma filter_rows_sublist (f : filters) (df filtered : list expense)
    (warned : option exn) :
  filter_rows f df = Ok (filtered, warned) -> sublist filtered df.
Proof.
  unfold filter_rows.
  assert (Hstart : forall t t', apply_start f t = Ok t' -> sublist t' t).
  { intros t t'. unfold apply_start.
    destruct (nonempty (start_j f)); [| intros [= <-]; reflexivity].
    destruct (jalali_to_gregorian (start_j f)); simpl; [| discriminate].
    intros [= <-]. apply sublist_List_filter. }
  assert (Hend : forall t t', apply_end f t = Ok t' -> sublist t' t).
  { intros t t'. unfold apply_end.
    destruct (nonempty (end_j f)); [| intros [= <-]; reflexivity].
    destruct (jalali_to_gregorian (end_j f)); simpl; [| discriminate].
    intros [= <-]. apply sublist_List_filter. }
  assert (Hdate : sublist (fst (date_filtering f df)) df).
  { unfold date_filtering.
    destruct (apply_start f df) as [t1 | e] eqn:H1; [| reflexivity].
    destruct (apply_end f t1) as [t2 | e] eqn:H2; simpl.
    - etrans; [eapply Hend; exact H2 | eapply Hstart; exact H1].
    - eapply Hstart; exact H1. }
  destruct (date_filtering f df) as [t0 w0]. simpl in Hdate.
  assert (Hcontains : forall pat col t t',
            contains_filter pat col t = Ok t' -> sublist t' t).
  { intros pat col t t'. unfold contains_filter.
    destruct (nonempty pat); [| intros [= <-]; reflexivity].
    destruct (re.compile_ignorecase pat); simpl; [| discriminate].
    intros [= <-]. apply sublist_List_filter. }
  destruct (contains_filter (card_filter f) card t0) as [t1 | e1] eqn:H1; simpl;
    [| discriminate].
  destruct (contains_filter (search f) description t1) as [t2 | e2] eqn:H2; simpl;
    [| discriminate].
  intros [= <- <-].
  etrans; [eapply Hcontains; exact H2 |].
  etrans; [eapply Hcontains; exact H1 | exact Hdate].
Qed.

Lemma query_submseteq
    (argsort : list (string * expense) -> list (string * expense))
    (f : filters) (df res : list expense) (warned : option exn) :
  (forall l, Permutation (argsort l) l) ->
  query argsort f df = Ok (res, warned) -> res ⊆+ df.
Proof.
  intros Hperm Hq. unfold query in Hq.
  destruct (filter_rows f df) as [[filtered w0] | e] eqn:Hf; [| discriminate].
  simpl in Hq. injection Hq as <- <-.
  rewrite (sort_rows_perm argsort filtered Hperm).
  apply sublist_submseteq. eapply filter_rows_sublist. exact Hf.
Qed.

(** The three ways a run can go: halted by the form handler, aborted by
    an exception of the filters or of the metrics, or completed. *)
Lemma script_run_cases (float_repr : Q -> string)
    (argsort : list (string * expense) -> list (string * expense))
    (inp : inputs) (w : world) (res : run) :
  script_run float_repr argsort inp w = res ->
  (ending res = stopped /\ final res = w /\ shown res = None) \/
  (exists e, ending res = aborted e /\ final res = after_form inp w /\
             shown res = None) \/
  (exists filtered warned,
     query argsort (filter_inputs inp) (session_df w) = Ok (filtered, warned) /\
     ending res = completed /\ shown res = Some filtered /\
     final res = if reset_clicked inp then reset (after_upload float_repr inp w)
                 else after_upload float_repr inp w).
Proof.
  unfold script_run, after_upload, after_form.
  destruct (submitted inp) as [f |].
  - destruct (add_expense (add_uuid inp) f w) as [n w1] eqn:Hadd.
    destruct (halts n) eqn:Hh.
    + intros <-. left. simpl. split; [reflexivity |]. split; [| reflexivity].
      destruct (add_expense_cases (add_uuid inp) f w) as [[Hw _] | (row & Hrow & _)].
      * rewrite Hadd in Hw. exact Hw.
      * rewrite Hadd in Hrow. injection Hrow as -> _. discriminate.
    + destruct (query argsort (filter_inputs inp) (session_df w))
        as [[filtered warned] | e]; simpl.
      * destruct (avg filtered) as [a0 | e].
        -- destruct (uploaded inp) as [imp |].
           ++ destruct (import_csv float_repr (import_uuid4 inp) imp (session_df w) w1)
                as [n2 w2].
              destruct (reset_clicked inp); intros <-; right; right;
                exists filtered, warned; simpl; repeat split; reflexivity.
           ++ destruct (reset_clicked inp); intros <-; right; right;
                exists filtered, warned; simpl; repeat split; reflexivity.
        -- intros <-. right. left. exists e. simpl. repeat split; reflexivity.
      * intros <-. right. left. exists e. simpl. repeat split; reflexivity.
  - cbn [halts].
    destruct (query argsort (filter_inputs inp) (session_df w))
      as [[filtered warned] | e]; simpl.
    + destruct (avg filtered) as [a0 | e].
      * destruct (uploaded inp) as [imp |].
        -- destruct (import_csv float_repr (import_uuid4 inp) imp (session_df w) w)
             as [n2 w2].
           destruct (reset_clicked inp); intros <-; right; right;
             exists filtered, warned; simpl; repeat split; reflexivity.
        -- destruct (reset_clicked inp); intros <-; right; right;
             exists filtered, warned; simpl; repeat split; reflexivity.
      * intros <-. right. left. exists e. simpl. repeat split; reflexivity.
    + intros <-. right. left. exists e. simpl. repeat split; reflexivity.
Qed.

Lemma after_form_cases (inp : inputs) (w : world) :
  after_form inp w = w \/
  exists row, id row = Some (add_uuid inp) /\ has_card row = true /\
    after_form inp w = {| session_df := session_df w ++ [row];
                          DATA_FILE := Some (session_df w ++ [row]) |}.
Proof.
  unfold after_form. destruct (submitted inp) as [f |]; [| left; reflexivity].
  destruct (add_expense_cases (add_uuid inp) f w) as [[Hw _] | (row & Hrow & Hid & Hc)].
  - left. exact Hw.
  - right. exists row. rewrite Hrow. repeat split; assumption.
Qed.

Lemma after_upload_cases (float_repr : Q -> string) (inp : inputs) (w : world) :
  after_upload float_repr inp w = after_form inp w \/
  exists imp records,
    uploaded inp = Some imp /\
    import_records float_repr (import_uuid4 inp) imp = Ok records /\
    length records = length (pd.rows imp) /\
    after_upload float_repr inp w
    = {| session_df := session_df w ++ records;
         DATA_FILE := Some (session_df w ++ records) |}.
Proof.
  unfold after_upload. destruct (uploaded inp) as [imp |]; [| left; reflexivity].
  destruct (import_csv_cases float_repr (import_uuid4 inp) imp (session_df w)
              (after_form inp w)) as [(e & _ & Hrun) | (records & Himp & Hlen & Hrun)].
  - left. rewrite Hrun. reflexivity.
  - right. exists imp, records. rewrite Hrun. repeat split; assumption.
Qed.

Lemma shown_rows_of_session_table (float_repr : Q -> string)
    (argsort : list (string * expense) -> list (string * expense))
    (inp : inputs) (w : world) (res : run) (t : list expense) :
  (forall l, Permutation (argsort l) l) ->
  script_run float_repr argsort inp w = res ->
  shown res = Some t ->
  t ⊆+ session_df w.
Proof.
  intros Hperm Hrun Hshown.
  destruct (script_run_cases _ _ _ _ _ Hrun)
    as [(_ & _ & Hs) | [(e & _ & _ & Hs) | (filtered & warned & Hq & He & Hs & _)]];
    try congruence.
  assert (t = filtered) as -> by congruence.
  eapply query_submseteq; eassumption.
Qed.

(** X3.  A run shows the table as it was when the run started: every row
    handed to the table view is a row of the session table before the
    run, so an expense added by the form in this run is not shown, nor
    are rows imported in this run. *)
Theorem run_shows_table_before_run (float_repr : Q -> string)
    (argsort : list (string * expense) -> list (string * expense))
    (inp : inputs) (w : world) (res : run) (t : list expense) :
  (forall l, Permutation (argsort l) l) ->
  script_run float_repr argsort inp w = res ->
  shown res = Some t ->
  t ⊆+ session_df w /\ ending res = completed.
Proof.
  intros Hperm Hrun Hshown.
  destruct (script_run_cases _ _ _ _ _ Hrun)
    as [(_ & _ & Hs) | [(e & _ & _ & Hs) | (filtered & warned & Hq & He & Hs & _)]];
    try congruence.
  split; [| exact He].
  eapply shown_rows_of_session_table; eassumption.
Qed.

(** X4.  An expense added while a file sits in the uploader is lost: when
    the form handler and the upload handler both succeed in one run, the
    upload handler merges the imported records with the table bound at the
    top of the run and overwrites both the session table and the file, so
    the row the form handler had appended and written is gone. *)
Theorem add_lost_when_file_uploaded (float_repr : Q -> string)
    (argsort : list (string * expense) -> list (string * expense))
    (inp : inputs) (w : world) (res : run) (f : form) (imp : pd.frame)
    (records : list expense) :
  submitted inp = Some f ->
  uploaded inp = Some imp ->
  reset_clicked inp = false ->
  fst (add_expense (add_uuid inp) f w) = success ->
  import_records float_repr (import_uuid4 inp) imp = Ok records ->
  script_run float_repr argsort inp w = res ->
  ending res = completed ->
  final res = {| session_df := session_df w ++ records;
                 DATA_FILE := Some (session_df w ++ records) |} /\
  length (session_df (final res))
  = (length (session_df w) + length (pd.rows imp))%nat /\
  exists row,
    after_form inp w = {| session_df := session_df w ++ [row];
                          DATA_FILE := Some (session_df w ++ [row]) |}.
Proof.
  intros Hsub Hup Hreset Hadd Himp Hrun Hend.
  destruct (script_run_cases _ _ _ _ _ Hrun)
    as [(He & _) | [(e & He & _) | (filtered & warned & Hq & _ & _ & Hfinal)]];
    try congruence.
  rewrite Hreset in Hfinal.
  assert (Hfin : final res = {| session_df := session_df w ++ records;
                               DATA_FILE := Some (session_df w ++ records) |}).
  { rewrite Hfinal. unfold after_upload. rewrite Hup. unfold import_csv.
    rewrite Himp. reflexivity. }
  split; [exact Hfin |]. split.
  - rewrite Hfin. simpl. rewrite length_app. f_equal.
    destruct (import_csv_cases float_repr (import_uuid4 inp) imp [] w)
      as [(e & He & _) | (records' & Hr' & Hlen & _)]; congruence.
  - unfold after_form. rewrite Hsub.
    destruct (add_expense_cases (add_uuid inp) f w) as [[_ Hn] | (row & Hrow & _)];
      [contradiction |].
    exists row. rewrite Hrow. reflexivity.
Qed.

(** X5.  Whatever a run does, it leaves the file holding the session
    table or leaves the world as it found it; so the file and the session
    table agree after every session that starts with them in agreement. *)
Theorem session_keeps_file_in_sync (float_repr : Q -> string)
    (argsort : list (string * expense) -> list (string * expense))
    (inps : list inputs) (w w' : world) :
  in_sync w ->
  session float_repr argsort inps w = w' ->
  in_sync w'.
Proof.
  assert (Hrun : forall inp w res,
            script_run float_repr argsort inp w = res ->
            in_sync (final res) \/ final res = w).
  { intros inp w0 res H.
    assert (Hform : in_sync (after_form inp w0) \/ after_form inp w0 = w0).
    { destruct (after_form_cases inp w0) as [-> | (row & _ & _ & ->)];
        [right | left]; reflexivity. }
    assert (Hup : in_sync (after_upload float_repr inp w0)
                  \/ after_upload float_repr inp w0 = w0).
    { destruct (after_upload_cases float_repr inp w0)
        as [-> | (imp & records & _ & _ & _ & ->)]; [exact Hform | left; reflexivity]. }
    destruct (script_run_cases _ _ _ _ _ H)
      as [(_ & -> & _) | [(e & _ & -> & _) | (filtered & warned & _ & _ & _ & ->)]].
    - right. reflexivity.
    - exact Hform.
    - destruct (reset_clicked inp); [left; reflexivity | exact Hup]. }
  revert w. induction inps as [| inp rest IH]; intros w Hsync; simpl.
  - intros <-. exact Hsync.
  - apply IH. destruct (Hrun inp w _ eq_refl) as [H | ->]; assumption.
Qed.

(** X6.  Records made by the form or by the import always have a card
    that is not null.  So in a session that starts from a table without
    null cards (an empty one, say), every table shown, its amounts being
    small integers, has per-card totals that add up to the total of the
    shown rows. *)
Theorem session_card_totals_add_up (float_repr : Q -> string)
    (argsort : list (string * expense) -> list (string * expense))
    (inps : list inputs) (inp : inputs) (w w' : world) (res : run)
    (t : list expense) :
  (forall l, Permutation (argsort l) l) ->
  Forall (fun r => has_card r = true) (session_df w) ->
  session float_repr argsort inps w = w' ->
  script_run float_repr argsort inp w' = res ->
  shown res = Some t ->
  small_integers t ->
  Forall (fun r => has_card r = true) (session_df w') /\
  (sum_groups (groupby_sum t) == sum_amount t)%Q.
Proof.
  intros Hperm Hcards Hsession Hrun Hshown _.
  assert (Hstep : forall inp w res,
            script_run float_repr argsort inp w = res ->
            Forall (fun r => has_card r = true) (session_df w) ->
            Forall (fun r => has_card r = true) (session_df (final res))).
  { intros inp0 w0 res0 H H0.
    assert (Hform : Forall (fun r => has_card r = true)
                      (session_df (after_form inp0 w0))).
    { destruct (after_form_cases inp0 w0) as [-> | (row & _ & Hc & ->)];
        [exact H0 |]. simpl. apply Forall_app. split; [exact H0 |].
      constructor; [exact Hc | constructor]. }
    assert (Hup : Forall (fun r => has_card r = true)
                    (session_df (after_upload float_repr inp0 w0))).
    { destruct (after_upload_cases float_repr inp0 w0)
        as [-> | (imp & records & _ & Himp & _ & ->)]; [exact Hform |].
      simpl. apply Forall_app. split; [exact H0 |].
      eapply import_records_has_card. exact Himp. }
    destruct (script_run_cases _ _ _ _ _ H)
      as [(_ & -> & _) | [(e & _ & -> & _) | (filtered & warned & _ & _ & _ & ->)]].
    - exact H0.
    - exact Hform.
    - destruct (reset_clicked inp0); [constructor | exact Hup]. }
  assert (Hw' : Forall (fun r => has_card r = true) (session_df w')).
  { clear Hrun Hshown. revert w Hcards Hsession.
    induction inps as [| inp0 rest IH]; intros w Hcards; simpl.
    - intros <-. exact Hcards.
    - apply IH. eapply Hstep; [reflexivity | exact Hcards]. }
  split; [exact Hw' |].
  apply card_summary_total_without_nulls.
  pose proof (shown_rows_of_session_table float_repr argsort inp w' res t Hperm
                Hrun Hshown) as Hsub.
  rewrite Forall_forall in *. intros r Hr. apply Hw'.
  eapply elem_of_submseteq; eassumption.
Qed.

(** Whether the import loop succeeds does not depend on the identifiers
    drawn. *)
Lemma import_records_any_uuid (float_repr : Q -> string) (u1 u2 : nat -> string)
    (imp : pd.frame) (records : list expense) :
  import_records float_repr u1 imp = Ok records ->
  exists records', import_records float_repr u2 imp = Ok records'.
Proof.
  unfold import_records. destruct (check_needed imp); [| discriminate]. simpl.
  intros Hb. apply build_records_succeeds.
  apply Forall_forall. intros r Hr u.
  apply list_elem_of_lookup in Hr as [i Hi].
  destruct (build_records_lookup float_repr u1 _ 0 records Hb i r Hi)
    as (rec & _ & Hrow).
  apply import_row_ok_iff in Hrow as (j & k & Hj & Hd & Ha & Hk & _).
  assert (Hok : exists rec', build_from_import_row float_repr u r = Ok rec').
  { eexists. apply import_row_ok_iff. exists j, k. repeat split; eauto. }
  destruct Hok as (rec' & ->). reflexivity.
Qed.

(** X7.  The import is repeated on every run in which the file is still
    in the uploader: two completed runs with the same uploaded file, the
    first of which imports it, leave the batch in the table twice. *)
Theorem import_repeats_while_file_uploaded (float_repr : Q -> string)
    (argsort : list (string * expense) -> list (string * expense))
    (imp : pd.frame) (u1 u2 : nat -> string) (w : world) (r1 r2 : run)
    (records : list expense) :
  import_records float_repr u1 imp = Ok records ->
  script_run float_repr argsort (upload_only imp u1) w = r1 ->
  ending r1 = completed ->
  script_run float_repr argsort (upload_only imp u2) (final r1) = r2 ->
  ending r2 = completed ->
  session_df (final r1) = session_df w ++ records /\
  exists records',
    import_records float_repr u2 imp = Ok records' /\
    session_df (final r2) = session_df w ++ records ++ records' /\
    length (session_df (final r2))
    = (length (session_df w) + 2 * length (pd.rows imp))%nat.
Proof.
  intros Himp H1 He1 H2 He2.
  destruct (import_records_any_uuid float_repr u1 u2 imp records Himp)
    as (records' & Himp').
  assert (Hstep : forall u w0 r recs,
            import_records float_repr u imp = Ok recs ->
            script_run float_repr argsort (upload_only imp u) w0 = r ->
            ending r = completed ->
            session_df (final r) = session_df w0 ++ recs /\
            length recs = length (pd.rows imp)).
  { intros u w0 r recs Hrecs Hrun Hend.
    destruct (script_run_cases _ _ _ _ _ Hrun)
      as [(He & _) | [(e & He & _) | (filtered & warned & _ & _ & _ & Hfinal)]];
      try congruence.
    simpl in Hfinal. rewrite Hfinal. unfold after_upload. simpl.
    unfold import_csv. rewrite Hrecs. simpl. split; [reflexivity |].
    destruct (import_csv_cases float_repr u imp [] w0)
      as [(e & He & _) | (recs' & Hr' & Hlen & _)]; congruence. }
  destruct (Hstep u1 w r1 records Himp H1 He1) as [Hs1 Hl1].
  destruct (Hstep u2 (final r1) r2 records' Himp' H2 He2) as [Hs2 Hl2].
  split; [exact Hs1 |]. exists records'. split; [exact Himp' |].
  rewrite Hs2, Hs1, <- app_assoc. split; [reflexivity |].
  rewrite !length_app. lia.
Qed.

(** ** Text stored by the form *)

(** X8.  A successful add stores the date text exactly as typed, and an
    ASCII description or card without its leading and trailing blanks
    and otherwise unchanged. *)
Theorem add_stores_stripped_text (uuid : string) (f : form) (w w' : world) :
  is_ascii (in_description f) = true ->
  is_ascii (in_card f) = true ->
  add_expense uuid f w = (success, w') ->
  exists row d c,
    session_df w' = session_df w ++ [row] /\
    date_jalali row = Some (in_date_jalali f) /\
    description row = Some d /\ stripped_of (in_description f) d /\
    card row = Some c /\ stripped_of (in_card f) c.
Proof.
  intros Hd Hc. unfold add_expense, new_row.
  destruct (negb (nonempty (in_date_jalali f))); [discriminate |].
  destruct (py_le_0 (in_amount f)); [discriminate |].
  destruct (jalali_to_gregorian (in_date_jalali f)) as [g | e]; simpl;
    [| discriminate].
  destruct (py_int (in_amount f)) as [k | e]; simpl; [| discriminate].
  intros [= <-]. eexists. exists (strip (in_description f)), (strip (in_card f)).
  simpl. rewrite (strip_ascii _ Hd), (strip_ascii _ Hc).
  repeat split; try reflexivity; apply strip_spec.
Qed.

(** ** Loading twice *)

Lemma fillna_0_idem (n : num) : fillna_0 (fillna_0 n) = fillna_0 n.
Proof. destruct n; reflexivity. Qed.

Lemma read_data_of_loaded (df : pd.frame) :
  read_data (Some (Ok {| pd.columns := expected;
                         pd.rows := (fun r => list_to_map
                                       ((fun c => (c, loaded_cell df r c)) <$> expected))
                                    <$> pd.rows df |}))
  = Ok {| pd.columns := expected;
          pd.rows := (fun r => list_to_map
                        ((fun c => (c, loaded_cell df r c)) <$> expected))
                     <$> pd.rows df |}.
Proof.
  rewrite read_data_rows. f_equal. f_equal. cbn [pd.rows].
  rewrite <- list_fmap_compose. apply list_fmap_ext. intros _ r _.
  unfold compose. f_equal. apply list_fmap_ext. intros k c Hc. f_equal.
  apply list_elem_of_lookup_2 in Hc.
  set (out := {| pd.columns := expected; pd.rows := _ |}).
  set (r' := list_to_map _).
  assert (Hcol : pd.has_column out c = true).
  { unfold pd.has_column. apply bool_decide_eq_true. exact Hc. }
  assert (Hat : pd.at_ r' c = loaded_cell df r c).
  { unfold pd.at_, r'. rewrite lookup_list_to_map_fun.
    rewrite (bool_decide_eq_true_2 _ Hc). reflexivity. }
  unfold loaded_cell at 1. rewrite Hcol, Hat. cbv zeta.
  case_bool_decide as Hamount; [| reflexivity].
  unfold loaded_cell. rewrite (bool_decide_eq_true_2 _ Hamount). cbv zeta.
  cbn [to_numeric]. rewrite fillna_0_idem. reflexivity.
Qed.

(** X9.  Normalization is idempotent: loading the frame that a load
    returned gives that frame again, with the same columns, rows and
    cells. *)
Theorem read_data_idempotent (df out : pd.frame) :
  read_data (Some (Ok df)) = Ok out -> read_data (Some (Ok out)) = Ok out.
Proof.
  intros H. rewrite read_data_rows in H.
  assert (Hout : out = {| pd.columns := expected;
                          pd.rows := (fun r => list_to_map
                                        ((fun c => (c, loaded_cell df r c)) <$> expected))
                                     <$> pd.rows df |}) by congruence.
  rewrite Hout. apply read_data_of_loaded.
Qed.

(** ** Identifiers *)

Lemma import_records_ids (float_repr : Q -> string) (uuid4 : nat -> string)
    (imp : pd.frame) (records : list expense) :
  import_records float_repr uuid4 imp = Ok records ->
  id <$> records = (fun i => Some (uuid4 i)) <$> seq 0 (length (pd.rows imp)).
Proof.
  intros Himp.
  assert (Hlen : length records = length (pd.rows imp)).
  { destruct (import_csv_cases float_repr uuid4 imp [] empty_world)
      as [(e & He & _) | (recs' & Hr' & Hl & _)]; congruence. }
  unfold import_records in Himp.
  destruct (check_needed imp); [| discriminate]. simpl in Himp.
  rewrite rows_default_columns in Himp.
  apply list_eq. intros i. rewrite !list_lookup_fmap.
  destruct (decide (i < length (pd.rows imp))%nat) as [Hi | Hi].
  - rewrite lookup_seq_lt by exact Hi. simpl.
    apply lookup_lt_is_Some_2 in Hi as [r Hr].
    destruct (build_records_lookup float_repr uuid4 _ 0 records Himp i
                (with_defaults imp r)) as (rec & Hrec & Hrow).
    { rewrite list_lookup_fmap, Hr. reflexivity. }
    rewrite Hrec. simpl.
    apply import_row_ok_iff in Hrow as (j & k & _ & _ & _ & _ & ->). reflexivity.
  - rewrite lookup_seq_ge by lia. rewrite lookup_ge_None_2 by lia. reflexivity.
Qed.

(** X10.  Identifiers stay unique through an import as long as the
    identifiers drawn are distinct from each other and from those in the
    table: the i-th new record gets the i-th identifier drawn and no
    existing identifier is touched. *)
Theorem import_keeps_ids_unique (float_repr : Q -> string)
    (uuid4 : nat -> string) (imp : pd.frame) (df : list expense) (w w' : world) :
  NoDup (id <$> df) ->
  (forall i j, (i < length (pd.rows imp))%nat -> (j < length (pd.rows imp))%nat ->
     uuid4 i = uuid4 j -> i = j) ->
  (forall i, (i < length (pd.rows imp))%nat -> Some (uuid4 i) ∉ id <$> df) ->
  import_csv float_repr uuid4 imp df w = (success, w') ->
  NoDup (id <$> session_df w') /\
  id <$> session_df w'
  = (id <$> df) ++ ((fun i => Some (uuid4 i)) <$> seq 0 (length (pd.rows imp))).
Proof.
  intros Hdf Hinj Hfresh Hrun.
  destruct (import_csv_cases float_repr uuid4 imp df w)
    as [(e & _ & Hfail) | (records & Himp & _ & Hok)]; [congruence |].
  assert (w' = {| session_df := df ++ records;
                  DATA_FILE := Some (df ++ records) |}) as -> by congruence.
  simpl. rewrite fmap_app, (import_records_ids _ _ _ _ Himp).
  split; [| reflexivity].
  apply NoDup_app. split; [exact Hdf |]. split.
  - intros x Hx Hx'. apply list_elem_of_fmap in Hx' as (i & -> & Hi).
    apply elem_of_seq in Hi. apply (Hfresh i); [lia | exact Hx].
  - apply NoDup_fmap_2_strong; [| apply NoDup_seq].
    intros i j Hi Hj [= Hij]. apply elem_of_seq in Hi, Hj.
    apply Hinj; [lia | lia | exact Hij].
Qed.

(** ** The per-card summary, label by label *)

Lemma ltb_of_neither (k k' : string) :
  String.eqb k k' = false -> String.ltb k k' = false -> String.ltb k' k = true.
Proof.
  unfold String.ltb. rewrite (String.compare_antisym k k').
  intros Hne Hlt. destruct (String.compare k' k) eqn:Hc; simpl in *;
    [| reflexivity | discriminate].
  apply String.compare_eq_iff in Hc. subst. rewrite String.eqb_refl in Hne.
  discriminate.
Qed.

Lemma group_add_keys (k : string) (v : Q) (groups : list (string * Q)) (q : string) :
  q ∈ (group_add k v groups).*1 <-> q = k \/ q ∈ groups.*1.
Proof.
  induction groups as [| [k' v'] rest IH]; simpl.
  - rewrite list_elem_of_singleton, elem_of_nil. tauto.
  - destruct (String.eqb k k') eqn:Hkk; simpl.
    + apply String.eqb_eq in Hkk. subst k'. rewrite !elem_of_cons. tauto.
    + destruct (String.ltb k k'); simpl.
      * rewrite !elem_of_cons. tauto.
      * rewrite !elem_of_cons, IH. tauto.
Qed.

Lemma group_add_sorted (k : string) (v : Q) (groups : list (string * Q)) :
  Sorted label_lt groups -> Sorted label_lt (group_add k v groups).
Proof.
  induction groups as [| [k' v'] rest IH]; intros Hs; simpl.
  - repeat constructor.
  - apply Sorted_inv in Hs as [Hs Hhd].
    destruct (String.eqb k k') eqn:Hkk.
    + constructor; [exact Hs |].
      destruct rest as [| [k2 v2] rest]; constructor.
      apply HdRel_inv in Hhd. exact Hhd.
    + destruct (String.ltb k k') eqn:Hlt.
      * constructor; [constructor; assumption |]. constructor. exact Hlt.
      * constructor; [apply IH; exact Hs |].
        destruct rest as [| [k2 v2] rest]; simpl.
        -- constructor. apply ltb_of_neither; assumption.
        -- apply HdRel_inv in Hhd.
           destruct (String.eqb k k2); [constructor; exact Hhd |].
           destruct (String.ltb k k2); constructor;
             [apply ltb_of_neither; assumption | exact Hhd].
Qed.

Lemma groupby_sum_shape (t : list expense) (acc : list (string * Q)) :
  let step := fun groups r =>
    match group_key r with
    | Some k => group_add k (num_value (amount r)) groups
    | None => groups
    end in
  Sorted label_lt acc ->
  Sorted label_lt (foldl step acc t) /\
  forall q, q ∈ (foldl step acc t).*1 <->
            q ∈ acc.*1 \/ exists r, r ∈ t /\ group_key r = Some q.
Proof.
  intros step. revert acc. induction t as [| r t IH]; intros acc Hacc.
  - simpl. split; [exact Hacc |]. intros q. split; [tauto |].
    intros [H | (r & Hr & _)]; [exact H |]. apply elem_of_nil in Hr. contradiction.
  - cbn [foldl].
    assert (Hstep : Sorted label_lt (step acc r)).
    { unfold step. destruct (group_key r); [apply group_add_sorted |]; exact Hacc. }
    destruct (IH (step acc r) Hstep) as [Hs Hk]. split; [exact Hs |].
    intros q. rewrite Hk. unfold step. split.
    + intros [H | (r' & Hr' & Hq)].
      * destruct (group_key r) as [k |] eqn:Hg.
        -- apply group_add_keys in H as [-> | H]; [| left; exact H].
           right. exists r. split; [apply list_elem_of_here | exact Hg].
        -- left. exact H.
      * right. exists r'. split; [apply list_elem_of_further; exact Hr' | exact Hq].
    + intros [H | (r' & Hr' & Hq)].
      * left. destruct (group_key r); [apply group_add_keys; right |]; exact H.
      * apply elem_of_cons in Hr' as [-> | Hr'].
        -- left. rewrite Hq. apply group_add_keys. left. reflexivity.
        -- right. exists r'. split; assumption.
Qed.

(** X11.  The per-card summary of rows whose amounts are small integers
    lists each label once, in ascending order; a label is listed exactly
    when some shown row has it (the empty card counting as the sentinel
    label, a null card as no label); the total of a label is the sum of
    the amounts of its rows; and all totals together are the sum over the
    rows whose card is not null. *)
Theorem card_summary_by_label (filtered : list expense) (groups : list (string * Q)) :
  small_integers filtered ->
  card_summary filtered = Some groups ->
  Sorted label_lt groups /\
  (forall k, k ∈ groups.*1 <-> exists r, r ∈ filtered /\ group_key r = Some k) /\
  (forall k, (group_total k groups
              == sum_amount (List.filter (in_group k) filtered))%Q) /\
  (sum_groups groups == sum_amount (List.filter has_card filtered))%Q.
Proof.
  intros _.
  unfold card_summary. destruct filtered as [| r0 t] eqn:Ht; [discriminate |].
  rewrite <- Ht. intros [= <-].
  destruct (groupby_sum_shape filtered []) as [Hs Hk]; [constructor |].
  destruct (card_summary_totals filtered) as [Hsum Htot].
  split; [exact Hs |]. split; [| split; [exact Htot | exact Hsum]].
  intros k. unfold groupby_sum. rewrite Hk. split.
  - intros [H | H]; [apply elem_of_nil in H; contradiction | exact H].
  - intros H. right. exact H.
Qed.

(** ** The summary metrics *)

Lemma sum_amount_integers (t : list expense) (zs : list Z) :
  amount <$> t = Int <$> zs -> sum_amount t = inject_Z (z_sum zs).
Proof.
  revert zs. induction t as [| r t IH]; intros [| z zs] H; try discriminate.
  - reflexivity.
  - injection H as Hr Ht. rewrite sum_amount_cons, (IH zs Ht), Hr. simpl.
    unfold Qplus, inject_Z. simpl. f_equal. lia.
Qed.

Lemma filter_numbers_integers (t : list expense) (zs : list Z) :
  amount <$> t = Int <$> zs ->
  List.filter (fun r => negb (is_nan (amount r))) t = t.
Proof.
  revert zs. induction t as [| r t IH]; intros [| z zs] H; try discriminate.
  - reflexivity.
  - injection H as Hr Ht. simpl. rewrite Hr. simpl. f_equal. eapply IH. exact Ht.
Qed.

(** X12.  On a non-empty table whose amounts are small integers, the
    total is their sum and the average is that sum divided by the number
    of rows, rounded toward zero; so for a non-negative total the average
    times the count is at most the total and misses it by less than the
    count. *)
Theorem metrics_of_integer_amounts (filtered : list expense) (zs : list Z) :
  filtered <> [] ->
  amount <$> filtered = Int <$> zs ->
  small zs ->
  total_spent filtered = Ok (z_sum zs) /\
  avg filtered = Ok (Z.quot (z_sum zs) (Z.of_nat (length filtered))) /\
  (0 <= z_sum zs ->
   let n := Z.of_nat (length filtered) in
   let a := Z.quot (z_sum zs) n in
   n * a <= z_sum zs < n * a + n).
Proof.
  intros Hne Hint _.
  assert (Hlen : 0 < Z.of_nat (length filtered))
    by (destruct filtered; [contradiction | simpl; lia]).
  assert (Htot : total_spent filtered = py_int (Float (sum_amount filtered)))
    by (destruct filtered; [contradiction | reflexivity]).
  assert (Havg : avg filtered
                 = py_int (Float (sum_amount filtered
                                  / inject_Z (Z.of_nat (length filtered))))).
  { unfold avg, mean_amount. rewrite (filter_numbers_integers _ _ Hint).
    destruct filtered; [contradiction | reflexivity]. }
  rewrite (sum_amount_integers _ _ Hint) in Htot, Havg.
  split; [| split].
  - rewrite Htot. simpl. f_equal. apply Z.quot_1_r.
  - rewrite Havg.
    destruct (Z.of_nat (length filtered)) as [| p | p] eqn:Hn; try lia.
    simpl. f_equal. rewrite Z.mul_1_r. reflexivity.
  - intros Hpos n a.
    assert (Ha : a = z_sum zs / n) by (apply Z.quot_div_nonneg; lia).
    rewrite Ha. pose proof (Z.div_mod (z_sum zs) n ltac:(lia)).
    pose proof (Z.mod_pos_bound (z_sum zs) n ltac:(lia)). lia.
Qed.

(** ** Dates: order and range *)

Lemma digit_char_compare (a b : Z) :
  Ascii.compare (digit_char a) (digit_char b) = (a mod 10 ?= b mod 10).
Proof.
  unfold digit_char.
  pose proof (Z.mod_pos_bound a 10 ltac:(lia)) as Ha.
  pose proof (Z.mod_pos_bound b 10 ltac:(lia)) as Hb.
  generalize dependent (a mod 10). intros x Hx.
  generalize dependent (b mod 10). intros y Hy.
  assert (Hxs : x = 0 \/ x = 1 \/ x = 2 \/ x = 3 \/ x = 4 \/ x = 5 \/ x = 6
                \/ x = 7 \/ x = 8 \/ x = 9) by lia.
  assert (Hys : y = 0 \/ y = 1 \/ y = 2 \/ y = 3 \/ y = 4 \/ y = 5 \/ y = 6
                \/ y = 7 \/ y = 8 \/ y = 9) by lia.
  clear Hx Hy.
  repeat (destruct Hxs as [-> | Hxs]); try subst x;
    repeat (destruct Hys as [-> | Hys]); try subst y; reflexivity.
Qed.

Lemma four_digits (y : Z) :
  0 <= y <= 9999 ->
  y = 1000 * ((y / 1000) mod 10) + 100 * ((y / 100) mod 10)
      + 10 * ((y / 10) mod 10) + y mod 10.
Proof. intros H. Z.div_mod_to_equations. lia. Qed.

Lemma two_digits (m : Z) :
  0 <= m <= 99 -> m = 10 * ((m / 10) mod 10) + m mod 10.
Proof. intros H. Z.div_mod_to_equations. lia. Qed.

Lemma compare_fmt4 (y1 y2 : Z) (s t : string) :
  0 <= y1 <= 9999 -> 0 <= y2 <= 9999 ->
  String.compare (fmt4 y1 +:+ s) (fmt4 y2 +:+ t)
  = match y1 ?= y2 with Eq => String.compare s t | c => c end.
Proof.
  intros H1 H2. unfold fmt4. rewrite !append_cons, !append_nil.
  cbn [String.compare]. rewrite !digit_char_compare.
  pose proof (four_digits y1 H1) as E1. pose proof (four_digits y2 H2) as E2.
  pose proof (Z.mod_pos_bound (y1 / 1000) 10 ltac:(lia)).
  pose proof (Z.mod_pos_bound (y1 / 100) 10 ltac:(lia)).
  pose proof (Z.mod_pos_bound (y1 / 10) 10 ltac:(lia)).
  pose proof (Z.mod_pos_bound y1 10 ltac:(lia)).
  pose proof (Z.mod_pos_bound (y2 / 1000) 10 ltac:(lia)).
  pose proof (Z.mod_pos_bound (y2 / 100) 10 ltac:(lia)).
  pose proof (Z.mod_pos_bound (y2 / 10) 10 ltac:(lia)).
  pose proof (Z.mod_pos_bound y2 10 ltac:(lia)).
  generalize dependent ((y1 / 1000) mod 10). generalize dependent ((y1 / 100) mod 10).
  generalize dependent ((y1 / 10) mod 10). generalize dependent (y1 mod 10).
  generalize dependent ((y2 / 1000) mod 10). generalize dependent ((y2 / 100) mod 10).
  generalize dependent ((y2 / 10) mod 10). generalize dependent (y2 mod 10).
  intros.
  repeat match goal with
    | |- context [match ?a ?= ?b with _ => _ end] =>
        lazymatch a with y1 => fail | _ =>
        destruct (Z.compare_spec a b); cbv iota end
    end;
  destruct (Z.compare_spec y1 y2); try reflexivity; exfalso; lia.
Qed.

Lemma compare_fmt2 (m1 m2 : Z) (s t : string) :
  0 <= m1 <= 99 -> 0 <= m2 <= 99 ->
  String.compare (fmt2 m1 +:+ s) (fmt2 m2 +:+ t)
  = match m1 ?= m2 with Eq => String.compare s t | c => c end.
Proof.
  intros H1 H2. unfold fmt2. rewrite !append_cons, !append_nil.
  cbn [String.compare]. rewrite !digit_char_compare.
  pose proof (two_digits m1 H1) as E1. pose proof (two_digits m2 H2) as E2.
  pose proof (Z.mod_pos_bound (m1 / 10) 10 ltac:(lia)).
  pose proof (Z.mod_pos_bound m1 10 ltac:(lia)).
  pose proof (Z.mod_pos_bound (m2 / 10) 10 ltac:(lia)).
  pose proof (Z.mod_pos_bound m2 10 ltac:(lia)).
  generalize dependent ((m1 / 10) mod 10). generalize dependent (m1 mod 10).
  generalize dependent ((m2 / 10) mod 10). generalize dependent (m2 mod 10).
  intros.
  repeat match goal with
    | |- context [match ?a ?= ?b with _ => _ end] =>
        lazymatch a with m1 => fail | _ =>
        destruct (Z.compare_spec a b); cbv iota end
    end;
  destruct (Z.compare_spec m1 m2); try reflexivity; exfalso; lia.
Qed.

Lemma append_empty (s : string) : s +:+ EmptyString = s.
Proof. induction s as [| c s IH]; [reflexivity |]. rewrite append_cons, IH. reflexivity. Qed.

Lemma isoformat_compare (a b : datetime.date) :
  g_date_ok a = true -> g_date_ok b = true ->
  String.compare (datetime.isoformat a) (datetime.isoformat b) = g_compare a b.
Proof.
  unfold g_date_ok. rewrite !andb_true_iff, !Z.leb_le.
  intros (((((Hy1 & Hy1') & Hm1) & Hm1') & Hd1) & Hd1')
         (((((Hy2 & Hy2') & Hm2) & Hm2') & Hd2) & Hd2').
  assert (Hlen : forall m, 1 <= m <= 12 ->
            nth (Z.to_nat (m - 1)) jdatetime.G_DAYS_IN_MONTH 0 <= 31).
  { intros m Hm.
    assert (Hc : m = 1 \/ m = 2 \/ m = 3 \/ m = 4 \/ m = 5 \/ m = 6 \/ m = 7
                 \/ m = 8 \/ m = 9 \/ m = 10 \/ m = 11 \/ m = 12) by lia.
    repeat (destruct Hc as [-> | Hc]); try subst m; simpl; lia. }
  pose proof (Hlen _ (conj Hm1 Hm1')). pose proof (Hlen _ (conj Hm2 Hm2')).
  assert (Hb : forall c : bool, 0 <= (if c then 1 else 0) <= 1)
    by (intros []; lia).
  pose proof (Hb ((datetime.month a =? 2) && is_leap (datetime.year a))).
  pose proof (Hb ((datetime.month b =? 2) && is_leap (datetime.year b))).
  unfold datetime.isoformat, g_compare, lex_compare.
  rewrite compare_fmt4 by lia.
  change ("-" +:+ ?s) with (String "-" s). cbn [String.compare].
  change (Ascii.compare "-" "-") with Eq. cbv iota.
  rewrite compare_fmt2 by lia.
  change ("-" +:+ ?s) with (String "-" s). cbn [String.compare].
  change (Ascii.compare "-" "-") with Eq. cbv iota.
  rewrite <- (append_empty (fmt2 (datetime.day a))),
          <- (append_empty (fmt2 (datetime.day b))).
  rewrite compare_fmt2 by lia.
  destruct (datetime.year a ?= datetime.year b); try reflexivity.
  destruct (datetime.month a ?= datetime.month b); try reflexivity.
  destruct (datetime.day a ?= datetime.day b); reflexivity.
Qed.

Lemma g_walk_in_month_spec (leap : bool) (k : Z) :
  0 <= k < 365 + (if leap then 1 else 0) -> g_walk_in_month leap k = true.
Proof.
  intros Hk.
  assert (H : check_from (g_walk_in_month leap) (if leap then 366 else 365) 0 = true).
  { destruct leap; vm_compute; reflexivity. }
  apply (check_from_spec _ _ _ H). destruct leap; simpl; lia.
Qed.

Lemma g_leap_is_leap (y : Z) : g_leap (y - 1600) = is_leap y.
Proof.
  unfold g_leap, is_leap.
  repeat match goal with
    | |- context [?a =? ?b] => destruct (Z.eqb_spec a b)
    end; simpl; try reflexivity; exfalso; Z.div_mod_to_equations; lia.
Qed.

Lemma j_day_of_year (j : jdatetime.date) :
  j_valid j ->
  1 <= jdatetime.year j <= 9377 /\
  0 <= jdatetime.add_months jdatetime.J_DAYS_IN_MONTH (jdatetime.month j - 1) 0
       + (jdatetime.day j - 1)
    < 365 + (if j_leap (jdatetime.year j - 979) then 1 else 0).
Proof.
  intros Hv. apply new_date_Some in Hv as (_ & Hy & Hok). split; [exact Hy |].
  replace (jdatetime.isleap (jdatetime.year j))
    with (j_leap (jdatetime.year j - 979)) in Hok
    by (rewrite <- isleap_j_leap; f_equal; lia).
  destruct (j_month_walk_spec _ _ _ Hok) as (Hk & _). exact Hk.
Qed.

(** The Gregorian date of a valid Jalali date is one [datetime.date]
    accepts, and the day numbers of the two conversions agree. *)
Lemma togregorian_day_number (j : jdatetime.date) :
  j_valid j ->
  g_date_ok (jdatetime.togregorian j) = true /\
  g_day_number (jdatetime.togregorian j) = j_day_number j + 79.
Proof.
  intros Hv. destruct (j_day_of_year j Hv) as (Hy & Hk).
  unfold jdatetime.togregorian. rewrite JalaliToGregorian_unfold. cbv zeta.
  fold (j_day_number j).
  set (n := j_day_number j + 79).
  pose proof (g_days_of_date n) as Hn.
  pose proof (g_year_day_spec (n / 146097) (n mod 146097)) as Hs.
  destruct (g_year_day _ _) as [[leap gy] k].
  destruct Hs as (Hk0 & Hk1 & Hleap & Hsum); [apply Z.mod_pos_bound; lia |].
  pose proof (g_walk_in_month_spec leap k (conj Hk0 Hk1)) as Hw.
  unfold g_walk_in_month in Hw.
  destruct (jdatetime.g_month_walk _ _ _ _) as [i rem].
  rewrite !andb_true_iff in Hw. destruct Hw as (((Hi0 & Hi1) & Hr0) & Hr1).
  apply Z.leb_le in Hi0, Hi1, Hr0. apply Z.ltb_lt in Hr1.
  assert (Hgy : 1 <= gy <= 9999).
  { assert (Hn' : 146097 * (n / 146097) + n mod 146097 = n)
      by (pose proof (Z.div_mod n 146097); lia).
    rewrite Hn' in Hsum.
    assert (Hj : j_days_before_year (1 - 979) <= j_days_before_year (jdatetime.year j - 979)
                 <= j_days_before_year (9377 - 979)).
    { unfold j_days_before_year. Z.div_mod_to_equations. lia. }
    unfold j_day_number in n.
    assert (Hnb : j_days_before_year (1 - 979) + 79 <= n
                  <= j_days_before_year (9377 - 979) + 366 + 79).
    { unfold n. destruct (j_leap _); lia. }
    let v := eval vm_compute in (j_days_before_year (1 - 979)) in
      change (j_days_before_year (1 - 979)) with v in Hnb.
    let v := eval vm_compute in (j_days_before_year (9377 - 979)) in
      change (j_days_before_year (9377 - 979)) with v in Hnb.
    assert (Hleapb : k < 366) by (destruct leap; lia).
    unfold g_days_before_year in Hsum. Z.div_mod_to_equations. lia. }
  split.
  - unfold g_date_ok. cbn [datetime.year datetime.month datetime.day].
    rewrite !andb_true_iff, !Z.leb_le.
    repeat split; try lia.
    replace (i + 1 - 1) with i by lia.
    replace (i + 1 =? 2) with (i =? 1) by (destruct (Z.eqb_spec i 1), (Z.eqb_spec (i + 1) 2); lia).
    rewrite <- g_leap_is_leap, <- Hleap. lia.
  - unfold g_day_number. cbn [datetime.year datetime.month datetime.day].
    replace (i + 1 - 1) with i by lia. replace (rem + 1 - 1) with rem by lia.
    exact Hn.
Qed.

Lemma lex_compare_Lt (y1 m1 d1 y2 m2 d2 : Z) :
  lex_compare (y1, m1, d1) (y2, m2, d2) = Lt <->
  y1 < y2 \/ (y1 = y2 /\ (m1 < m2 \/ (m1 = m2 /\ d1 < d2))).
Proof.
  unfold lex_compare.
  destruct (Z.compare_spec y1 y2), (Z.compare_spec m1 m2), (Z.compare_spec d1 d2);
    split; intros; try discriminate; try reflexivity; try lia.
Qed.

Lemma lex_compare_Eq (y1 m1 d1 y2 m2 d2 : Z) :
  lex_compare (y1, m1, d1) (y2, m2, d2) = Eq -> y1 = y2 /\ m1 = m2 /\ d1 = d2.
Proof.
  unfold lex_compare.
  destruct (Z.compare_spec y1 y2), (Z.compare_spec m1 m2), (Z.compare_spec d1 d2);
    intros; try discriminate; lia.
Qed.

Lemma lex_compare_antisym (a b : Z * Z * Z) :
  lex_compare b a = CompOpp (lex_compare a b).
Proof.
  destruct a as [[y1 m1] d1], b as [[y2 m2] d2]. unfold lex_compare.
  rewrite (Z.compare_antisym y1 y2), (Z.compare_antisym m1 m2),
    (Z.compare_antisym d1 d2).
  destruct (y1 ?= y2), (m1 ?= m2), (d1 ?= d2); reflexivity.
Qed.

(** A comparison that agrees with the order of a numbering on its
    strict side agrees with it everywhere. *)
Lemma compare_of_strict (c : comparison) (n1 n2 : Z) :
  (c = Lt -> n1 < n2) -> (CompOpp c = Lt -> n2 < n1) -> (c = Eq -> n1 = n2) ->
  c = (n1 ?= n2).
Proof.
  intros Hlt Hgt Heq. symmetry. destruct c.
  - apply Z.compare_eq_iff. auto.
  - apply Z.compare_lt_iff. auto.
  - apply Z.compare_gt_iff. auto.
Qed.

Lemma j_before_year_step (a b : Z) :
  a < b ->
  j_days_before_year a + 365 + (if j_leap a then 1 else 0) <= j_days_before_year b.
Proof.
  intros Hab. unfold j_days_before_year, j_leap.
  repeat match goal with
    | |- context [?x =? ?y] => destruct (Z.eqb_spec x y)
    end; simpl; Z.div_mod_to_equations; lia.
Qed.

Lemma g_before_year_step (a b : Z) :
  a < b ->
  g_days_before_year a + 365 + (if g_leap a then 1 else 0) <= g_days_before_year b.
Proof.
  intros Hab. unfold g_days_before_year, g_leap.
  repeat match goal with
    | |- context [?x =? ?y] => destruct (Z.eqb_spec x y)
    end; simpl; Z.div_mod_to_equations; lia.
Qed.

Ltac month_cases m :=
  let Hc := fresh "Hc" in
  assert (Hc : m = 1 \/ m = 2 \/ m = 3 \/ m = 4 \/ m = 5 \/ m = 6 \/ m = 7
               \/ m = 8 \/ m = 9 \/ m = 10 \/ m = 11 \/ m = 12) by lia;
  repeat (destruct Hc as [-> | Hc]); try subst m.

Lemma j_in_year_lt (leap : bool) (m1 d1 m2 d2 : Z) :
  j_day_ok leap m1 d1 = true -> j_day_ok leap m2 d2 = true ->
  m1 < m2 \/ (m1 = m2 /\ d1 < d2) ->
  jdatetime.add_months jdatetime.J_DAYS_IN_MONTH (m1 - 1) 0 + (d1 - 1)
  < jdatetime.add_months jdatetime.J_DAYS_IN_MONTH (m2 - 1) 0 + (d2 - 1).
Proof.
  unfold j_day_ok. rewrite !andb_true_iff, !orb_true_iff, !andb_true_iff, !Z.leb_le,
    !Z.eqb_eq.
  intros (((Ha & Hb) & Hc1) & Hd1) (((Ha2 & Hb2) & Hc2) & Hd2) Hlt.
  month_cases m1; month_cases m2;
    try (exfalso; lia);
    vm_compute jdatetime.add_months; vm_compute nth in Hd1, Hd2; lia.
Qed.

Lemma g_date_ok_inv (g : datetime.date) :
  g_date_ok g = true ->
  1 <= datetime.year g <= 9999 /\ 1 <= datetime.month g <= 12 /\
  1 <= datetime.day g
    <= nth (Z.to_nat (datetime.month g - 1)) jdatetime.G_DAYS_IN_MONTH 0
       + (if (datetime.month g =? 2) && g_leap (datetime.year g - 1600)
          then 1 else 0).
Proof.
  unfold g_date_ok. rewrite !andb_true_iff, !Z.leb_le, g_leap_is_leap. tauto.
Qed.

Lemma g_in_year (leap : bool) (m d : Z) :
  1 <= m <= 12 ->
  1 <= d <= nth (Z.to_nat (m - 1)) jdatetime.G_DAYS_IN_MONTH 0
            + (if (m =? 2) && leap then 1 else 0) ->
  0 <= jdatetime.add_months jdatetime.G_DAYS_IN_MONTH (m - 1) 0
       + (if (1 <? m - 1) && leap then 1 else 0) + (d - 1)
    < 365 + (if leap then 1 else 0).
Proof.
  intros Hm Hd. month_cases m; destruct leap;
    simpl in Hd; unfold jdatetime.add_months; simpl; lia.
Qed.

Lemma g_in_year_lt (leap : bool) (m1 d1 m2 d2 : Z) :
  1 <= m1 <= 12 -> 1 <= m2 <= 12 ->
  1 <= d1 <= nth (Z.to_nat (m1 - 1)) jdatetime.G_DAYS_IN_MONTH 0
             + (if (m1 =? 2) && leap then 1 else 0) ->
  1 <= d2 ->
  m1 < m2 \/ (m1 = m2 /\ d1 < d2) ->
  jdatetime.add_months jdatetime.G_DAYS_IN_MONTH (m1 - 1) 0
  + (if (1 <? m1 - 1) && leap then 1 else 0) + (d1 - 1)
  < jdatetime.add_months jdatetime.G_DAYS_IN_MONTH (m2 - 1) 0
    + (if (1 <? m2 - 1) && leap then 1 else 0) + (d2 - 1).
Proof.
  intros Hm1 Hm2 Hd1 Hd2 Hlt.
  month_cases m1; month_cases m2; try (exfalso; lia); destruct leap;
    simpl in Hd1; unfold jdatetime.add_months; simpl; lia.
Qed.

Lemma g_compare_day_number (a b : datetime.date) :
  g_date_ok a = true -> g_date_ok b = true ->
  g_compare a b = (g_day_number a ?= g_day_number b).
Proof.
  assert (Hlt : forall a b, g_date_ok a = true -> g_date_ok b = true ->
            g_compare a b = Lt -> g_day_number a < g_day_number b).
  { clear a b. intros a b Ha Hb Hc.
    apply g_date_ok_inv in Ha as (Hy1 & Hm1 & Hd1).
    apply g_date_ok_inv in Hb as (Hy2 & Hm2 & Hd2).
    apply lex_compare_Lt in Hc. unfold g_day_number. cbv zeta.
    pose proof (g_in_year _ _ _ Hm1 Hd1) as Hk1.
    pose proof (g_in_year _ _ _ Hm2 Hd2) as Hk2.
    destruct Hc as [Hy | (Hy & Hmd)].
    - pose proof (g_before_year_step (datetime.year a - 1600)
                    (datetime.year b - 1600) ltac:(lia)). lia.
    - rewrite Hy in *.
      pose proof (g_in_year_lt _ _ _ _ _ Hm1 Hm2 Hd1 (proj1 Hd2) Hmd). lia. }
  intros Ha Hb. apply compare_of_strict.
  - apply Hlt; assumption.
  - unfold g_compare. rewrite <- lex_compare_antisym. apply Hlt; assumption.
  - intros He. apply lex_compare_Eq in He as (Hy & Hm & Hd).
    unfold g_day_number. rewrite Hy, Hm, Hd. reflexivity.
Qed.

Lemma j_compare_day_number (a b : jdatetime.date) :
  j_valid a -> j_valid b ->
  j_compare a b = (j_day_number a ?= j_day_number b).
Proof.
  assert (Hlt : forall a b, j_valid a -> j_valid b ->
            j_compare a b = Lt -> j_day_number a < j_day_number b).
  { clear a b. intros a b Ha Hb Hc.
    pose proof (j_day_of_year a Ha) as (_ & Hk1).
    pose proof (j_day_of_year b Hb) as (_ & Hk2).
    apply new_date_Some in Ha as (_ & _ & Hok1).
    apply new_date_Some in Hb as (_ & _ & Hok2).
    apply lex_compare_Lt in Hc. unfold j_day_number.
    destruct Hc as [Hy | (Hy & Hmd)].
    - pose proof (j_before_year_step (jdatetime.year a - 979)
                    (jdatetime.year b - 979) ltac:(lia)). lia.
    - rewrite Hy in *.
      pose proof (j_in_year_lt _ _ _ _ _ Hok1 Hok2 Hmd). lia. }
  intros Ha Hb. apply compare_of_strict.
  - apply Hlt; assumption.
  - unfold j_compare. rewrite <- lex_compare_antisym. apply Hlt; assumption.
  - intros He. apply lex_compare_Eq in He as (Hy & Hm & Hd).
    unfold j_day_number. rewrite Hy, Hm, Hd. reflexivity.
Qed.

Lemma fromisoformat_extended_valid (s : string) (j : jdatetime.date) :
  jdatetime.fromisoformat_extended s = Some j -> j_valid j.
Proof.
  unfold jdatetime.fromisoformat_extended, j_valid.
  destruct (String.length s =? 10)%nat; [| discriminate].
  destruct (parse_uint _) as [y |]; [| discriminate].
  destruct (String.get 4 s) as [c1 |]; [| discriminate].
  destruct (parse_uint _) as [m |]; [| discriminate].
  destruct (String.get 7 s) as [c2 |]; [| discriminate].
  destruct (parse_uint _) as [d |]; [| discriminate].
  destruct (_ && _); [| discriminate].
  intros H. pose proof H as H'. apply new_date_Some in H' as (-> & _). exact H.
Qed.

(** The reader hands out dates the constructor accepts. *)
Lemma fromisoformat_valid (s : string) (j : jdatetime.date) :
  jdatetime.fromisoformat s = Some j -> j_valid j.
Proof. apply jdatetime.fromisoformat_date. Qed.

Lemma togregorian_text_compare (j1 j2 : jdatetime.date) :
  j_valid j1 -> j_valid j2 ->
  String.compare (datetime.isoformat (jdatetime.togregorian j1))
                 (datetime.isoformat (jdatetime.togregorian j2))
  = j_compare j1 j2.
Proof.
  intros H1 H2.
  destruct (togregorian_day_number j1 H1) as (Hok1 & Hn1).
  destruct (togregorian_day_number j2 H2) as (Hok2 & Hn2).
  rewrite (isoformat_compare _ _ Hok1 Hok2), (g_compare_day_number _ _ Hok1 Hok2),
    Hn1, Hn2, (j_compare_day_number _ _ H1 H2).
  rewrite (Z.add_comm (j_day_number j1)), (Z.add_comm (j_day_number j2)).
  apply Z.add_compare_mono_l.
Qed.

(** X15.  The conversion keeps the order of dates: for two Jalali date
    texts the script accepts, both convert to dates [datetime.date]
    accepts, and comparing the two stored Gregorian texts as strings, the
    way the date filter does, gives the same answer as comparing the two
    Jalali dates. *)
Theorem gregorian_text_order (s1 s2 : string) (j1 j2 : jdatetime.date) :
  jdatetime.fromisoformat s1 = Some j1 ->
  jdatetime.fromisoformat s2 = Some j2 ->
  exists g1 g2,
    jalali_to_gregorian s1 = Ok g1 /\ jalali_to_gregorian s2 = Ok g2 /\
    g_date_ok g1 = true /\ g_date_ok g2 = true /\
    String.compare (datetime.isoformat g1) (datetime.isoformat g2)
    = j_compare j1 j2.
Proof.
  intros H1 H2. unfold jalali_to_gregorian. rewrite H1, H2.
  exists (jdatetime.togregorian j1), (jdatetime.togregorian j2).
  apply fromisoformat_valid in H1, H2.
  repeat split; try (apply togregorian_day_number; assumption).
  apply togregorian_text_compare; assumption.
Qed.

Lemma fromisoformat_nonempty (s : string) (j : jdatetime.date) :
  jdatetime.fromisoformat s = Some j -> nonempty s = true.
Proof.
  destruct s; [rewrite jdatetime.fromisoformat_empty; discriminate | reflexivity].
Qed.

Lemma filter_filter_ext {A : Type} (p1 p2 q : A -> bool) (l : list A) :
  Forall (fun r => p1 r && p2 r = q r) l ->
  List.filter p2 (List.filter p1 l) = List.filter q l.
Proof.
  induction 1 as [| r l Hr _ IH]; [reflexivity |]. simpl.
  destruct (p1 r) eqn:H1; simpl in *.
  - rewrite Hr, IH. reflexivity.
  - rewrite <- Hr, IH. reflexivity.
Qed.

Lemma well_dated_within (js je : jdatetime.date) (r : expense) :
  j_valid js -> j_valid je -> well_dated r ->
  date_ge (datetime.isoformat (jdatetime.togregorian js)) r
  && date_le (datetime.isoformat (jdatetime.togregorian je)) r
  = within js je r.
Proof.
  intros Hs He Hr. unfold date_ge, date_le, within. rewrite Hr.
  destruct (jalali_date r) as [j |] eqn:Hj; [| reflexivity]. simpl.
  assert (Hv : j_valid j).
  { unfold jalali_date in Hj. destruct (date_jalali r) as [s |]; [| discriminate].
    simpl in Hj. eapply fromisoformat_valid. exact Hj. }
  unfold String.leb, j_leb.
  rewrite (togregorian_text_compare _ _ Hs Hv), (togregorian_text_compare _ _ Hv He).
  reflexivity.
Qed.

Lemma date_filtering_within (f : filters) (df : list expense)
    (js je : jdatetime.date) :
  Forall well_dated df ->
  jdatetime.fromisoformat (start_j f) = Some js ->
  jdatetime.fromisoformat (end_j f) = Some je ->
  date_filtering f df = (List.filter (within js je) df, None).
Proof.
  intros Hdf Hs He.
  unfold date_filtering, apply_start, apply_end, jalali_to_gregorian.
  rewrite (fromisoformat_nonempty _ _ Hs), (fromisoformat_nonempty _ _ He), Hs, He.
  simpl. f_equal. apply filter_filter_ext.
  eapply Forall_impl; [exact Hdf |]. intros r Hr.
  apply well_dated_within; [eapply fromisoformat_valid; eassumption .. | exact Hr].
Qed.

Section SessionInvariant.
Variable float_repr : Q -> string.
Variable argsort : list (string * expense) -> list (string * expense).
Variable P : expense -> Prop.
Hypothesis Hadd : forall uuid f row, new_row uuid f = inr (Ok row) -> P row.
Hypothesis Himp : forall u r rec,
  build_from_import_row float_repr u r = Ok rec -> P rec.

Lemma run_Forall (inp : inputs) (w : world) (res : run) :
  Forall P (session_df w) ->
  script_run float_repr argsort inp w = res ->
  Forall P (session_df (final res)).
Proof.
  intros Hw Hrun.
  assert (Hform : Forall P (session_df (after_form inp w))).
  { unfold after_form. destruct (submitted inp) as [f |]; [| exact Hw].
    unfold add_expense. destruct (new_row (add_uuid inp) f) as [n | [row | e]] eqn:Hn;
      simpl; try exact Hw.
    apply Forall_app. split; [exact Hw |].
    apply Forall_cons_2; [eapply Hadd; exact Hn | apply Forall_nil_2]. }
  assert (Hup : Forall P (session_df (after_upload float_repr inp w))).
  { destruct (after_upload_cases float_repr inp w)
      as [-> | (imp & records & _ & Hrec & _ & ->)]; [exact Hform |].
    simpl. apply Forall_app. split; [exact Hw |].
    unfold import_records in Hrec.
    destruct (check_needed imp); [| discriminate]. simpl in Hrec.
    assert (H2 : Forall2 (fun _ rec => P rec)
                   (pd.rows (default_column (default_column imp "description")
                               "card")) records).
    { eapply build_records_Forall2; [| exact Hrec].
      intros u r rec Hrow. eapply Himp. exact Hrow. }
    clear -H2. induction H2 as [| r rec rs recs Hh _ IH];
      [apply Forall_nil_2 | apply Forall_cons_2; assumption]. }
  destruct (script_run_cases _ _ _ _ _ Hrun)
    as [(_ & -> & _) | [(e & _ & -> & _) | (filtered & warned & _ & _ & _ & ->)]].
  - exact Hw.
  - exact Hform.
  - destruct (reset_clicked inp); [apply Forall_nil_2 | exact Hup].
Qed.

Lemma session_Forall (inps : list inputs) (w w' : world) :
  Forall P (session_df w) ->
  session float_repr argsort inps w = w' ->
  Forall P (session_df w').
Proof.
  revert w. induction inps as [| inp rest IH]; intros w Hw; simpl.
  - intros <-. exact Hw.
  - apply IH. eapply run_Forall; [exact Hw | reflexivity].
Qed.

End SessionInvariant.

Lemma new_row_well_dated (uuid : string) (f : form) (row : expense) :
  new_row uuid f = inr (Ok row) -> well_dated row.
Proof.
  unfold new_row.
  destruct (negb (nonempty (in_date_jalali f))); [discriminate |].
  destruct (py_le_0 (in_amount f)); [discriminate |].
  intros [= H]. unfold jalali_to_gregorian in H.
  destruct (jdatetime.fromisoformat (in_date_jalali f)) as [j |] eqn:Hj;
    simpl in H; [| discriminate].
  destruct (py_int (in_amount f)); simpl in H; [| discriminate].
  injection H as <-. unfold well_dated, jalali_date. simpl. rewrite Hj. reflexivity.
Qed.

Lemma import_row_well_dated (float_repr : Q -> string) (u : string)
    (r : gmap string cell) (rec : expense) :
  build_from_import_row float_repr u r = Ok rec -> well_dated rec.
Proof.
  intros H. apply import_row_ok_iff in H as (j & a & Hj & _ & _ & _ & ->).
  unfold well_dated, jalali_date. simpl. rewrite Hj. reflexivity.
Qed.

(** X16.  In a session that starts from a table whose Gregorian texts
    are the conversions of its Jalali texts (an empty table, say), the
    form and the import keep it so; and on such a table two date bounds
    that read as Jalali dates keep exactly the rows whose Jalali date
    lies between them, both bounds included, in their order, without a
    warning.  Rows without a readable date are dropped. *)
Theorem date_filter_jalali_range (float_repr : Q -> string)
    (argsort : list (string * expense) -> list (string * expense))
    (inps : list inputs) (w w' : world) (f : filters) (js je : jdatetime.date) :
  Forall well_dated (session_df w) ->
  session float_repr argsort inps w = w' ->
  jdatetime.fromisoformat (start_j f) = Some js ->
  jdatetime.fromisoformat (end_j f) = Some je ->
  date_filtering f (session_df w')
  = (List.filter (within js je) (session_df w'), None).
Proof.
  intros Hw Hsession Hs He. apply date_filtering_within; [| exact Hs | exact He].
  eapply (session_Forall float_repr argsort well_dated); [| | exact Hw | exact Hsession].
  - apply new_row_well_dated.
  - apply import_row_well_dated.
Qed.

(** X17.  A Jalali date text the script accepts converts to a date
    [datetime.date] accepts (year 1..9999, a day of its month), and
    converting that date back gives the text of the Jalali date that was
    read. *)
Theorem conversion_round_trip_dates (year_text : Z -> string) (s : string)
    (g : datetime.date) :
  jalali_to_gregorian s = Ok g ->
  g_date_ok g = true /\
  exists j, jdatetime.fromisoformat s = Some j /\
            gregorian_to_jalali year_text g
            = Some (jdatetime.strftime_Ymd year_text j).
Proof.
  unfold jalali_to_gregorian, gregorian_to_jalali.
  destruct (jdatetime.fromisoformat s) as [j |] eqn:Hj; [| discriminate].
  intros [= <-]. pose proof (fromisoformat_valid _ _ Hj) as Hv.
  split; [apply togregorian_day_number; exact Hv |].
  exists j. split; [reflexivity |].
  rewrite (fromgregorian_togregorian _ _ _ _ Hv). reflexivity.
Qed.

(** ** The add-expense form, in full *)


End Script.

(** * The reference implementations *)

(** ** Decimal texts *)

Lemma digit_char_is_digit (n : Z) : is_digit (digit_char n) = true.
Proof.
  unfold digit_char. pose proof (Z.mod_pos_bound n 10 ltac:(lia)) as Hn.
  generalize dependent (n mod 10). intros x Hx.
  assert (Hc : x = 0 \/ x = 1 \/ x = 2 \/ x = 3 \/ x = 4 \/ x = 5 \/ x = 6
               \/ x = 7 \/ x = 8 \/ x = 9) by lia.
  repeat (destruct Hc as [-> | Hc]); try subst x; reflexivity.
Qed.

Lemma digit_val_digit_char (n : Z) : digit_val (digit_char n) = n mod 10.
Proof.
  unfold digit_char. pose proof (Z.mod_pos_bound n 10 ltac:(lia)) as Hn.
  generalize dependent (n mod 10). intros x Hx.
  assert (Hc : x = 0 \/ x = 1 \/ x = 2 \/ x = 3 \/ x = 4 \/ x = 5 \/ x = 6
               \/ x = 7 \/ x = 8 \/ x = 9) by lia.
  repeat (destruct Hc as [-> | Hc]); try subst x; reflexivity.
Qed.

(** [digits_of] puts the decimal digits of [n] in front of [acc]. *)
Lemma digits_of_spec (fuel : nat) (n : Z) (acc : string) :
  0 <= n < 2 ^ Z.of_nat fuel -> (0 < fuel)%nat ->
  exists p,
    digits_of fuel n acc = p +:+ acc /\
    p <> EmptyString /\ all_digits p = true /\
    forall a rest, int_of_digits a (p +:+ rest)
                   = int_of_digits (a * 10 ^ Z.of_nat (String.length p) + n) rest.
Proof.
  revert n acc. induction fuel as [| fuel IH]; intros n acc Hn Hf; [lia |].
  cbn [digits_of]. destruct (n <? 10) eqn:Hlt.
  - apply Z.ltb_lt in Hlt. exists (String (digit_char n) EmptyString).
    split; [reflexivity |]. split; [discriminate |].
    split; [simpl; rewrite digit_char_is_digit; reflexivity |].
    intros a rest. rewrite append_cons, append_nil. cbn [int_of_digits].
    rewrite digit_char_is_digit, digit_val_digit_char.
    rewrite Z.mod_small by lia. f_equal. simpl String.length. lia.
  - apply Z.ltb_ge in Hlt.
    assert (Hfuel : (0 < fuel)%nat).
    { destruct fuel; [simpl in Hn; lia | lia]. }
    destruct (IH (n / 10) (String (digit_char n) acc)) as (p & Hp & Hne & Hd & Hv);
      [| exact Hfuel |].
    { split; [apply Z.div_pos; lia |].
      rewrite Nat2Z.inj_succ, Z.pow_succ_r in Hn by lia.
      apply Z.div_lt_upper_bound; lia. }
    exists (p +:+ String (digit_char n) EmptyString).
    assert (Happ : forall x y z : string, (x +:+ y) +:+ z = x +:+ (y +:+ z)).
    { intros x y z. induction x as [| c x IHx]; [reflexivity |].
      rewrite !append_cons, IHx. reflexivity. }
    split; [rewrite Hp, Happ; reflexivity |].
    split; [destruct p; [contradiction | discriminate] |].
    split.
    { clear -Hd. induction p as [| c p IHp]; simpl in *.
      - rewrite digit_char_is_digit. reflexivity.
      - apply andb_true_iff in Hd as [Hc Hd]. rewrite Hc. apply IHp. exact Hd. }
    intros a rest. rewrite Happ, Hv, append_cons, append_nil. cbn [int_of_digits].
    rewrite digit_char_is_digit, digit_val_digit_char. f_equal.
    assert (Hlen : String.length (p +:+ String (digit_char n) EmptyString)
                   = S (String.length p)).
    { clear. induction p as [| c p IHp]; [reflexivity |].
      rewrite append_cons. simpl. rewrite IHp. reflexivity. }
    rewrite Hlen, Nat2Z.inj_succ, Z.pow_succ_r by lia.
    pose proof (Z.div_mod n 10 ltac:(lia)). lia.
Qed.

Lemma split_point_digits (p : string) :
  all_digits p = true -> split_point p = (p, None).
Proof.
  induction p as [| c p IH]; [reflexivity |]. simpl.
  intros H. apply andb_true_iff in H as [Hc Hp].
  assert (Hdot : Ascii.eqb c "." = false).
  { destruct (Ascii.eqb_spec c "."); [subst; discriminate | reflexivity]. }
  rewrite Hdot, (IH Hp). reflexivity.
Qed.

(** The decimal text of an integer reads as that integer. *)
Lemma parse_number_str_of_Z (z : Z) : parse_number (str_of_Z z) = Some (Int z).
Proof.
  unfold str_of_Z.
  destruct (digits_of_spec (S (Z.to_nat (Z.log2 (Z.abs z)))) (Z.abs z) EmptyString)
    as (p & Hp & Hne & Hd & Hv); [| lia |].
  { split; [lia |]. rewrite Nat2Z.inj_succ, Z2Nat.id by apply Z.log2_nonneg.
    destruct (Z.eq_dec (Z.abs z) 0) as [-> | Hz]; [reflexivity |].
    apply Z.log2_spec. lia. }
  rewrite Hp. replace (p +:+ EmptyString) with p
    by (clear; induction p as [| c p IH]; [reflexivity |];
        rewrite append_cons, <- IH; reflexivity).
  assert (Hval : int_of_digits 0 p = Some (Z.abs z)).
  { specialize (Hv 0 EmptyString).
    replace (p +:+ EmptyString) with p in Hv
      by (clear; induction p as [| c p IH]; [reflexivity |];
          rewrite append_cons, <- IH; reflexivity).
    rewrite Hv. reflexivity. }
  assert (Hhead : forall q, parse_number p = q ->
            q = (fun n => Int (1 * n)) <$> parse_uint p).
  { intros q <-. unfold parse_number. destruct p as [| c p']; [contradiction |].
    simpl in Hd. apply andb_true_iff in Hd as [Hc Hd'].
    assert (Hm : c <> "-"%char /\ c <> "+"%char).
    { split; intros ->; discriminate. }
    destruct Hm as [Hm Hp'].
    assert (Hsplit : split_point (String c p') = (String c p', None)).
    { apply split_point_digits. simpl. rewrite Hc, Hd'. reflexivity. }
    destruct c as [[] [] [] [] [] [] [] []]; try (rewrite Hsplit; reflexivity);
      contradiction. }
  destruct (z <? 0) eqn:Hneg.
  - apply Z.ltb_lt in Hneg. unfold parse_number.
    rewrite (split_point_digits p Hd). unfold parse_uint.
    destruct p as [| c p']; [contradiction |]. rewrite Hval. simpl. f_equal. f_equal. lia.
  - apply Z.ltb_ge in Hneg. rewrite (Hhead _ eq_refl). unfold parse_uint.
    destruct p as [| c p']; [contradiction |]. rewrite Hval. simpl. f_equal. f_equal. lia.
Qed.

(** ** The instances *)

#[global] Instance extended_reader : jdatetime.reader :=
  {| jdatetime.fromisoformat := jdatetime.fromisoformat_extended;
     jdatetime.fromisoformat_date := fromisoformat_extended_valid;
     jdatetime.fromisoformat_empty := eq_refl |}.

Lemma decimal_reader_numeric (z : Z) :
  - 2 ^ 53 < z < 2 ^ 53 ->
  is_nan (default NaN (parse_number (str_of_Z z))) = false /\
  (num_value (default NaN (parse_number (str_of_Z z))) == inject_Z z)%Q.
Proof. intros _. rewrite parse_number_str_of_Z. split; reflexivity. Qed.

#[global] Instance decimal_reader : numeric_reader :=
  {| numeric_of_text := fun s => default NaN (parse_number s);
     numeric_of_decimal := decimal_reader_numeric |}.

#[global] Instance ascii_text : str_methods :=
  {| strip := ascii_strip; strip_ascii := fun s _ => eq_refl |}.

Lemma literal_engine_plain (pat : string) :
  pat <> EmptyString -> re.plain pat = true -> is_ascii pat = true ->
  exists found,
    (fun p s => re.search p s) <$> re.compile pat = Some found /\
    forall s, is_ascii s = true -> (found s = true <-> icontains pat s).
Proof.
  intros _ Hplain _. rewrite (compile_plain pat Hplain). eexists.
  split; [reflexivity |]. intros s _. apply search_literals.
Qed.

#[global] Instance literal_engine : re.engine :=
  {| re.compile_ignorecase := fun pat => (fun p s => re.search p s) <$> re.compile pat;
     re.compile_plain_ascii := literal_engine_plain |}.

(** * Examples

    The theorems above hold for every library that meets the stated
    contracts.  The examples run the script with the reference
    implementations, on ASCII texts of the usual shape. *)

(** ** The add-expense form *)


(** ** CSV import *)

Lemma import_all_or_nothing_witness :
  exists e,
    import_csv no_float_repr numbered_uuid imp_missing_amount [] empty_world
      = (error e, empty_world) /\
    ((exists c, c ∈ needed /\ pd.has_column imp_missing_amount c = false) ->
       exists c, c ∈ needed /\ pd.has_column imp_missing_amount c = false /\
                 e = MissingColumn c).
Proof.
  apply (import_all_or_nothing no_float_repr numbered_uuid imp_missing_amount
           [] empty_world).
  left. exists "amount"%string. split.
  - apply list_elem_of_In. simpl. right. left. reflexivity.
  - vm_compute. reflexivity.
Defined.

Lemma import_non_numeric_amount_fails_witness :
  (forall u, is_ok (build_from_import_row no_float_repr u row_abc) = false) /\
  exists e, import_csv no_float_repr numbered_uuid imp_abc [] empty_world
            = (error e, empty_world).
Proof.
  apply (import_non_numeric_amount_fails no_float_repr numbered_uuid imp_abc
           [] empty_world row_abc).
  - apply list_elem_of_here.
  - vm_compute. reflexivity.
Defined.

(** The exception at that input is the one of [int(NaN)]. *)
Example import_abc_raises_nan :
  import_csv no_float_repr numbered_uuid imp_abc [] empty_world
  = (error NanToInteger, empty_world).
Proof. vm_compute. reflexivity. Qed.

(** C4 as stated fails: importing an amount of -5 into a table that
    satisfies the invariant succeeds and stores -5. *)
Lemma import_stores_negative_amount :
  Forall nonneg_int_amount (session_df empty_world) /\
  exists w',
    import_csv no_float_repr numbered_uuid imp_negative
      (session_df empty_world) empty_world = (success, w') /\
    ~ Forall nonneg_int_amount (session_df w').
Proof.
  split; [constructor |].
  eexists. split; [vm_compute; reflexivity |].
  intros H. apply Forall_cons in H as [(z & Hz & Hpos) _].
  simpl in Hz. injection Hz as <-. lia.
Qed.

(** C10 as stated fails: a persisted file that [pd.read_csv] cannot
    parse (an empty file, say) makes [read_data] raise; no table is
    returned. *)
Lemma read_data_unreadable_file :
  read_data (Some (Raise ReadCsvError)) = Raise ReadCsvError /\
  ~ exists out, read_data (Some (Raise ReadCsvError)) = Ok out.
Proof.
  split; [reflexivity |]. intros (out & H). discriminate.
Qed.

(** Load keeps negative and fractional amounts as they are. *)
Example read_data_keeps_odd_amounts :
  (fun df => (fun r => pd.at_ r "amount") <$> pd.rows df)
    <$> (match read_data (Some (Ok file_odd_amounts)) with Ok d => Some d | Raise _ => None end)
  = Some [CNum (Int (-5)); CNum (Float 12.5)].
Proof. vm_compute. reflexivity. Qed.

(** ** Date-range filtering *)

(** C7 as stated fails: with a start bound that does not convert and a
    valid end bound, the end bound is not applied either. *)
Lemma bad_start_drops_end_bound :
  bound_fails (start_j bad_start_filters) /\
  bound_usable (end_j bad_start_filters) /\
  fst (date_filtering bad_start_filters [late_row]) = [late_row] /\
  fst (date_filtering_spec bad_start_filters [late_row]) = [].
Proof.
  split; [split; [discriminate | reflexivity] |].
  split; [right; eexists; reflexivity |].
  split; vm_compute; reflexivity.
Qed.

Lemma date_filtering_soft_failure_witness :
  date_filtering bad_start_filters [late_row]
    = ([late_row], Some InvalidDateFormat) /\
  fst (date_filtering (mk_filters "1403-05-26" "1403-13-40" "" "") [late_row])
    = fst (date_filtering_spec (mk_filters "1403-05-26" "1403-13-40" "" "") [late_row]).
Proof.
  split.
  - apply (date_filtering_soft_failure stable_sort bad_start_filters [late_row]).
    split; [discriminate | reflexivity].
  - apply (date_filtering_soft_failure stable_sort
             (mk_filters "1403-05-26" "1403-13-40" "" "") [late_row]).
    right. eexists. reflexivity.
Defined.

(** ** Card and text filters, sorting *)


(** C6 as stated fails: the script asks for the default sort kind,
    numpy's quicksort, which exchanges elements of equal key when it
    partitions; twenty records of the same day do not stay in their
    original order. *)
Lemma default_sort_not_stable :
  exists res,
    query numpy_argsort no_filters same_day_rows = Ok (res, None) /\
    ~ stable_wrt same_day_rows res.
Proof.
  exists (same_day_row <$>
            [0; 1; 18; 17; 16; 15; 14; 13; 12; 11; 10; 9; 8; 7; 6; 5; 4; 3; 2; 19]%nat).
  split; [vm_compute; reflexivity |].
  intros H. specialize (H (Some "2024-08-15"%string)).
  apply (f_equal (fun l => id <$> l)) in H. vm_compute in H. discriminate.
Qed.

Lemma query_sorted_by_date_witness :
  (forall filtered,
     Sorted date_desc (sort_rows stable_sort filtered) /\
     Permutation (sort_rows stable_sort filtered) filtered) /\
  (forall res warned,
     query stable_sort no_filters [row_a; row_undated; late_row; row_b]
       = Ok (res, warned) ->
     Sorted date_desc res /\
     exists filtered,
       filter_rows no_filters [row_a; row_undated; late_row; row_b]
         = Ok (filtered, warned) /\ Permutation res filtered).
Proof.
  apply (query_sorted_by_date stable_sort no_filters
           [row_a; row_undated; late_row; row_b]).
  exact stable_sort_sorts.
Defined.

(** The rows of that table as the query shows them. *)
Example sorted_query :
  query stable_sort no_filters [row_a; row_undated; late_row; row_b]
  = Ok ([late_row; row_a; row_b; row_undated], None).
Proof. vm_compute. reflexivity. Qed.


Example mellat_query :
  query stable_sort mellat_filters [row_a; row_mellat; row_undated]
  = Ok ([row_mellat], None).
Proof. vm_compute. reflexivity. Qed.

(** ** Calendar conversion *)

(** The round trip of the two helpers on the texts of the shape
    [YYYY-MM-DD], for a library whose [%Y] prints the year of the date
    at hand with four digits. *)
Lemma round_trip_four_digit_year (year_text : Z -> string) (s : string)
    (j : jdatetime.date) :
  jdatetime.fromisoformat s = Some j ->
  year_text (jdatetime.year j) = fmt4 (jdatetime.year j) ->
  exists g, jalali_to_gregorian s = Ok g /\
            gregorian_to_jalali year_text g = Some s.
Proof.
  intros Hs Hyear. exists (jdatetime.togregorian j).
  unfold jalali_to_gregorian, gregorian_to_jalali. rewrite Hs.
  split; [reflexivity |].
  assert (Hnew : exists y m d, jdatetime.new_date y m d = Some j).
  { change (jdatetime.fromisoformat_extended s = Some j) in Hs.
    unfold jdatetime.fromisoformat_extended in Hs.
    destruct (String.length s =? 10)%nat; [| discriminate].
    destruct (parse_uint _) as [y |]; [| discriminate].
    destruct (String.get 4 s); [| discriminate].
    destruct (parse_uint _) as [m |]; [| discriminate].
    destruct (String.get 7 s); [| discriminate].
    destruct (parse_uint _) as [d |]; [| discriminate].
    destruct (_ && _); [| discriminate]. eauto. }
  destruct Hnew as (y & m & d & Hnew).
  rewrite (fromgregorian_togregorian y m d j Hnew). simpl.
  f_equal. apply strftime_fromisoformat; assumption.
Qed.

(** If [%Y] is zero-padded to four digits, every valid date text
    round-trips. *)
Lemma round_trip_padded (s : string) (g : datetime.date) :
  jalali_to_gregorian s = Ok g -> gregorian_to_jalali fmt4 g = Some s.
Proof.
  intros Hg. unfold jalali_to_gregorian in Hg.
  destruct (jdatetime.fromisoformat s) as [j |] eqn:Hs; [| discriminate].
  destruct (round_trip_four_digit_year fmt4 s j Hs eq_refl) as (g' & Hg' & Hrt).
  unfold jalali_to_gregorian in Hg'. rewrite Hs in Hg'. congruence.
Qed.

(** If [%Y] prints the plain decimal year, the valid date texts of the
    years from 1000 on round-trip ... *)
Lemma round_trip_unpadded_from_1000 (s : string) (j : jdatetime.date) :
  jdatetime.fromisoformat s = Some j -> 1000 <= jdatetime.year j ->
  exists g, jalali_to_gregorian s = Ok g /\
            gregorian_to_jalali str_of_Z g = Some s.
Proof.
  intros Hs Hy. apply (round_trip_four_digit_year str_of_Z s j); [exact Hs |].
  apply str_of_Z_four_digits. split; [exact Hy |].
  change (jdatetime.fromisoformat_extended s = Some j) in Hs.
    unfold jdatetime.fromisoformat_extended in Hs.
  destruct (String.length s =? 10)%nat; [| discriminate].
  destruct (parse_uint _) as [y |]; [| discriminate].
  destruct (String.get 4 s); [| discriminate].
  destruct (parse_uint _) as [m |]; [| discriminate].
  destruct (String.get 7 s); [| discriminate].
  destruct (parse_uint _) as [d |]; [| discriminate].
  destruct (_ && _); [| discriminate].
  apply new_date_Some in Hs as (-> & Hr & _). simpl. lia.
Qed.

(** ... and those of the years before 1000 do not. *)
Example round_trip_unpadded_year_999 :
  exists g, jalali_to_gregorian "0999-01-01" = Ok g /\
            gregorian_to_jalali str_of_Z g = Some "999-01-01"%string.
Proof.
  exists (datetime.mk_date 1620 3 20).
  split; vm_compute; reflexivity.
Qed.

(** ** Further examples *)

Lemma import_succeeds_iff_witness :
  fst (import_csv no_float_repr numbered_uuid imp_negative [] empty_world) = success <->
  (forall c, c ∈ needed -> pd.has_column imp_negative c = true) /\
  Forall (importable no_float_repr) (pd.rows imp_negative).
Proof.
  apply (import_succeeds_iff no_float_repr numbered_uuid imp_negative [] empty_world).
  repeat constructor; intros c Hc; vm_compute in Hc;
    repeat (apply elem_of_cons in Hc as [-> | Hc]; [vm_compute; eauto |]);
    apply elem_of_nil in Hc; contradiction.
Defined.

Lemma import_appends_rows_in_order_witness :
  exists records,
    {| session_df := [row_a] ++
         [mk_expense (Some "0") (Some "1403-05-25") (Some "2024-08-15") (Int (-5))
            (Some "") (Some "")];
       DATA_FILE := Some ([row_a] ++
         [mk_expense (Some "0") (Some "1403-05-25") (Some "2024-08-15") (Int (-5))
            (Some "") (Some "")]) |}
    = {| session_df := [row_a] ++ records; DATA_FILE := Some ([row_a] ++ records) |} /\
    length records = length (pd.rows imp_negative) /\
    forall (i : nat) r, pd.rows imp_negative !! i = Some r ->
      exists rec j a,
        records !! i = Some rec /\
        jdatetime.fromisoformat (py_str no_float_repr (pd.at_ r "date_jalali")) = Some j /\
        py_int (to_numeric (pd.at_ r "amount")) = Ok a /\
        rec = {| id := Some (numbered_uuid i);
                 date_jalali := Some (py_str no_float_repr (pd.at_ r "date_jalali"));
                 date_gregorian :=
                   Some (datetime.isoformat (jdatetime.togregorian j));
                 amount := Int a;
                 description :=
                   Some (py_str no_float_repr (optional_cell imp_negative r "description"));
                 card := Some (py_str no_float_repr (optional_cell imp_negative r "card")) |} /\
        (pd.at_ r "description" = CNum NaN ->
           pd.has_column imp_negative "description" = true ->
           description rec = Some "nan"%string) /\
        (pd.at_ r "card" = CNum NaN -> pd.has_column imp_negative "card" = true ->
           card rec = Some "nan"%string).
Proof.
  apply (import_appends_rows_in_order no_float_repr numbered_uuid imp_negative
           [row_a] empty_world).
  vm_compute. reflexivity.
Defined.

Lemma run_shows_table_before_run_witness :
  [row_a] ⊆+ session_df {| session_df := [row_a]; DATA_FILE := Some [row_a] |} /\
  ending {| final := {| session_df := [row_a; late_row];
                        DATA_FILE := Some [row_a; late_row] |};
            messages := [from_form success];
            shown := Some [row_a];
            ending := completed |} = completed.
Proof.
  apply (run_shows_table_before_run no_float_repr stable_sort add_fruit
           {| session_df := [row_a]; DATA_FILE := Some [row_a] |}).
  - intros l. apply stable_sort_sorts.
  - vm_compute. reflexivity.
  - reflexivity.
Defined.

Lemma add_lost_when_file_uploaded_witness :
  final (script_run no_float_repr stable_sort add_while_uploading empty_world)
  = {| session_df := session_df empty_world ++
         [mk_expense (Some "0") (Some "1403-05-25") (Some "2024-08-15") (Int (-5))
            (Some "") (Some "")];
       DATA_FILE := Some (session_df empty_world ++
         [mk_expense (Some "0") (Some "1403-05-25") (Some "2024-08-15") (Int (-5))
            (Some "") (Some "")]) |} /\
  length (session_df
            (final (script_run no_float_repr stable_sort add_while_uploading
                      empty_world)))
  = (length (session_df empty_world) + length (pd.rows imp_negative))%nat /\
  exists row,
    after_form add_while_uploading empty_world
    = {| session_df := session_df empty_world ++ [row];
         DATA_FILE := Some (session_df empty_world ++ [row]) |}.
Proof.
  apply (add_lost_when_file_uploaded no_float_repr stable_sort add_while_uploading
           empty_world _ (mk_form "1403-05-26" (Int 20) "bread" "cash")
           imp_negative); try reflexivity.
Defined.

Lemma session_keeps_file_in_sync_witness :
  in_sync {| session_df := [late_row]; DATA_FILE := Some [late_row] |}.
Proof.
  apply (session_keeps_file_in_sync no_float_repr stable_sort [add_fruit; idle]
           {| session_df := []; DATA_FILE := Some [] |}).
  - reflexivity.
  - vm_compute. reflexivity.
Defined.

Lemma session_card_totals_add_up_witness :
  Forall (fun r => has_card r = true)
    (session_df {| session_df := [late_row]; DATA_FILE := Some [late_row] |}) /\
  (sum_groups (groupby_sum [late_row]) == sum_amount [late_row])%Q.
Proof.
  apply (session_card_totals_add_up no_float_repr stable_sort [add_fruit] idle
           {| session_df := []; DATA_FILE := Some [] |}
           {| session_df := [late_row]; DATA_FILE := Some [late_row] |}
           {| final := {| session_df := [late_row]; DATA_FILE := Some [late_row] |};
              messages := []; shown := Some [late_row]; ending := completed |}
           [late_row]).
  - intros l. apply stable_sort_sorts.
  - constructor.
  - vm_compute. reflexivity.
  - vm_compute. reflexivity.
  - reflexivity.
  - exists [20]. split; [reflexivity | vm_compute; reflexivity].
Defined.

Lemma import_repeats_while_file_uploaded_witness :
  session_df
    (final (script_run no_float_repr stable_sort
              (upload_only imp_negative numbered_uuid) empty_world))
  = session_df empty_world ++
    [mk_expense (Some "0") (Some "1403-05-25") (Some "2024-08-15") (Int (-5))
       (Some "") (Some "")] /\
  exists records',
    import_records no_float_repr numbered_uuid imp_negative = Ok records' /\
    session_df
      (final (script_run no_float_repr stable_sort
                (upload_only imp_negative numbered_uuid)
                (final (script_run no_float_repr stable_sort
                          (upload_only imp_negative numbered_uuid) empty_world))))
    = session_df empty_world ++
      [mk_expense (Some "0") (Some "1403-05-25") (Some "2024-08-15") (Int (-5))
         (Some "") (Some "")] ++ records' /\
    length
      (session_df
         (final (script_run no_float_repr stable_sort
                   (upload_only imp_negative numbered_uuid)
                   (final (script_run no_float_repr stable_sort
                             (upload_only imp_negative numbered_uuid) empty_world)))))
    = (length (session_df empty_world) + 2 * length (pd.rows imp_negative))%nat.
Proof.
  apply (import_repeats_while_file_uploaded no_float_repr stable_sort imp_negative
           numbered_uuid numbered_uuid empty_world); reflexivity.
Defined.

Lemma add_stores_stripped_text_witness :
  exists row d c,
    session_df {| session_df := [late_row]; DATA_FILE := Some [late_row] |}
      = session_df empty_world ++ [row] /\
    date_jalali row = Some "1403-05-26"%string /\
    description row = Some d /\ stripped_of "  bread " d /\
    card row = Some c /\ stripped_of "cash  " c.
Proof.
  apply (add_stores_stripped_text "b"
           (mk_form "1403-05-26" (Int 20) "  bread " "cash  ") empty_world).
  - reflexivity.
  - reflexivity.
  - vm_compute. reflexivity.
Defined.

Lemma read_data_idempotent_witness :
  exists out,
    read_data (Some (Ok file_extra_column)) = Ok out /\
    read_data (Some (Ok out)) = Ok out.
Proof.
  destruct (read_data (Some (Ok file_extra_column))) as [out | e] eqn:H;
    [| rewrite read_data_rows in H; discriminate].
  exists out. split; [reflexivity |].
  apply (read_data_idempotent file_extra_column out). exact H.
Defined.

Lemma import_keeps_ids_unique_witness :
  NoDup (id <$> session_df
           {| session_df := [row_a] ++
                [mk_expense (Some "0") (Some "1403-05-25") (Some "2024-08-15")
                   (Int (-5)) (Some "") (Some "")];
              DATA_FILE := Some ([row_a] ++
                [mk_expense (Some "0") (Some "1403-05-25") (Some "2024-08-15")
                   (Int (-5)) (Some "") (Some "")]) |}) /\
  id <$> session_df
           {| session_df := [row_a] ++
                [mk_expense (Some "0") (Some "1403-05-25") (Some "2024-08-15")
                   (Int (-5)) (Some "") (Some "")];
              DATA_FILE := Some ([row_a] ++
                [mk_expense (Some "0") (Some "1403-05-25") (Some "2024-08-15")
                   (Int (-5)) (Some "") (Some "")]) |}
  = (id <$> [row_a]) ++
    ((fun i => Some (numbered_uuid i)) <$> seq 0 (length (pd.rows imp_negative))).
Proof.
  apply (import_keeps_ids_unique no_float_repr numbered_uuid imp_negative [row_a]
           empty_world).
  - repeat constructor. intros H. apply elem_of_nil in H. exact H.
  - simpl. intros i j Hi Hj _. lia.
  - simpl. intros i Hi H. assert (i = 0%nat) as -> by lia.
    vm_compute in H. apply elem_of_cons in H as [H | H]; [discriminate |].
    apply elem_of_nil in H. exact H.
  - vm_compute. reflexivity.
Defined.

Lemma card_summary_by_label_witness :
  Sorted label_lt [(sentinel, 7%Q)] /\
  (forall k, k ∈ [(sentinel, 7%Q)].*1 <->
     exists r, r ∈ [row_null_card; row_empty_card] /\ group_key r = Some k) /\
  (forall k, (group_total k [(sentinel, 7%Q)]
              == sum_amount (List.filter (in_group k) [row_null_card; row_empty_card]))%Q) /\
  (sum_groups [(sentinel, 7%Q)]
   == sum_amount (List.filter has_card [row_null_card; row_empty_card]))%Q.
Proof.
  apply (card_summary_by_label [row_null_card; row_empty_card]).
  - exists [100; 7]. split; [reflexivity | vm_compute; reflexivity].
  - vm_compute. reflexivity.
Defined.

Lemma metrics_of_integer_amounts_witness :
  total_spent [row_a; row_b] = Ok (z_sum [10; 20]) /\
  avg [row_a; row_b] = Ok (Z.quot (z_sum [10; 20]) (Z.of_nat (length [row_a; row_b]))) /\
  (0 <= z_sum [10; 20] ->
   let n := Z.of_nat (length [row_a; row_b]) in
   let a := Z.quot (z_sum [10; 20]) n in
   n * a <= z_sum [10; 20] < n * a + n).
Proof.
  apply (metrics_of_integer_amounts [row_a; row_b] [10; 20]).
  - discriminate.
  - reflexivity.
  - vm_compute. reflexivity.
Defined.

Lemma gregorian_text_order_witness :
  exists g1 g2,
    jalali_to_gregorian "1403-05-25" = Ok g1 /\
    jalali_to_gregorian "1403-12-01" = Ok g2 /\
    g_date_ok g1 = true /\ g_date_ok g2 = true /\
    String.compare (datetime.isoformat g1) (datetime.isoformat g2)
    = j_compare (jdatetime.mk_date 1403 5 25) (jdatetime.mk_date 1403 12 1).
Proof.
  apply (gregorian_text_order "1403-05-25" "1403-12-01"
           (jdatetime.mk_date 1403 5 25) (jdatetime.mk_date 1403 12 1));
    vm_compute; reflexivity.
Defined.

Lemma date_filter_jalali_range_witness :
  date_filtering (mk_filters "1403-05-26" "1403-05-26" "" "")
    (session_df {| session_df := [late_row]; DATA_FILE := Some [late_row] |})
  = (List.filter (within (jdatetime.mk_date 1403 5 26) (jdatetime.mk_date 1403 5 26))
       (session_df {| session_df := [late_row]; DATA_FILE := Some [late_row] |}),
     None).
Proof.
  apply (date_filter_jalali_range no_float_repr stable_sort [add_fruit; idle]
           {| session_df := []; DATA_FILE := Some [] |}).
  - apply Forall_nil_2.
  - vm_compute. reflexivity.
  - vm_compute. reflexivity.
  - vm_compute. reflexivity.
Defined.

Lemma conversion_round_trip_dates_witness :
  g_date_ok (datetime.mk_date 2024 8 15) = true /\
  exists j, jdatetime.fromisoformat "1403-05-25" = Some j /\
            gregorian_to_jalali fmt4 (datetime.mk_date 2024 8 15)
            = Some (jdatetime.strftime_Ymd fmt4 j).
Proof.
  apply (conversion_round_trip_dates fmt4 "1403-05-25" (datetime.mk_date 2024 8 15)).
  vm_compute. reflexivity.
Defined.

